(** * travelclaw: the API access core of the Amadeus command-line tools

    A shallow embedding of
      - [amadeus-flights/scripts/auth.py] and its copy
        [amadeus-experiences/scripts/auth.py]   (token cache and manager),
      - [amadeus-flights/scripts/search.py]      (request dispatcher),
      - [amadeus-flights/scripts/airlines.py]    (a status-returning caller),
      - [amadeus-flights/scripts/compare_dates.py] (date range generator and
        price comparator),
    followed by the properties stated about them.

    Conventions.  Python values that come out of [json.load] or
    [response.json()] are values of type [json].  Python floats ([time.time()],
    prices) are read as exact rationals.  A Python call that may raise is a
    function into [result]; [Raise e] is the exception leaving the call. *)

From Stdlib Require Import ZArith QArith Bool List String Ascii Lia Lqa.
From Stdlib Require Import Permutation Sorted.
From Equations Require Import Equations.
Import ListNotations.

Local Open Scope string_scope.
Local Open Scope Z_scope.

Set Warnings "-register-all".

(* ===================================================================== *)
(** * Python values, exceptions and the few builtins the scripts use     *)
(* ===================================================================== *)

Module Py.

(** Values produced by the JSON decoder. *)
Inductive json : Type :=
| JNull
| JBool (b : bool)
| JNum (q : Q)
| JStr (s : string)
| JArr (items : list json)
| JObj (members : list (string * json)).

Definition dict := list (string * json).

(** Exceptions that can leave the modelled functions.  All of them are
    subclasses of Python's [Exception]. *)
Inductive exn : Type :=
| EnvironmentError (msg : string)
| BadRequest (detail : json)      (* ValueError(f"Bad request: {detail}") *)
| ValueError (msg : string)
| JSONDecodeError
| KeyError (key : string)
| IndexError
| AttributeError
| TypeError
| OverflowError
| HTTPError (status : Z) (text : string)   (* requests.HTTPError, with its response *)
| ConnectionError (msg : string)           (* requests transport failures *)
| Exception_ (msg : string).

Inductive result (A : Type) : Type :=
| Ok (a : A)
| Raise (e : exn).
Arguments Ok {A} a.
Arguments Raise {A} e.

Definition bind {A B} (r : result A) (k : A -> result B) : result B :=
  match r with
  | Ok a => k a
  | Raise e => Raise e
  end.

Notation "x <- r ;; k" := (bind r (fun x => k))
  (at level 61, r at next level, right associativity).

(** [try: body  except <classes>: handler]. *)
Definition try_except {A} (body : result A) (caught : exn -> bool)
           (handler : exn -> result A) : result A :=
  match body with
  | Ok a => Ok a
  | Raise e => if caught e then handler e else Raise e
  end.

Definition raises {A} (r : result A) : Prop := exists e, r = Raise e.

Fixpoint lookup (k : string) (m : dict) : option json :=
  match m with
  | [] => None
  | (k', v) :: rest => if String.eqb k k' then Some v else lookup k rest
  end.

(** [v.get(k, default)] *)
Definition get (v : json) (k : string) (default : json) : result json :=
  match v with
  | JObj m => Ok (match lookup k m with Some x => x | None => default end)
  | _ => Raise AttributeError
  end.

(** [v.get(key, default)] where the key is itself a decoded value. *)
Definition get_by (v : json) (key : json) (default : json) : result json :=
  match v with
  | JObj m =>
      match key with
      | JStr k => Ok (match lookup k m with Some x => x | None => default end)
      | JArr _ | JObj _ => Raise TypeError          (* unhashable *)
      | _ => Ok default
      end
  | _ => Raise AttributeError
  end.

(** [v[k]] for a string key. *)
Definition subscript (v : json) (k : string) : result json :=
  match v with
  | JObj m => match lookup k m with Some x => Ok x | None => Raise (KeyError k) end
  | _ => Raise TypeError
  end.

(** [v[0]] *)
Definition index0 (v : json) : result json :=
  match v with
  | JArr (x :: _) => Ok x
  | JArr [] => Raise IndexError
  | JStr (String c _) => Ok (JStr (String c EmptyString))
  | JStr EmptyString => Raise IndexError
  | JObj _ => Raise (KeyError "0")
  | _ => Raise TypeError
  end.

(** [len(v)] *)
Definition len (v : json) : result Z :=
  match v with
  | JArr l => Ok (Z.of_nat (List.length l))
  | JStr s => Ok (Z.of_nat (String.length s))
  | JObj m => Ok (Z.of_nat (List.length m))
  | _ => Raise TypeError
  end.

Definition is_object (v : json) : bool :=
  match v with JObj _ => true | _ => false end.

Definition Qnonzero (q : Q) : bool := negb (Qeq_bool q 0).

(** Truth value of [v] in a condition. *)
Definition truthy (v : json) : bool :=
  match v with
  | JNull => false
  | JBool b => b
  | JNum q => Qnonzero q
  | JStr s => negb (String.eqb s EmptyString)
  | JArr l => match l with [] => false | _ => true end
  | JObj m => match m with [] => false | _ => true end
  end.

(** The number a value stands for in arithmetic and comparisons with a
    float; [bool] is a subclass of [int]. *)
Definition as_number (v : json) : result Q :=
  match v with
  | JNum q => Ok q
  | JBool true => Ok 1%Q
  | JBool false => Ok 0%Q
  | _ => Raise TypeError
  end.

Definition Qgtb (a b : Q) : bool := negb (Qle_bool a b).

(** An HTTP exchange made through [requests]: either a response with its
    status code, raw text and (when the text is JSON) decoded body, or a
    transport failure. *)
Inductive reply : Type :=
| Response (status : Z) (text : string) (decoded : option json)
| Unreachable (msg : string).

(** [response.json()] *)
Definition response_json (decoded : option json) : result json :=
  match decoded with
  | Some v => Ok v
  | None => Raise JSONDecodeError
  end.

(** [response.raise_for_status()] *)
Definition raise_for_status (status : Z) (text : string) : result unit :=
  if (400 <=? status) && (status <? 600)
  then Raise (HTTPError status text)
  else Ok tt.

End Py.
Import Py.

(* ===================================================================== *)
(** * Token cache and token manager (amadeus-flights/scripts/auth.py)    *)
(* ===================================================================== *)

(** The file [state/token.json] as the scripts see it. *)
Inductive cache_file : Type :=
| NoFile                    (* TOKEN_FILE.exists() is false *)
| NotJson                   (* json.load raises JSONDecodeError *)
| Json (v : json).          (* json.load returns v *)

Definition json_load (f : cache_file) : result json :=
  match f with
  | Json v => Ok v
  | _ => Raise JSONDecodeError
  end.

(** What a call did to the outside world. *)
Inductive auth_event : Type :=
| FetchNewToken             (* fetch_new_token was entered *)
| PostToken.                (* the POST to /v1/security/oauth2/token *)

Record world : Type := {
  token_file : cache_file;
  log : list auth_event
}.

Definition emit (ev : auth_event) (w : world) : world :=
  {| token_file := token_file w; log := log w ++ [ev] |}.

Definition write_file (v : json) (w : world) : world :=
  {| token_file := Json v; log := log w |}.

(** The process environment and the OAuth server, as seen by one call. *)
Record env : Type := {
  api_key : option string;
  api_secret : option string;
  oauth_reply : reply
}.

Definition nonempty (o : option string) : bool :=
  match o with
  | Some s => negb (String.eqb s EmptyString)
  | None => false
  end.

Definition get_credentials (e : env) : result (string * string) :=
  match api_key e, api_secret e with
  | Some k, Some s =>
      if nonempty (api_key e) && nonempty (api_secret e)
      then Ok (k, s)
      else Raise (EnvironmentError
                    "Missing credentials. Set AMADEUS_API_KEY and AMADEUS_API_SECRET.")
  | _, _ => Raise (EnvironmentError
                    "Missing credentials. Set AMADEUS_API_KEY and AMADEUS_API_SECRET.")
  end.

Module Auth.

(** The body of the [try] block of [load_cached_token]. *)
Definition read_valid (now : Q) (f : cache_file) : result (option json) :=
  data <- json_load f ;;
  exp <- get data "expires_at" (JNum 0) ;;
  n <- as_number exp ;;
  if Qgtb n (now + 60) then Ok (Some data) else Ok None.

Definition caught (e : exn) : bool :=
  match e with
  | JSONDecodeError | KeyError _ => true
  | _ => false
  end.

Definition load_cached_token (now : Q) (f : cache_file) : result (option json) :=
  match f with
  | NoFile => Ok None
  | _ => try_except (read_valid now f) caught (fun _ => Ok None)
  end.

Definition save_token (token_data : json) (w : world) : world :=
  write_file token_data w.

Definition fetch_new_token (now : Q) (e : env) (w : world)
  : result json * world :=
  let w := emit FetchNewToken w in
  match get_credentials e with
  | Raise x => (Raise x, w)
  | Ok _ =>
      let w := emit PostToken w in
      match oauth_reply e with
      | Unreachable m => (Raise (ConnectionError m), w)
      | Response status text decoded =>
          if status =? 401 then
            (Raise (EnvironmentError
               "Authentication failed. Check AMADEUS_API_KEY and AMADEUS_API_SECRET."), w)
          else
            let built :=
              _ <- raise_for_status status text ;;
              data <- response_json decoded ;;
              expires_in <- get data "expires_in" (JNum 1799) ;;
              access <- subscript data "access_token" ;;
              token_type <- get data "token_type" (JStr "Bearer") ;;
              dt <- as_number expires_in ;;
              Ok (JObj [("access_token", access);
                        ("token_type", token_type);
                        ("expires_in", expires_in);
                        ("expires_at", JNum (now + dt))]) in
            match built with
            | Raise x => (Raise x, w)
            | Ok token_data => (Ok token_data, save_token token_data w)
            end
      end
  end.

Definition get_token (now : Q) (e : env) (w : world) : result json * world :=
  match load_cached_token now (token_file w) with
  | Raise x => (Raise x, w)
  | Ok cached =>
      match cached with
      | Some data =>
          if truthy data then (subscript data "access_token", w)
          else
            let '(r, w') := fetch_new_token now e w in
            (token_data <- r ;; subscript token_data "access_token", w')
      | None =>
          let '(r, w') := fetch_new_token now e w in
          (token_data <- r ;; subscript token_data "access_token", w')
      end
  end.

(** ** Vocabulary for the statements about the token manager *)

(** What the cache file holds, read as a CachedToken
    [{accessToken, expiresAt}]: nothing, or a record. *)
Inductive cached_record : cache_file -> option (string * Q) -> Prop :=
| cached_absent : cached_record NoFile None
| cached_present m tok exp :
    lookup "access_token" m = Some (JStr tok) ->
    lookup "expires_at" m = Some (JNum exp) ->
    cached_record (Json (JObj m)) (Some (tok, exp)).

(** The cached record is missing or inside the 60 second buffer. *)
Definition stale (now : Q) (c : option (string * Q)) : Prop :=
  match c with
  | None => True
  | Some (_, exp) => (exp <= now + 60)%Q
  end.

(** The events a call added to the log. *)
Definition performed (before after : world) : list auth_event :=
  skipn (List.length (log before)) (log after).

Definition is_post (ev : auth_event) : bool :=
  match ev with PostToken => true | FetchNewToken => false end.

Definition exchanges (evs : list auth_event) : nat :=
  List.length (filter is_post evs).

(** The cache file is served at time [now]. *)
Definition valid_at (now : Q) (f : cache_file) : Prop :=
  exists data, load_cached_token now f = Ok (Some data).

End Auth.

(** The copy in amadeus-experiences/scripts/auth.py: the same body under a
    bare [except:]. *)
Module AuthExperiences.

Definition load_cached_token (now : Q) (f : cache_file) : result (option json) :=
  match f with
  | NoFile => Ok None
  | _ => try_except (Auth.read_valid now f) (fun _ => true) (fun _ => Ok None)
  end.

End AuthExperiences.

(* ===================================================================== *)
(** * Request dispatcher (amadeus-flights/scripts/search.py)             *)
(* ===================================================================== *)

Module Dispatcher.

(** What [make_request] does to the outside world, in order. *)
Inductive event : Type :=
| Send (attempt : nat)      (* requests.get / requests.post of this attempt *)
| Sleep (seconds : Z).      (* time.sleep(seconds) *)

(** The server answers the request of each attempt. *)
Definition server := nat -> reply.

Definition auth_failed : exn :=
  EnvironmentError
    "Authentication failed. Check AMADEUS_API_KEY and AMADEUS_API_SECRET.".

Definition max_retries : exn :=
  Exception_ "Max retries exceeded due to rate limiting".

(** The [status_code == 400] branch:
    [error = response.json().get("errors", [{}])[0]]
    [raise ValueError(f"Bad request: {error.get('detail', response.text)}")] *)
Definition bad_request {A} (text : string) (decoded : option json) : result A :=
  body <- response_json decoded ;;
  errors <- get body "errors" (JArr [JObj []]) ;;
  error <- index0 errors ;;
  detail <- get error "detail" (JStr text) ;;
  Raise (BadRequest detail).

(** The [for attempt in range(retries)] loop, from [attempt] on with
    [remaining] iterations left, and the statement after it. *)
Fixpoint attempts (srv : server) (attempt remaining : nat)
  : list event * result json :=
  match remaining with
  | O => ([], Raise max_retries)
  | S k =>
      match srv attempt with
      | Unreachable m => ([Send attempt], Raise (ConnectionError m))
      | Response status text decoded =>
          if status =? 429 then
            let wait := 2 ^ Z.of_nat attempt in
            let '(tr, r) := attempts srv (S attempt) k in
            (Send attempt :: Sleep wait :: tr, r)
          else if status =? 401 then
            ([Send attempt], Raise auth_failed)
          else if status =? 400 then
            ([Send attempt], bad_request text decoded)
          else
            ([Send attempt],
             _ <- raise_for_status status text ;; response_json decoded)
      end
  end.

Definition default_retries : nat := 3.

(** [headers] is the outcome of [get_auth_header()]. *)
Definition make_request (headers : result json) (srv : server) (retries : nat)
  : list event * result json :=
  match headers with
  | Raise e => ([], Raise e)
  | Ok _ => attempts srv 0 retries
  end.

(** The trace of [n] rate-limited attempts starting at attempt [from]. *)
Definition backoff (from n : nat) : list event :=
  flat_map (fun a => [Send a; Sleep (2 ^ Z.of_nat a)]) (seq from n).

Definition status_of (r : reply) : option Z :=
  match r with
  | Response status _ _ => Some status
  | Unreachable _ => None
  end.

Definition sends (tr : list event) : nat :=
  List.length (filter (fun ev => match ev with Send _ => true | _ => false end) tr).

Definition sleeps (tr : list event) : list Z :=
  flat_map (fun ev => match ev with Sleep s => [s] | _ => [] end) tr.

(** ** Vocabulary for the statements about the dispatcher *)

(** Attempts [0 .. n-1] are all answered with HTTP 429. *)
Definition rate_limited (srv : server) (n : nat) : Prop :=
  forall j, (j < n)%nat -> status_of (srv j) = Some 429.

(** The error envelope of a 400 body: ["errors"] is absent, or an array
    whose first element is an object. *)
Definition error_envelope (body : dict) : Prop :=
  match lookup "errors" body with
  | None => True
  | Some (JArr (JObj _ :: _)) => True
  | Some _ => False
  end.

(** The first structured error detail of the body, when there is one. *)
Definition structured_detail (body : dict) : option json :=
  match lookup "errors" body with
  | Some (JArr (JObj first :: _)) => lookup "detail" first
  | _ => None
  end.

End Dispatcher.

(** amadeus-flights/scripts/airlines.py: a caller that returns the status. *)
Module Airlines.

Definition lookup_airlines (token : result json) (r : reply) : result json :=
  _ <- token ;;
  match r with
  | Unreachable m => Raise (ConnectionError m)
  | Response status text decoded =>
      if negb (status =? 200) then
        body <- response_json decoded ;;
        Ok (JObj [("error", body); ("status", JNum (inject_Z status))])
      else response_json decoded
  end.

End Airlines.

(* ===================================================================== *)
(** * Calendar dates (Python's datetime, as far as the scripts use it)   *)
(* ===================================================================== *)

(** Every [datetime] the scripts build is a midnight; it is represented by
    its proleptic Gregorian ordinal, day 1 being 0001-01-01, as
    [datetime.toordinal] numbers them. *)
Module Calendar.

Definition MAXORDINAL : Z := 3652059.        (* 9999-12-31 *)

Definition is_leap (year : Z) : bool :=
  (year mod 4 =? 0) && (negb (year mod 100 =? 0) || (year mod 400 =? 0)).

Definition DAYS_IN_MONTH : list Z :=
  [-1; 31; 28; 31; 30; 31; 30; 31; 31; 30; 31; 30; 31].

Definition DAYS_BEFORE_MONTH : list Z :=
  [-1; 0; 31; 59; 90; 120; 151; 181; 212; 243; 273; 304; 334].

Definition days_before_year (year : Z) : Z :=
  let y := year - 1 in
  y * 365 + y / 4 - y / 100 + y / 400.

Definition days_in_month (year month : Z) : Z :=
  if (month =? 2) && is_leap year then 29
  else nth (Z.to_nat month) DAYS_IN_MONTH 0.

Definition days_before_month (year month : Z) : Z :=
  nth (Z.to_nat month) DAYS_BEFORE_MONTH 0
  + (if (month >? 2) && is_leap year then 1 else 0).

Definition ymd2ord (year month day : Z) : Z :=
  days_before_year year + days_before_month year month + day.

Definition ord2ymd (ordinal : Z) : Z * Z * Z :=
  let n := ordinal - 1 in
  let n400 := n / 146097 in
  let n := n mod 146097 in
  let year := n400 * 400 + 1 in
  let n100 := n / 36524 in
  let n := n mod 36524 in
  let n4 := n / 1461 in
  let n := n mod 1461 in
  let n1 := n / 365 in
  let n := n mod 365 in
  let year := year + n100 * 100 + n4 * 4 + n1 in
  if (n1 =? 4) || (n100 =? 4) then (year - 1, 12, 31)
  else
    let leapyear := (n1 =? 3) && (negb (n4 =? 24) || (n100 =? 3)) in
    let month := Z.shiftr (n + 50) 5 in
    let preceding :=
      nth (Z.to_nat month) DAYS_BEFORE_MONTH 0
      + (if (month >? 2) && leapyear then 1 else 0) in
    if preceding >? n then
      let month := month - 1 in
      let preceding :=
        preceding - (nth (Z.to_nat month) DAYS_IN_MONTH 0
                     + (if (month =? 2) && leapyear then 1 else 0)) in
      (year, month, n - preceding + 1)
    else (year, month, n - preceding + 1).

(** [dt.weekday()]: Monday is 0, Sunday is 6. *)
Definition weekday (ordinal : Z) : Z := (ordinal + 6) mod 7.

(** [dt + timedelta(days=n)] *)
Definition add_days (ordinal n : Z) : result Z :=
  if Z.abs n >? 999999999 then Raise OverflowError
  else
    let r := ordinal + n in
    if (0 <? r) && (r <=? MAXORDINAL) then Ok r else Raise OverflowError.

(** ** [datetime.strptime(s, "%Y-%m-%d")] *)

Definition digit (c : ascii) : option Z :=
  let n := Z.of_nat (nat_of_ascii c) in
  if (48 <=? n) && (n <=? 57) then Some (n - 48) else None.

Definition is_dash (c : ascii) : bool := Ascii.eqb c "-"%char.
Definition is_space (c : ascii) : bool := Ascii.eqb c " "%char.

(** [%Y]: exactly four digits. *)
Definition scan_year (cs : list ascii) : option (Z * list ascii) :=
  match cs with
  | a :: b :: c :: d :: rest =>
      match digit a, digit b, digit c, digit d with
      | Some a, Some b, Some c, Some d =>
          Some (a * 1000 + b * 100 + c * 10 + d, rest)
      | _, _, _, _ => None
      end
  | _ => None
  end.

Definition digit_at (cs : list ascii) : option Z :=
  match cs with
  | c :: _ => digit c
  | [] => None
  end.

(** [%m]: the pattern 1[0-2]|0[1-9]|[1-9]. *)
Definition scan_month (cs : list ascii) : option (Z * list ascii) :=
  match cs with
  | c :: rest =>
      match digit c with
      | Some 1 =>
          match digit_at rest with
          | Some d => if d <=? 2 then Some (10 + d, tl rest) else Some (1, rest)
          | None => Some (1, rest)
          end
      | Some 0 =>
          match digit_at rest with
          | Some d => if 1 <=? d then Some (d, tl rest) else None
          | None => None
          end
      | Some d => Some (d, rest)
      | None => None
      end
  | [] => None
  end.

(** [%d]: the pattern 3[0-1]|[1-2]\d|0[1-9]|[1-9]| [1-9]. *)
Definition scan_day (cs : list ascii) : option (Z * list ascii) :=
  match cs with
  | c :: rest =>
      if is_space c then
        match digit_at rest with
        | Some d => if 1 <=? d then Some (d, tl rest) else None
        | None => None
        end
      else
        match digit c with
        | Some 3 =>
            match digit_at rest with
            | Some d => if d <=? 1 then Some (30 + d, tl rest) else Some (3, rest)
            | None => Some (3, rest)
            end
        | Some 0 =>
            match digit_at rest with
            | Some d => if 1 <=? d then Some (d, tl rest) else None
            | None => None
            end
        | Some t =>
            if t <=? 2 then
              match digit_at rest with
              | Some d => Some (t * 10 + d, tl rest)
              | None => Some (t, rest)
              end
            else Some (t, rest)
        | None => None
        end
  | [] => None
  end.

Definition expect_dash (cs : list ascii) : option (list ascii) :=
  match cs with
  | c :: rest => if is_dash c then Some rest else None
  | [] => None
  end.

Definition scan (s : string) : option (Z * Z * Z * list ascii) :=
  match scan_year (list_ascii_of_string s) with
  | Some (y, r1) =>
      match expect_dash r1 with
      | Some r2 =>
          match scan_month r2 with
          | Some (m, r3) =>
              match expect_dash r3 with
              | Some r4 =>
                  match scan_day r4 with
                  | Some (d, r5) => Some (y, m, d, r5)
                  | None => None
                  end
              | None => None
              end
          | None => None
          end
      | None => None
      end
  | None => None
  end.

Definition strptime (s : string) : result Z :=
  match scan s with
  | None =>
      Raise (ValueError
               ("time data '" ++ s ++ "' does not match format '%Y-%m-%d'")%string)
  | Some (y, m, d, rest) =>
      match rest with
      | _ :: _ =>
          Raise (ValueError
                   ("unconverted data remains: " ++ string_of_list_ascii rest)%string)
      | [] =>
          if y <? 1 then Raise (ValueError "year 0 is out of range")
          else if d >? days_in_month y m
               then Raise (ValueError "day is out of range for month")
               else Ok (ymd2ord y m d)
      end
  end.

(** ** [dt.strftime("%Y-%m-%d")] *)

Definition digit_char (d : Z) : ascii := ascii_of_nat (Z.to_nat (48 + d mod 10)).

Definition pad2 (n : Z) : string :=
  String (digit_char (n / 10)) (String (digit_char n) EmptyString).

Definition pad4 (n : Z) : string :=
  String (digit_char (n / 1000)) (String (digit_char (n / 100))
    (String (digit_char (n / 10)) (String (digit_char n) EmptyString))).

Definition strftime (ordinal : Z) : string :=
  let '(y, m, d) := ord2ymd ordinal in
  pad4 y ++ "-" ++ pad2 m ++ "-" ++ pad2 d.

End Calendar.
Import Calendar.

(* ===================================================================== *)
(** * Date range generator (amadeus-flights/scripts/compare_dates.py)    *)
(* ===================================================================== *)

Module DateRange.

Definition parse_date (date_str : string) : result Z := strptime date_str.

Definition format_date (dt : Z) : string := strftime dt.

(** The three-way test in the loop body: is the day appended? *)
Definition keeps (weekends_only weekdays_only : bool) (current : Z) : bool :=
  if weekends_only && (weekday current >=? 5) then true
  else if weekdays_only && (weekday current <? 5) then true
  else if negb weekends_only && negb weekdays_only then true
  else false.

Definition inspect {A} (a : A) : {b : A | a = b} := exist _ a eq_refl.

(** [while current <= end: ...; current += timedelta(days=1)], then
    [return dates]. *)
Equations? date_loop (weekends_only weekdays_only : bool) (end_ current : Z)
          (dates : list string) : result (list string)
  by wf (Z.to_nat (end_ + 1 - current)) lt :=
date_loop weekends_only weekdays_only end_ current dates
  with Z_le_gt_dec current end_ => {
  | right _ => Ok dates
  | left _ with inspect (add_days current 1) => {
    | exist _ (Raise e) _ => Raise e
    | exist _ (Ok next) _ =>
        date_loop weekends_only weekdays_only end_ next
          (if keeps weekends_only weekdays_only current
           then dates ++ [format_date current] else dates) } }.
Proof.
  unfold add_days in e. simpl in e.
  destruct ((0 <? current + 1) && (current + 1 <=? MAXORDINAL)); inversion e.
  lia.
Qed.

Definition generate_date_range (start_date end_date : string)
           (weekends_only weekdays_only : bool) : result (list string) :=
  start <- parse_date start_date ;;
  end_ <- parse_date end_date ;;
  date_loop weekends_only weekdays_only end_ start [].

(** The filter of the specification. *)
Inductive date_filter : Type := NoFilter | WeekendsOnly | WeekdaysOnly.

Definition weekends_flag (f : date_filter) : bool :=
  match f with WeekendsOnly => true | _ => false end.

Definition weekdays_flag (f : date_filter) : bool :=
  match f with WeekdaysOnly => true | _ => false end.

Definition is_weekend (d : Z) : bool := (weekday d =? 5) || (weekday d =? 6).

Definition passes (f : date_filter) (d : Z) : bool :=
  match f with
  | NoFilter => true
  | WeekendsOnly => is_weekend d
  | WeekdaysOnly => (0 <=? weekday d) && (weekday d <=? 4)
  end.

(** The calendar days from [first] to [last] inclusive, in order. *)
Definition days_between (first last : Z) : list Z :=
  map (fun i => first + Z.of_nat i) (seq 0 (Z.to_nat (last - first + 1))).

End DateRange.
Import DateRange.

(* ===================================================================== *)
(** * Price comparator (amadeus-flights/scripts/compare_dates.py)        *)
(* ===================================================================== *)

Module Comparator.

(** The ["error"] member of an entry: the literal ["No flights found"], or
    [str(e)] of the exception that was caught. *)
Inductive error_detail : Type :=
| NoFlightsFound
| Failure (e : exn).

(** The dictionaries appended to [results]; a member that a dictionary does
    not have is [None] here. *)
Record entry : Type := {
  departure_date : string;
  return_date : option string;
  price : option Q;
  currency : json;
  stops : option Z;
  carrier : option json;
  carrier_code : option json;
  offers_found : Z;
  error : option error_detail
}.

(** Second component of the sort key: a float or [float('inf')]. *)
Inductive ext : Type :=
| Fin (q : Q)
| Inf.

Definition ext_lt (a b : ext) : bool :=
  match a, b with
  | Fin p, Fin q => Qgtb q p
  | Fin _, Inf => true
  | Inf, _ => false
  end.

(** [(x["price"] is None, x["price"] or float('inf'))] *)
Definition sort_key (x : entry) : bool * ext :=
  (match price x with None => true | Some _ => false end,
   match price x with
   | Some p => if Qnonzero p then Fin p else Inf
   | None => Inf
   end).

(** [<] on the key tuples: the first components decide unless they are
    equal. *)
Definition key_lt (a b : bool * ext) : bool :=
  if Bool.eqb (fst a) (fst b) then ext_lt (snd a) (snd b)
  else negb (fst a) && fst b.

(** [list.sort(key=...)] is a stable sort; on a total preorder of keys its
    result is the one of the stable insertion sort. *)
Fixpoint insert (x : entry) (l : list entry) : list entry :=
  match l with
  | [] => [x]
  | y :: rest =>
      if key_lt (sort_key y) (sort_key x) then y :: insert x rest
      else x :: y :: rest
  end.

Definition sort_results (l : list entry) : list entry :=
  fold_right insert [] l.

Record comparison : Type := {
  origin : string;
  destination : string;
  results : list entry;        (* the "comparison" member *)
  cheapest : option entry
}.

Definition failed (currency departure : string) (ret : option string)
           (why : error_detail) : entry :=
  {| departure_date := departure; return_date := ret; price := None;
     currency := JStr currency; stops := None; carrier := None;
     carrier_code := None; offers_found := 0; error := Some why |}.

(** [return_date] of one iteration; it is computed before the [try]. *)
Definition return_date_for (return_after_days : option Z) (departure : string)
  : result (option string) :=
  match return_after_days with
  | None => Ok None
  | Some n =>
      if n =? 0 then Ok None
      else
        dep_dt <- parse_date departure ;;
        ret_dt <- add_days dep_dt n ;;
        Ok (Some (format_date ret_dt))
  end.

Section WithFloat.

(** Python's [float] on a [str]. *)
Variable float_of_str : string -> result Q.

Definition float (v : json) : result Q :=
  match v with
  | JStr s => float_of_str s
  | JNum q => Ok q
  | JBool true => Ok 1%Q
  | JBool false => Ok 0%Q
  | _ => Raise TypeError
  end.

(** The [if offers:] branch. *)
Definition priced (currency departure : string) (ret : option string)
           (data offers : json) : result entry :=
  cheapest <- index0 offers ;;
  price <- get cheapest "price" (JObj []) ;;
  fallback <- get price "total" (JNum 0) ;;
  raw <- get price "grandTotal" fallback ;;
  total <- float raw ;;
  itineraries <- get cheapest "itineraries" (JArr []) ;;
  outbound <- (if truthy itineraries then index0 itineraries else Ok (JObj [])) ;;
  segments <- get outbound "segments" (JArr []) ;;
  n_segments <- len segments ;;
  dictionaries <- get data "dictionaries" (JObj []) ;;
  carriers <- get dictionaries "carriers" (JObj []) ;;
  code <- (if truthy segments
           then first <- index0 segments ;; get first "carrierCode" (JStr EmptyString)
           else Ok (JStr EmptyString)) ;;
  name <- get_by carriers code code ;;
  cur <- get price "currency" (JStr currency) ;;
  n_offers <- len offers ;;
  Ok {| departure_date := departure; return_date := ret; price := Some total;
        currency := cur; stops := Some (n_segments - 1); carrier := Some name;
        carrier_code := Some code; offers_found := n_offers; error := None |}.

(** The [try] block of one iteration. *)
Definition attempt (found : result json) (currency departure : string)
           (ret : option string) : result entry :=
  data <- found ;;
  offers <- get data "data" (JArr []) ;;
  if truthy offers then priced currency departure ret data offers
  else Ok (failed currency departure ret NoFlightsFound).

(** One iteration after [return_date] is known: the [try] block under
    [except Exception as e]. *)
Definition check (found : result json) (currency departure : string)
           (ret : option string) : entry :=
  match attempt found currency departure ret with
  | Ok e => e
  | Raise x => failed currency departure ret (Failure x)
  end.

(** [search i departure ret] is the outcome of the [i]-th call of
    [search_flights] (counted from 0). *)
Definition searcher := nat -> string -> option string -> result json.

(** The [for] loop over [dates], from iteration [i] on. *)
Fixpoint collect (search : searcher) (return_after_days : option Z)
         (currency : string) (i : nat) (dates : list string)
         (acc : list entry) : result (list entry) :=
  match dates with
  | [] => Ok acc
  | departure :: rest =>
      ret <- return_date_for return_after_days departure ;;
      collect search return_after_days currency (S i) rest
        (acc ++ [check (search i departure ret) currency departure ret])
  end.

Definition price_truthy (x : entry) : bool :=
  match price x with
  | Some p => Qnonzero p
  | None => false
  end.

Definition compare_dates (search : searcher) (origin destination : string)
           (dates : list string) (return_after_days : option Z)
           (currency : string) : result comparison :=
  collected <- collect search return_after_days currency 0 dates [] ;;
  let sorted := sort_results collected in
  Ok {| origin := origin; destination := destination; results := sorted;
        cheapest := match sorted with
                    | first :: _ => if price_truthy first then Some first else None
                    | [] => None
                    end |}.

(** The entries of the dates in emission order, once the return dates
    [rets] are known: the [i]-th entry is made from the [i]-th search. *)
Fixpoint per_date (search : searcher) (currency : string) (i : nat)
         (dates : list string) (rets : list (option string)) : list entry :=
  match dates, rets with
  | departure :: dates', ret :: rets' =>
      check (search i departure ret) currency departure ret
      :: per_date search currency (S i) dates' rets'
  | _, _ => []
  end.

End WithFloat.

(** The return dates of all the dates, when each can be computed. *)
Fixpoint return_dates (return_after_days : option Z) (dates : list string)
  : result (list (option string)) :=
  match dates with
  | [] => Ok []
  | departure :: rest =>
      ret <- return_date_for return_after_days departure ;;
      rets <- return_dates return_after_days rest ;;
      Ok (ret :: rets)
  end.

Definition prices_of (out : result comparison) : result (list (option Q)) :=
  c <- out ;; Ok (map price (results c)).

Definition cheapest_price_of (out : result comparison) : result (option (option Q)) :=
  c <- out ;; Ok (option_map price (cheapest c)).

(** ** The specification's view of an entry list *)

(** Ascending by price, absent prices last. *)
Definition price_le (a b : option Q) : Prop :=
  match a, b with
  | Some p, Some q => (p <= q)%Q
  | Some _, None => True
  | None, Some _ => False
  | None, None => True
  end.

Definition by_price (x y : entry) : Prop := price_le (price x) (price y).

Definition has_price (x : entry) : bool :=
  match price x with Some _ => true | None => false end.

(** An entry whose price is absent, or present and not zero. *)
Definition plain_price (x : entry) : Prop :=
  has_price x = match price x with Some p => Qnonzero p | None => false end.

(** [float] on strings in plain decimal notation (sign, digits, optional
    fraction), used to run the comparator on sample payloads. *)
Fixpoint digits (cs : list ascii) (acc : Z) (count : nat) : Z * nat * list ascii :=
  match cs with
  | c :: rest =>
      match digit c with
      | Some d => digits rest (acc * 10 + d) (S count)
      | None => (acc, count, cs)
      end
  | [] => (acc, count, [])
  end.

Definition decimal (s : string) : result Q :=
  let cs := list_ascii_of_string s in
  let '(neg, cs) :=
    match cs with
    | c :: rest => if Ascii.eqb c "-"%char then (true, rest) else (false, cs)
    | [] => (false, cs)
    end in
  let '(whole, nw, cs) := digits cs 0 O in
  let '(num, nf, cs) :=
    match cs with
    | c :: rest => if Ascii.eqb c "."%char then digits rest whole O else (whole, O, cs)
    | [] => (whole, O, cs)
    end in
  match cs with
  | _ :: _ => Raise (ValueError "could not convert string to float")
  | [] =>
      if Nat.eqb (nw + nf) 0
      then Raise (ValueError "could not convert string to float")
      else
        let q := (inject_Z num / inject_Z (10 ^ Z.of_nat nf))%Q in
        Ok (Qred (if neg then - q else q))%Q
  end.

End Comparator.
Import Comparator.

(* ===================================================================== *)
(** * The rest of the token manager                                      *)
(* ===================================================================== *)

(** ** Choice of the API host *)

Module Hosts.

Definition production_host : string := "https://api.amadeus.com".

Definition test_host : string := "https://test.api.amadeus.com".

(** [str.lower()], on ASCII text. *)
Definition lower_char (c : ascii) : ascii :=
  let n := nat_of_ascii c in
  if (65 <=? n)%nat && (n <=? 90)%nat then ascii_of_nat (n + 32) else c.

Fixpoint lower (s : string) : string :=
  match s with
  | EmptyString => EmptyString
  | String c rest => String (lower_char c) (lower rest)
  end.

(** [os.environ.get("AMADEUS_ENV", "test")] *)
Definition env_or_test (amadeus_env : option string) : string :=
  match amadeus_env with
  | Some v => v
  | None => "test"
  end.

(** auth.py, [get_base_url]: the host of the token exchange and of the
    dispatcher. *)
Definition get_base_url (amadeus_env : option string) : string :=
  let env := lower (env_or_test amadeus_env) in
  if String.eqb env "production" then production_host else test_host.

(** airlines.py (and the other status-returning scripts), [base_url]: the
    host of the call that presents the token. *)
Definition lookup_base_url (amadeus_env : option string) : string :=
  let env := env_or_test amadeus_env in
  if String.eqb env "production" then production_host else test_host.

End Hosts.

(** ** The token manager of amadeus-experiences/scripts/auth.py *)

Module Experiences.

Definition get_credentials (e : env) : result (string * string) :=
  match api_key e, api_secret e with
  | Some k, Some s =>
      if nonempty (api_key e) && nonempty (api_secret e)
      then Ok (k, s)
      else Raise (EnvironmentError "Missing AMADEUS_API_KEY and AMADEUS_API_SECRET")
  | _, _ => Raise (EnvironmentError "Missing AMADEUS_API_KEY and AMADEUS_API_SECRET")
  end.

Definition fetch_new_token (now : Q) (e : env) (w : world)
  : result json * world :=
  let w := emit FetchNewToken w in
  match get_credentials e with
  | Raise x => (Raise x, w)
  | Ok _ =>
      let w := emit PostToken w in
      match oauth_reply e with
      | Unreachable m => (Raise (ConnectionError m), w)
      | Response status text decoded =>
          let built :=
            _ <- raise_for_status status text ;;
            data <- response_json decoded ;;
            expires_in <- get data "expires_in" (JNum 1799) ;;
            access <- subscript data "access_token" ;;
            dt <- as_number expires_in ;;
            Ok (JObj [("access_token", access);
                      ("expires_at", JNum (now + dt))]) in
          match built with
          | Raise x => (Raise x, w)
          | Ok token_data => (Ok token_data, Auth.save_token token_data w)
          end
      end
  end.

Definition get_token (now : Q) (e : env) (w : world) : result json * world :=
  match AuthExperiences.load_cached_token now (token_file w) with
  | Raise x => (Raise x, w)
  | Ok cached =>
      match cached with
      | Some data =>
          if truthy data then (subscript data "access_token", w)
          else
            let '(r, w') := fetch_new_token now e w in
            (token_data <- r ;; subscript token_data "access_token", w')
      | None =>
          let '(r, w') := fetch_new_token now e w in
          (token_data <- r ;; subscript token_data "access_token", w')
      end
  end.

End Experiences.

(* ===================================================================== *)
(** * The other dispatchers                                              *)
(* ===================================================================== *)

(** amadeus-flights/scripts/price.py, [make_request]. *)
Module Price.
Import Dispatcher.

Definition auth_failed : exn := EnvironmentError "Authentication failed.".

Definition max_retries : exn := Exception_ "Max retries exceeded".

Fixpoint attempts (srv : server) (attempt remaining : nat)
  : list event * result json :=
  match remaining with
  | O => ([], Raise max_retries)
  | S k =>
      match srv attempt with
      | Unreachable m => ([Send attempt], Raise (ConnectionError m))
      | Response status text decoded =>
          if status =? 429 then
            let wait := 2 ^ Z.of_nat attempt in
            let '(tr, r) := attempts srv (S attempt) k in
            (Send attempt :: Sleep wait :: tr, r)
          else if status =? 401 then
            ([Send attempt], Raise auth_failed)
          else if status =? 400 then
            ([Send attempt], bad_request text decoded)
          else
            ([Send attempt],
             _ <- raise_for_status status text ;; response_json decoded)
      end
  end.

Definition make_request (headers : result json) (srv : server) (retries : nat)
  : list event * result json :=
  match headers with
  | Raise e => ([], Raise e)
  | Ok _ => attempts srv 0 retries
  end.

End Price.

(** amadeus-flights/scripts/airports.py, [make_request]. *)
Module Airports.
Import Dispatcher.

Fixpoint attempts (srv : server) (attempt remaining : nat)
  : list event * result json :=
  match remaining with
  | O => ([], Raise Price.max_retries)
  | S k =>
      match srv attempt with
      | Unreachable m => ([Send attempt], Raise (ConnectionError m))
      | Response status text decoded =>
          if status =? 429 then
            let wait := 2 ^ Z.of_nat attempt in
            let '(tr, r) := attempts srv (S attempt) k in
            (Send attempt :: Sleep wait :: tr, r)
          else if status =? 401 then
            ([Send attempt], Raise Price.auth_failed)
          else
            ([Send attempt],
             _ <- raise_for_status status text ;; response_json decoded)
      end
  end.

Definition make_request (headers : result json) (srv : server) (retries : nat)
  : list event * result json :=
  match headers with
  | Raise e => ([], Raise e)
  | Ok _ => attempts srv 0 retries
  end.

End Airports.

(** ** Vocabulary for the statements about the dispatchers *)

Module Traces.
Import Dispatcher.

(** Seconds slept in a trace. *)
Definition total_sleep (tr : list event) : Z :=
  fold_right Z.add 0 (sleeps tr).

(** The outcome of search.py's dispatcher, in the words of price.py. *)
Definition as_price (r : result json) : result json :=
  match r with
  | Raise (EnvironmentError _) => Raise Price.auth_failed
  | Raise (Exception_ _) => Raise Price.max_retries
  | other => other
  end.

(** A trace is a run of [Send a; Sleep (2^a)] pairs for consecutive
    attempts, ended by nothing or by one more [Send]. *)
Fixpoint well_formed (from : nat) (tr : list event) : Prop :=
  match tr with
  | [] => True
  | [Send a] => a = from
  | Send a :: Sleep s :: rest =>
      a = from /\ s = 2 ^ Z.of_nat from /\ well_formed (S from) rest
  | _ => False
  end.

End Traces.

(* ===================================================================== *)
(** * Vocabulary for the calendar                                        *)
(* ===================================================================== *)

Module CalendarSpec.

(** The last step of [ord2ymd]: month and day of the [n]-th day of a year,
    counted from 0. *)
Definition month_day (leapyear : bool) (n : Z) : Z * Z :=
  let month := Z.shiftr (n + 50) 5 in
  let preceding :=
    nth (Z.to_nat month) DAYS_BEFORE_MONTH 0
    + (if (month >? 2) && leapyear then 1 else 0) in
  if preceding >? n then
    let month := month - 1 in
    let preceding :=
      preceding - (nth (Z.to_nat month) DAYS_IN_MONTH 0
                   + (if (month =? 2) && leapyear then 1 else 0)) in
    (month, n - preceding + 1)
  else (month, n - preceding + 1).

(** Length of a month and days before it, by leap flag. *)
Definition month_length (leapyear : bool) (month : Z) : Z :=
  if (month =? 2) && leapyear then 29
  else nth (Z.to_nat month) DAYS_IN_MONTH 0.

Definition month_offset (leapyear : bool) (month : Z) : Z :=
  nth (Z.to_nat month) DAYS_BEFORE_MONTH 0
  + (if (month >? 2) && leapyear then 1 else 0).

(** [month_day] inverts [month_offset] on day [n] of the year. *)
Definition month_day_ok (leapyear : bool) (n : Z) : bool :=
  let '(m, d) := month_day leapyear n in
  (1 <=? m) && (m <=? 12) && (1 <=? d) && (d <=? month_length leapyear m)
  && (month_offset leapyear m + d =? n + 1).

(** [f] holds on [count] consecutive integers from [n] on. *)
Fixpoint all_from (f : Z -> bool) (n : Z) (count : nat) : bool :=
  match count with
  | O => true
  | S k => f n && all_from f (n + 1) k
  end.

(** A date the calendar has. *)
Definition valid_date (y m d : Z) : Prop :=
  1 <= y <= 9999 /\ 1 <= m <= 12 /\ 1 <= d <= days_in_month y m.

(** The first day whose year is written with four digits on every
    platform: 1000-01-01. *)
Definition FIRST_PORTABLE : Z := 364878.

End CalendarSpec.
Import CalendarSpec.

(* ===================================================================== *)
(** * Vocabulary for the ranking                                         *)
(* ===================================================================== *)

Module Ranking.

(** No entry without a price comes before an entry with one. *)
Definition priced_first (x y : entry) : Prop :=
  has_price y = true -> has_price x = true.

(** Two sort keys neither of which is smaller than the other. *)
Definition same_key (a b : bool * ext) : bool :=
  negb (key_lt a b) && negb (key_lt b a).

(** The entries of a list that rank with the key [k], in their order. *)
Definition ranked_with (k : bool * ext) (l : list entry) : list entry :=
  filter (fun x => same_key k (sort_key x)) l.

End Ranking.
Import Ranking.

(* ===================================================================== *)
(** * Durations (amadeus-flights/scripts/search.py)                      *)
(* ===================================================================== *)

(** The [str] methods the formatter uses, on lists of characters. *)
Module PyStr.

(** [s.startswith(p)] *)
Fixpoint prefix (p s : list ascii) : bool :=
  match p, s with
  | [], _ => true
  | a :: p', b :: s' => Ascii.eqb a b && prefix p' s'
  | _ :: _, [] => false
  end.

(** [sub in s] *)
Fixpoint contains (sub s : list ascii) : bool :=
  prefix sub s
  || match s with
     | [] => false
     | _ :: rest => contains sub rest
     end.

(** [s.replace(old, new)] for a non-empty [old]: the occurrences are
    replaced from left to right and do not overlap.  [skip] counts the
    characters of the occurrence just found that are still to be passed. *)
Fixpoint replace_from (old new : list ascii) (skip : nat) (s : list ascii)
  : list ascii :=
  match s with
  | [] => []
  | c :: rest =>
      match skip with
      | S k => replace_from old new k rest
      | O =>
          if prefix old s
          then new ++ replace_from old new (List.length old - 1) rest
          else c :: replace_from old new 0 rest
      end
  end.

Definition replace (old new s : list ascii) : list ascii :=
  match old with
  | [] => new ++ flat_map (fun c => c :: new) s
  | _ :: _ => replace_from old new 0 s
  end.

(** [s.split(sep)] for a non-empty [sep]; [cur] is the piece being read. *)
Fixpoint split_from (sep : list ascii) (skip : nat) (cur s : list ascii)
  : list (list ascii) :=
  match s with
  | [] => [cur]
  | c :: rest =>
      match skip with
      | S k => split_from sep k cur rest
      | O =>
          if prefix sep s
          then cur :: split_from sep (List.length sep - 1) [] rest
          else split_from sep 0 (cur ++ [c]) rest
      end
  end.

Definition split (sep s : list ascii) : result (list (list ascii)) :=
  match sep with
  | [] => Raise (ValueError "empty separator")
  | _ :: _ => Ok (split_from sep 0 [] s)
  end.

(** Whitespace, as [str.strip()] sees it in ASCII text. *)
Definition is_space (c : ascii) : bool :=
  let n := nat_of_ascii c in
  ((9 <=? n) && (n <=? 13) || (28 <=? n) && (n <=? 32))%nat.

Fixpoint lstrip (s : list ascii) : list ascii :=
  match s with
  | c :: rest => if is_space c then lstrip rest else s
  | [] => []
  end.

(** [s.strip()] *)
Definition strip (s : list ascii) : list ascii :=
  rev (lstrip (rev (lstrip s))).

End PyStr.

Module Durations.
Import PyStr.

Definition chars (s : string) : list ascii := list_ascii_of_string s.

(** [hours, duration = duration.split("H")] *)
Definition unpack2 (pieces : list (list ascii))
  : result (list ascii * list ascii) :=
  match pieces with
  | [a; b] => Ok (a, b)
  | _ :: _ :: _ :: _ =>
      Raise (ValueError "too many values to unpack (expected 2)")
  | [_] => Raise (ValueError "not enough values to unpack (expected 2, got 1)")
  | [] => Raise (ValueError "not enough values to unpack (expected 2, got 0)")
  end.

Definition format_duration (iso_duration : string) : result string :=
  let duration := replace (chars "PT") [] (chars iso_duration) in
  step <- (if contains (chars "H") duration
           then
             pieces <- split (chars "H") duration ;;
             parts <- unpack2 pieces ;;
             Ok (fst parts ++ chars "h ", snd parts)%list
           else Ok ([], duration)) ;;
  let '(result, duration) := step in
  let result :=
    if contains (chars "M") duration
    then (result ++ replace (chars "M") [] duration ++ chars "m")%list
    else result in
  Ok (string_of_list_ascii (strip result)).

(** Text without the letters the formatter looks for and without
    whitespace: digits, for one. *)
Definition plain_char (c : ascii) : bool :=
  negb (Ascii.eqb "P" c) && negb (Ascii.eqb "H" c) && negb (Ascii.eqb "M" c)
  && negb (is_space c).

Definition plain (s : string) : Prop :=
  forallb plain_char (chars s) = true.

(** Number of times a character occurs. *)
Definition occurrences (c : ascii) (s : string) : nat :=
  List.length (filter (Ascii.eqb c) (chars s)).

End Durations.

(* ===================================================================== *)
(** * A comparison run over the dispatcher                               *)
(* ===================================================================== *)

(** [compare_dates] with its searches spelled out: each call of
    [search_flights] goes through [make_request], and the requests and sleeps
    of the whole run are collected. *)
Module Batch.
Import Dispatcher.

(** search.py, [search_flights]: the parameters are built and the outcome of
    [make_request] is returned as it is. *)
Definition search_flights (headers : result json) (srv : server)
  : list event * result json :=
  make_request headers srv default_retries.

(** The [for] loop of [compare_dates]; the [i]-th call of [search_flights]
    talks to the server [srvs i]. *)
Fixpoint collect (float_of_str : string -> result Q) (headers : result json)
         (srvs : nat -> server) (return_after_days : option Z)
         (currency : string) (i : nat) (dates : list string)
         (acc : list entry) (tr : list event)
  : result (list entry) * list event :=
  match dates with
  | [] => (Ok acc, tr)
  | departure :: rest =>
      match return_date_for return_after_days departure with
      | Raise e => (Raise e, tr)
      | Ok ret =>
          let '(t, found) := search_flights headers (srvs i) in
          collect float_of_str headers srvs return_after_days currency (S i)
            rest
            (acc ++ [check float_of_str found currency departure ret])
            (tr ++ t)
      end
  end.

Definition compare_dates (float_of_str : string -> result Q)
           (headers : result json) (srvs : nat -> server)
           (origin destination : string) (dates : list string)
           (return_after_days : option Z) (currency : string)
  : result comparison * list event :=
  let '(collected, tr) :=
    collect float_of_str headers srvs return_after_days currency 0 dates [] [] in
  (made <- collected ;;
   let sorted := sort_results made in
   Ok {| origin := origin; destination := destination; results := sorted;
         cheapest := match sorted with
                     | first :: _ =>
                         if price_truthy first then Some first else None
                     | [] => None
                     end |},
   tr).

(** The searcher the servers amount to. *)
Definition searcher_of (headers : result json) (srvs : nat -> server)
  : searcher :=
  fun i _ _ => snd (search_flights headers (srvs i)).

(** compare_dates.py, [main]: [[d.strip() for d in args.dates.split(",")]] *)
Definition dates_of_argument (dates : string) : result (list string) :=
  pieces <- PyStr.split (Durations.chars ",") (Durations.chars dates) ;;
  Ok (map (fun d => string_of_list_ascii (PyStr.strip d)) pieces).

End Batch.

(* ===================================================================== *)
(** * Sample inputs                                                      *)
(* ===================================================================== *)

Module Samples.

Definition token_json (tok : string) (exp : Q) : json :=
  JObj [("access_token", JStr tok); ("token_type", JStr "Bearer");
        ("expires_in", JNum 1799); ("expires_at", JNum exp)].

Definition cached_world : world :=
  {| token_file := Json (token_json "abc123" 2000); log := [] |}.

Definition some_env : env :=
  {| api_key := Some "key"; api_secret := Some "secret";
     oauth_reply :=
       Response 200 "{...}"
         (Some (JObj [("access_token", JStr "fresh"); ("expires_in", JNum 1799)])) |}.

Definition headers : json := JObj [("Authorization", JStr "Bearer abc123")].

(** A server that answers every attempt the same way. *)
Definition always (r : reply) : Dispatcher.server := fun _ => r.

Definition too_many_requests : reply := Response 429 "Too Many Requests" None.

Definition unauthorized : reply := Response 401 "Unauthorized" None.

Definition server_error : reply :=
  Response 500 "Internal Server Error"
    (Some (JObj [("errors", JArr [JObj [("status", JNum 500)]])])).

Definition empty_errors : reply :=
  Response 400 "{ errors: [] }" (Some (JObj [("errors", JArr [])])).

Definition invalid_date : reply :=
  Response 400 "{...}"
    (Some (JObj [("errors",
                  JArr [JObj [("status", JNum 400);
                              ("detail", JStr "Invalid date")]])])).


(** Flight-offer payloads. *)
Definition itinerary : json :=
  JObj [("segments", JArr [JObj [("carrierCode", JStr "BA")]])].

Definition offer (total : string) : json :=
  JObj [("price", JObj [("currency", JStr "GBP"); ("total", JStr total)]);
        ("itineraries", JArr [itinerary])].

(** An offer without a ["price"] member. *)
Definition unpriced_offer : json := JObj [("itineraries", JArr [itinerary])].

Definition offers (l : list json) : json :=
  JObj [("data", JArr l);
        ("dictionaries",
         JObj [("carriers", JObj [("BA", JStr "BRITISH AIRWAYS")])])].

Definition found (total : string) : result json := Ok (offers [offer total]).

Definition nothing_found : result json := Ok (offers []).

(** The searches of the ranking example: 120, none, 95, none, 200. *)
Definition ranking_search : Comparator.searcher := fun i _ _ =>
  match i with
  | 0%nat => found "120.00"
  | 1%nat => nothing_found
  | 2%nat => found "95.00"
  | 3%nat => Raise (ConnectionError "timed out")
  | _ => found "200.00"
  end.

Definition five_dates : list string :=
  ["2026-03-15"; "2026-03-16"; "2026-03-17"; "2026-03-18"; "2026-03-19"].

(** The first date has an offer without a price, the second one costs 120. *)
Definition unpriced_search : Comparator.searcher := fun i _ _ =>
  match i with
  | 0%nat => Ok (offers [unpriced_offer])
  | _ => found "120.00"
  end.

(** Two entries of a one-way comparison. *)
Definition paid_entry : Comparator.entry :=
  {| Comparator.departure_date := "2026-03-16";
     Comparator.return_date := None;
     Comparator.price := Some 120%Q;
     Comparator.currency := JStr "GBP";
     Comparator.stops := Some 0;
     Comparator.carrier := Some (JStr "BRITISH AIRWAYS");
     Comparator.carrier_code := Some (JStr "BA");
     Comparator.offers_found := 1;
     Comparator.error := None |}.

Definition free_entry : Comparator.entry :=
  {| Comparator.departure_date := "2026-03-15";
     Comparator.return_date := None;
     Comparator.price := Some 0%Q;
     Comparator.currency := JStr "GBP";
     Comparator.stops := Some 0;
     Comparator.carrier := Some (JStr "BRITISH AIRWAYS");
     Comparator.carrier_code := Some (JStr "BA");
     Comparator.offers_found := 1;
     Comparator.error := None |}.

(** Worlds and environments for the token manager. *)
Definition no_cache_world : world := {| token_file := NoFile; log := [] |}.

Definition array_world : world := {| token_file := Json (JArr []); log := [] |}.

Definition tokenless_world : world :=
  {| token_file := Json (JObj [("expires_at", JNum 2000)]); log := [] |}.

Definition keyless_env : env :=
  {| api_key := None; api_secret := Some "secret";
     oauth_reply := Unreachable "not reached" |}.

Definition rejecting_env : env :=
  {| api_key := Some "key"; api_secret := Some "wrong";
     oauth_reply := Response 401 "invalid_client" None |}.

(** What the exchange of [some_env] at time 1000 leaves behind. *)
Definition fresh_record : json :=
  JObj [("access_token", JStr "fresh"); ("token_type", JStr "Bearer");
        ("expires_in", JNum 1799); ("expires_at", JNum (1000 + 1799))].

Definition fresh_world : world :=
  {| token_file := Json fresh_record; log := [FetchNewToken; PostToken] |}.

(** An offer with a price and nothing else, in a payload without
    dictionaries. *)
Definition bare_offer : json := JObj [("price", JObj [("total", JStr "80.00")])].

Definition bare_payload : json := JObj [("data", JArr [bare_offer])].

End Samples.

(* ===================================================================== *)
(** * Properties of the token cache and the token manager                *)
(* ===================================================================== *)

Section PyFacts.

Lemma Qgtb_true a b : Qgtb a b = true <-> (b < a)%Q.
Proof.
  unfold Qgtb. rewrite negb_true_iff. split.
  - intro H. apply Qnot_le_lt. intro L.
    apply Qle_bool_iff in L. congruence.
  - intro H. destruct (Qle_bool a b) eqn:E; [|reflexivity].
    apply Qle_bool_iff in E. exfalso. now apply (Qlt_not_le b a).
Qed.

Lemma Qgtb_false a b : Qgtb a b = false <-> (a <= b)%Q.
Proof. unfold Qgtb. rewrite negb_false_iff. apply Qle_bool_iff. Qed.

Lemma subscript_truthy d k v : subscript d k = Ok v -> truthy d = true.
Proof.
  destruct d; simpl; try discriminate.
  destruct members; simpl; [discriminate | reflexivity].
Qed.

End PyFacts.

Module AuthFacts.
Import Auth.

Lemma performed_refl w : performed w w = [].
Proof. unfold performed. apply skipn_all. Qed.

Lemma performed_app w w' evs :
  log w' = (log w ++ evs)%list -> performed w w' = evs.
Proof.
  unfold performed. intros ->.
  rewrite skipn_app, skipn_all, Nat.sub_diag. reflexivity.
Qed.

(** Whatever [load_cached_token] returns is the decoded file itself. *)
Lemma load_returns_file now f data :
  load_cached_token now f = Ok (Some data) -> f = Json data.
Proof.
  destruct f as [| |v]; simpl; try discriminate.
  unfold read_valid; simpl.
  destruct (get v "expires_at" (JNum 0)) as [x|x]; simpl.
  - destruct (as_number x) as [n|y]; simpl.
    + destruct (Qgtb n (now + 60)); simpl; congruence.
    + destruct (caught y); discriminate.
  - destruct (caught x); discriminate.
Qed.

(** On a well-formed record the validity test is the comparison with the
    60 second buffer. *)
Lemma load_record now m tok exp :
  lookup "access_token" m = Some (JStr tok) ->
  lookup "expires_at" m = Some (JNum exp) ->
  load_cached_token now (Json (JObj m))
  = Ok (if Qgtb exp (now + 60) then Some (JObj m) else None).
Proof.
  intros _ Hexp. simpl. unfold read_valid. simpl. rewrite Hexp. simpl.
  destruct (Qgtb exp (now + 60)); reflexivity.
Qed.

(** [fetch_new_token] logs its entry and at most one POST, and a token it
    returns is the one it saved. *)
Lemma fetch_new_token_log now e w r w' :
  fetch_new_token now e w = (r, w') ->
  (log w' = (log w ++ [FetchNewToken])%list
   \/ log w' = (log w ++ [FetchNewToken; PostToken])%list)
  /\ (forall t, r = Ok t ->
        token_file w' = Json t /\ exists a, subscript t "access_token" = Ok a).
Proof.
  unfold fetch_new_token.
  destruct (get_credentials e) as [c|x].
  2:{ intros [= <- <-]. split; [left; reflexivity | discriminate]. }
  assert (L : forall v, log (emit PostToken (emit FetchNewToken v))
                        = (log v ++ [FetchNewToken; PostToken])%list).
  { intro v. simpl. now rewrite <- app_assoc. }
  destruct (oauth_reply e) as [status text decoded|msg].
  2:{ intros [= <- <-]. split; [right; apply L | discriminate]. }
  destruct (status =? 401).
  { intros [= <- <-]. split; [right; apply L | discriminate]. }
  match goal with |- context [match ?b with Ok _ => _ | Raise _ => _ end] =>
    destruct b as [td|x] eqn:B end.
  2:{ intros [= <- <-]. split; [right; apply L | discriminate]. }
  intros [= <- <-]. split; [right; apply L |].
  intros t [= <-]. split; [reflexivity |].
  destruct (raise_for_status status text); simpl in B; [|discriminate].
  destruct (response_json decoded); simpl in B; [|discriminate].
  destruct (get a0 "expires_in" (JNum 1799)); simpl in B; [|discriminate].
  destruct (subscript a0 "access_token") as [acc|]; simpl in B; [|discriminate].
  destruct (get a0 "token_type" (JStr "Bearer")); simpl in B; [|discriminate].
  destruct (as_number a1); simpl in B; [|discriminate].
  injection B as <-. exists acc. reflexivity.
Qed.

End AuthFacts.

Module TokenManager.
Import Auth AuthFacts.

(** A call that finds nothing to serve goes through [fetch_new_token]. *)
Lemma get_token_miss now e w :
  load_cached_token now (token_file w) = Ok None ->
  exists r w',
    fetch_new_token now e w = (r, w')
    /\ get_token now e w = (token_data <- r ;; subscript token_data "access_token", w').
Proof.
  intro L. unfold get_token. rewrite L.
  destruct (fetch_new_token now e w) as [r w'].
  exists r, w'. split; reflexivity.
Qed.

Lemma get_token_hit now e w m tok :
  load_cached_token now (token_file w) = Ok (Some (JObj m)) ->
  lookup "access_token" m = Some (JStr tok) ->
  get_token now e w = (Ok (JStr tok), w).
Proof.
  intros L A. unfold get_token. rewrite L.
  assert (S : subscript (JObj m) "access_token" = Ok (JStr tok))
    by (simpl; now rewrite A).
  rewrite (subscript_truthy _ _ _ S), S. reflexivity.
Qed.

Lemma exchanges_fetch now e w r w' :
  fetch_new_token now e w = (r, w') ->
  In FetchNewToken (performed w w')
  /\ (exchanges (performed w w') <= 1)%nat
  /\ ((exists k, get_credentials e = Ok k) -> exchanges (performed w w') = 1%nat).
Proof.
  intro F. pose proof (fetch_new_token_log _ _ _ _ _ F) as [[L|L] _];
    rewrite (performed_app _ _ _ L); unfold exchanges; simpl.
  - split; [now left|]. split; [lia|].
    intros [k K]. unfold fetch_new_token in F. rewrite K in F.
    exfalso.
    assert (P : log w' = (log w ++ [FetchNewToken; PostToken])%list).
    { destruct (oauth_reply e) as [status text decoded|msg].
      - destruct (status =? 401).
        + injection F as _ <-. simpl. now rewrite <- app_assoc.
        + match type of F with context [match ?b with Ok _ => _ | Raise _ => _ end] =>
            destruct b end; injection F as _ <-; simpl; now rewrite <- app_assoc.
      - injection F as _ <-. simpl. now rewrite <- app_assoc. }
    rewrite L in P. apply app_inv_head in P. discriminate.
  - split; [now left|]. split; [|intros _]; lia.
Qed.

(** C1.  For a cache file that is absent or holds a token record,
    [get_token] enters [fetch_new_token] (and, with credentials present,
    performs the token exchange) if and only if the record is absent or its
    [expires_at] is at most [now + 60]; when [expires_at > now + 60] it
    returns the cached [access_token] and leaves the world untouched.  A call
    performs at most one exchange, and a second call made while the cache is
    still valid returns the identical token without touching the world. *)
Theorem get_token_cache_validity :
  forall (now : Q) (e : env) (w : world) (c : option (string * Q)),
    cached_record (token_file w) c ->
    let out := get_token now e w in
    (In FetchNewToken (performed w (snd out)) <-> stale now c)
    /\ ((exists k, get_credentials e = Ok k) ->
        (exchanges (performed w (snd out)) = 1%nat <-> stale now c))
    /\ (forall tok exp, c = Some (tok, exp) -> (now + 60 < exp)%Q ->
          out = (Ok (JStr tok), w))
    /\ (exchanges (performed w (snd out)) <= 1)%nat
    /\ (forall now2 e2 t,
          fst out = Ok t -> valid_at now2 (token_file (snd out)) ->
          get_token now2 e2 (snd out) = (Ok t, snd out)).
Proof.
  intros now e w c C out.
  (* the second call, whatever the first one did *)
  assert (Again : forall now2 e2 t,
             fst out = Ok t -> valid_at now2 (token_file (snd out)) ->
             get_token now2 e2 (snd out) = (Ok t, snd out)).
  { intros now2 e2 t O [data V].
    pose proof (load_returns_file _ _ _ V) as Hfile.
    assert (S : subscript data "access_token" = Ok t).
    { subst out. unfold get_token in O, Hfile.
      destruct (load_cached_token now (token_file w)) as [[d|]|x] eqn:L;
        simpl in O; try discriminate.
      - destruct (truthy d).
        + simpl in O, Hfile. apply load_returns_file in L.
          rewrite L in Hfile. injection Hfile as <-. exact O.
        + destruct (fetch_new_token now e w) as [r w'] eqn:F.
          simpl in O, Hfile.
          destruct (fetch_new_token_log _ _ _ _ _ F) as [_ T].
          destruct r as [td|]; simpl in O; [|discriminate].
          destruct (T td eq_refl) as [T1 _].
          rewrite T1 in Hfile. injection Hfile as <-. exact O.
      - destruct (fetch_new_token now e w) as [r w'] eqn:F.
        simpl in O, Hfile.
        destruct (fetch_new_token_log _ _ _ _ _ F) as [_ T].
        destruct r as [td|]; simpl in O; [|discriminate].
        destruct (T td eq_refl) as [T1 _].
        rewrite T1 in Hfile. injection Hfile as <-. exact O. }
    unfold get_token. rewrite V, (subscript_truthy _ _ _ S), S. reflexivity. }
  inversion C as [F | m tok exp A E F]; subst c.
  - (* no cache file *)
    assert (L : load_cached_token now (token_file w) = Ok None)
      by (rewrite <- F; reflexivity).
    destruct (get_token_miss now e w L) as (r & w' & Hf & Hg).
    destruct (exchanges_fetch _ _ _ _ _ Hf) as (X1 & X2 & X3).
    subst out. rewrite Hg. simpl.
    repeat split; auto; try discriminate.
    rewrite Hg in Again. exact Again.
  - (* a record *)
    pose proof (load_record now m tok exp A E) as L. rewrite F in L.
    destruct (Qgtb exp (now + 60)) eqn:G.
    + apply Qgtb_true in G.
      pose proof (get_token_hit now e w m tok L A) as H.
      subst out. rewrite H. simpl. rewrite performed_refl.
      split; [|split; [|split; [|split]]].
      * split; [intros []|]. simpl. intro S. exfalso.
        now apply (Qlt_not_le _ _ G).
      * intros _. split; [discriminate|]. simpl. intro S. exfalso.
        now apply (Qlt_not_le _ _ G).
      * intros tok' exp' [= <- <-] _. reflexivity.
      * unfold exchanges. simpl. lia.
      * rewrite H in Again. exact Again.
    + apply Qgtb_false in G.
      destruct (get_token_miss now e w L) as (r & w' & Hf & Hg).
      destruct (exchanges_fetch _ _ _ _ _ Hf) as (X1 & X2 & X3).
      subst out. rewrite Hg. simpl.
      split; [|split; [|split; [|split]]].
      * split; auto.
      * intro K. split; auto.
      * intros tok' exp' [= <- <-] S. exfalso. now apply (Qlt_not_le _ _ S).
      * exact X2.
      * rewrite Hg in Again. exact Again.
Qed.

Lemma get_token_cache_validity_witness :
  cached_record (token_file Samples.cached_world) (Some ("abc123", 2000%Q))
  /\ get_token 1000 Samples.some_env Samples.cached_world
     = (Ok (JStr "abc123"), Samples.cached_world).
Proof.
  assert (C : cached_record (token_file Samples.cached_world)
                (Some ("abc123", 2000%Q)))
    by (apply cached_present; reflexivity).
  split; [exact C|].
  destruct (get_token_cache_validity 1000 Samples.some_env
              Samples.cached_world _ C) as (_ & _ & H & _).
  apply (H "abc123" 2000%Q eq_refl). reflexivity.
Defined.

(** A stale record is replaced through one exchange. *)
Example get_token_refreshes_stale :
  get_token 1950 Samples.some_env Samples.cached_world
  = (Ok (JStr "fresh"),
     {| token_file :=
          Json (JObj [("access_token", JStr "fresh");
                      ("token_type", JStr "Bearer");
                      ("expires_in", JNum 1799);
                      ("expires_at", JNum (1950 + 1799))]);
        log := [FetchNewToken; PostToken] |}).
Proof. reflexivity. Qed.

End TokenManager.

(** ** The cache loader on arbitrary file contents *)

Module TokenCache.

(** The copy under the bare [except:] never raises. *)
Lemma experiences_load_never_raises now f :
  exists o, AuthExperiences.load_cached_token now f = Ok o.
Proof.
  destruct f as [| |v]; simpl; eauto.
  unfold try_except. destruct (Auth.read_valid now (Json v)); eauto.
Qed.

(** The flights loader does not raise on a missing file, on text that is
    not JSON, or on an object whose ["expires_at"] is absent or a number. *)
Lemma flights_load_ok_on_objects now f :
  match f with
  | Json (JObj m) =>
      match lookup "expires_at" m with
      | None | Some (JNum _) | Some (JBool _) => True
      | Some _ => False
      end
  | Json _ => False
  | NoFile | NotJson => True
  end ->
  exists o, Auth.load_cached_token now f = Ok o.
Proof.
  destruct f as [| |v]; simpl; eauto.
  destruct v; try contradiction.
  unfold Auth.read_valid. simpl.
  destruct (lookup "expires_at" members) as [[]|]; try contradiction; simpl; intros _.
  - destruct b; simpl; match goal with |- context [Qgtb ?a ?b] =>
      destruct (Qgtb a b) end; simpl; eauto.
  - destruct (Qgtb q (now + 60)); simpl; eauto.
  - destruct (Qgtb 0 (now + 60)); simpl; eauto.
Qed.

(** C9.  The cache loader of amadeus-flights does raise on a cache file
    that holds well-formed JSON which is not an object (the array [[]], for
    one): the call [data.get] raises [AttributeError], which the handler for
    [(json.JSONDecodeError, KeyError)] lets through.  The copy of
    amadeus-experiences treats the same file as no cache. *)
Theorem flights_load_raises_on_non_object :
  forall (now : Q) (v : json),
    is_object v = false ->
    Auth.load_cached_token now (Json v) = Raise AttributeError
    /\ AuthExperiences.load_cached_token now (Json v) = Ok None.
Proof.
  intros now v H. unfold Auth.load_cached_token, AuthExperiences.load_cached_token.
  assert (R : Auth.read_valid now (Json v) = Raise AttributeError).
  { unfold Auth.read_valid. simpl. destruct v; try reflexivity. discriminate H. }
  rewrite R. split; reflexivity.
Qed.

Lemma flights_load_raises_on_non_object_witness :
  is_object (JArr []) = false
  /\ Auth.load_cached_token 1000 (Json (JArr [])) = Raise AttributeError.
Proof.
  assert (H : is_object (JArr []) = false) by reflexivity.
  split; [exact H|].
  exact (proj1 (flights_load_raises_on_non_object 1000 (JArr []) H)).
Defined.

(** Likewise on an object whose ["expires_at"] is not a number. *)
Lemma flights_load_raises_on_null_expiry now :
  Auth.load_cached_token now (Json (JObj [("expires_at", JNull)])) = Raise TypeError.
Proof. reflexivity. Qed.

End TokenCache.

(* ===================================================================== *)
(** * Properties of the request dispatcher                               *)
(* ===================================================================== *)

Module DispatcherFacts.
Import Dispatcher.

Lemma backoff_S from n : backoff from (S n)
  = Send from :: Sleep (2 ^ Z.of_nat from) :: backoff (S from) n.
Proof. reflexivity. Qed.

(** A run of rate-limited attempts is replayed as its backoff trace, and the
    loop goes on with what is left of the budget. *)
Lemma attempts_rate_limited srv n : forall from k,
  (forall j, (from <= j < from + n)%nat -> status_of (srv j) = Some 429) ->
  attempts srv from (n + k)
  = ((backoff from n ++ fst (attempts srv (from + n) k))%list,
     snd (attempts srv (from + n) k)).
Proof.
  induction n as [|n IH]; intros from k H.
  - simpl. rewrite Nat.add_0_r. now destruct (attempts srv from k).
  - assert (H0 : status_of (srv from) = Some 429) by (apply H; lia).
    change (S n + k)%nat with (S (n + k)). cbn [attempts].
    destruct (srv from) as [status text decoded|]; [|discriminate].
    injection H0 as ->. cbn [Z.eqb Pos.eqb].
    rewrite (IH (S from) k) by (intros j Hj; apply H; lia).
    rewrite backoff_S. replace (S from + n)%nat with (from + S n)%nat by lia.
    reflexivity.
Qed.

Lemma attempts_sends srv : forall n from,
  (sends (fst (attempts srv from n)) <= n)%nat.
Proof.
  induction n as [|n IH]; intro from; simpl; [unfold sends; simpl; lia|].
  destruct (srv from) as [status text decoded|]; [|unfold sends; simpl; lia].
  destruct (status =? 429).
  - specialize (IH (S from)). destruct (attempts srv (S from) n) as [tr r].
    unfold sends in *. simpl in *. lia.
  - destruct (status =? 401); [unfold sends; simpl; lia|].
    destruct (status =? 400); unfold sends; simpl; lia.
Qed.

Lemma sends_app a b : sends (a ++ b) = (sends a + sends b)%nat.
Proof. unfold sends. now rewrite filter_app, length_app. Qed.

Lemma sends_backoff n : forall from, sends (backoff from n) = n.
Proof.
  induction n as [|n IH]; intro from; [reflexivity|].
  rewrite backoff_S. unfold sends in *. simpl. now rewrite IH.
Qed.

Lemma sleeps_backoff n : forall from,
  sleeps (backoff from n)
  = map (fun k => 2 ^ (Z.of_nat k - 1)) (seq (S from) n).
Proof.
  induction n as [|n IH]; intro from; [reflexivity|].
  rewrite backoff_S. cbn [sleeps flat_map app seq map].
  f_equal.
  - f_equal. lia.
  - apply IH.
Qed.

(** What the loop does once it reaches attempt [i] after [i] rate-limited
    attempts. *)
Lemma make_request_after_backoff srv hdr retries i :
  (i <= retries)%nat -> rate_limited srv i ->
  make_request (Ok hdr) srv retries
  = ((backoff 0 i ++ fst (attempts srv i (retries - i)))%list,
     snd (attempts srv i (retries - i))).
Proof.
  intros Hi H. unfold make_request.
  replace retries with (i + (retries - i))%nat at 1 by lia.
  rewrite attempts_rate_limited by (intros j Hj; apply H; lia).
  reflexivity.
Qed.

End DispatcherFacts.

Module RequestDispatcher.
Import Dispatcher DispatcherFacts Samples.

(** C2.  When the first [m] attempts of a request are all answered with
    HTTP 429, [make_request] sleeps after each of them, the [k]-th sleep
    (the one before retry [k]) lasting [2^(k-1)] seconds; it never sends
    more than [retries] requests (3 by default); and when all [retries]
    attempts are rate limited it raises the "Max retries exceeded" exception
    instead of returning. *)
Theorem make_request_backoff :
  forall (srv : server) (hdr : json) (retries m : nat),
    (m <= retries)%nat ->
    rate_limited srv m ->
    let out := make_request (Ok hdr) srv retries in
    (exists rest, fst out = (backoff 0 m ++ rest)%list)
    /\ sleeps (backoff 0 m) = map (fun k => 2 ^ (Z.of_nat k - 1)) (seq 1 m)
    /\ (sends (fst out) <= retries)%nat
    /\ (m = retries -> out = (backoff 0 retries, Raise max_retries))
    /\ backoff 0 default_retries
       = [Send 0; Sleep 1; Send 1; Sleep 2; Send 2; Sleep 4].
Proof.
  intros srv hdr retries m Hm H out.
  pose proof (make_request_after_backoff srv hdr retries m Hm H) as E.
  fold out in E.
  split; [|split; [|split; [|split]]].
  - rewrite E. simpl. eauto.
  - apply sleeps_backoff.
  - unfold out, make_request. apply attempts_sends.
  - intros ->. rewrite E, Nat.sub_diag. simpl. now rewrite app_nil_r.
  - reflexivity.
Qed.

Lemma make_request_backoff_witness :
  (3 <= 3)%nat
  /\ rate_limited (always too_many_requests) 3
  /\ make_request (Ok headers) (always too_many_requests) 3
     = ([Send 0; Sleep 1; Send 1; Sleep 2; Send 2; Sleep 4], Raise max_retries).
Proof.
  assert (L : (3 <= 3)%nat) by lia.
  assert (R : rate_limited (always too_many_requests) 3)
    by (intros j _; reflexivity).
  split; [exact L|]. split; [exact R|].
  destruct (make_request_backoff (always too_many_requests) headers 3 3 L R)
    as (_ & _ & _ & H & _).
  exact (H eq_refl).
Defined.

(** C8.  An HTTP 401 answer ends [make_request] at once, whatever is left
    of the retry budget: the request answered with 401 is the last event of
    the trace (no sleep and no further request follow it) and the call
    raises the authentication failure. *)
Theorem make_request_401_no_retry :
  forall (srv : server) (hdr : json) (retries i : nat) text decoded,
    (i < retries)%nat ->
    rate_limited srv i ->
    srv i = Response 401 text decoded ->
    make_request (Ok hdr) srv retries
    = ((backoff 0 i ++ [Send i])%list, Raise auth_failed).
Proof.
  intros srv hdr retries i text decoded Hi H R.
  rewrite (make_request_after_backoff srv hdr retries i) by (lia || assumption).
  destruct (retries - i)%nat as [|k] eqn:K; [lia|].
  simpl. rewrite R. reflexivity.
Qed.

Lemma make_request_401_no_retry_witness :
  (0 < 3)%nat
  /\ rate_limited (always unauthorized) 0
  /\ make_request (Ok headers) (always unauthorized) 3
     = ([Send 0], Raise auth_failed).
Proof.
  assert (L : (0 < 3)%nat) by lia.
  assert (R : rate_limited (always unauthorized) 0) by (intros j Hj; lia).
  split; [exact L|]. split; [exact R|].
  exact (make_request_401_no_retry (always unauthorized) headers 3 0
           "Unauthorized" None L R eq_refl).
Defined.

(** A 401 that comes after rate-limited attempts, with budget left. *)
Example unauthorized_after_backoff :
  make_request (Ok headers)
    (fun a => if Nat.eqb a 1 then unauthorized else too_many_requests) 5
  = ([Send 0; Sleep 1; Send 1], Raise auth_failed).
Proof. reflexivity. Qed.

(** C6, as the code has it.  A status from 400 to 599 other than 429, 401
    and 400 makes [make_request] raise requests' [HTTPError], which carries
    the status code and the raw response text; it is an exception, not a
    returned value.  Any other status that is not one of the three is
    handled like a success: the decoded body is returned.  The typed outcome
    [{error, status}] is what the status-returning callers such as
    [lookup_airlines] produce, for every status other than 200 whose body
    decodes. *)
Theorem make_request_other_status :
  forall (srv : server) (hdr : json) (retries i : nat) status text decoded,
    (i < retries)%nat ->
    rate_limited srv i ->
    srv i = Response status text decoded ->
    status <> 429 -> status <> 401 -> status <> 400 ->
    let out := make_request (Ok hdr) srv retries in
    fst out = (backoff 0 i ++ [Send i])%list
    /\ (400 <= status < 600 -> snd out = Raise (HTTPError status text))
    /\ (~ 400 <= status < 600 -> snd out = response_json decoded)
    /\ (forall body, status <> 200 -> decoded = Some body ->
          Airlines.lookup_airlines (Ok hdr) (srv i)
          = Ok (JObj [("error", body); ("status", JNum (inject_Z status))])).
Proof.
  intros srv hdr retries i status text decoded Hi H R N429 N401 N400 out.
  unfold out.
  rewrite (make_request_after_backoff srv hdr retries i) by (lia || assumption).
  destruct (retries - i)%nat as [|k] eqn:K; [lia|].
  simpl. rewrite R.
  destruct (Z.eqb_spec status 429); [contradiction|].
  destruct (Z.eqb_spec status 401); [contradiction|].
  destruct (Z.eqb_spec status 400); [contradiction|].
  simpl. split; [reflexivity|]. unfold raise_for_status.
  split; [|split].
  - intros [A B]. apply Z.leb_le in A. apply Z.ltb_lt in B.
    now rewrite A, B.
  - intro A. destruct (400 <=? status) eqn:L1; [|reflexivity].
    destruct (status <? 600) eqn:L2; [|reflexivity].
    exfalso. apply A. split; [now apply Z.leb_le | now apply Z.ltb_lt].
  - intros body N200 ->. simpl.
    destruct (Z.eqb_spec status 200); [contradiction|]. reflexivity.
Qed.

Lemma make_request_other_status_witness :
  (0 < 3)%nat
  /\ rate_limited (always server_error) 0
  /\ snd (make_request (Ok headers) (always server_error) 3)
     = Raise (HTTPError 500 "Internal Server Error").
Proof.
  assert (L : (0 < 3)%nat) by lia.
  assert (R : rate_limited (always server_error) 0) by (intros j Hj; lia).
  split; [exact L|]. split; [exact R|].
  assert (N1 : 500 <> 429) by lia.
  assert (N2 : 500 <> 401) by lia.
  assert (N3 : 500 <> 400) by lia.
  destruct (make_request_other_status (always server_error) headers 3 0
              500 "Internal Server Error" _ L R eq_refl N1 N2 N3)
    as (_ & H & _).
  apply H. lia.
Defined.

(** C6 as stated fails: an HTTP 500 answer leaves [make_request] as a
    raised [HTTPError]; no value is returned to the caller. *)
Lemma make_request_500_raises :
  make_request (Ok headers) (always server_error) default_retries
  = ([Send 0], Raise (HTTPError 500 "Internal Server Error"))
  /\ ~ (exists outcome,
          snd (make_request (Ok headers) (always server_error) default_retries)
          = Ok outcome).
Proof.
  split; [reflexivity|]. intros [outcome H]. discriminate H.
Qed.

(** C7, as the code has it.  On an HTTP 400 answer whose body is an error
    envelope, [make_request] raises the "Bad request" [ValueError] whose
    detail is the first structured error detail when the body has one and
    the raw body text otherwise. *)
Theorem make_request_400_detail :
  forall (srv : server) (hdr : json) (retries i : nat) text body,
    (i < retries)%nat ->
    rate_limited srv i ->
    srv i = Response 400 text (Some (JObj body)) ->
    error_envelope body ->
    make_request (Ok hdr) srv retries
    = ((backoff 0 i ++ [Send i])%list,
       Raise (BadRequest match structured_detail body with
                         | Some detail => detail
                         | None => JStr text
                         end)).
Proof.
  intros srv hdr retries i text body Hi H R E.
  rewrite (make_request_after_backoff srv hdr retries i) by (lia || assumption).
  destruct (retries - i)%nat as [|k] eqn:K; [lia|].
  simpl. rewrite R. simpl. f_equal.
  unfold bad_request, error_envelope, structured_detail in *. simpl.
  destruct (lookup "errors" body) as [[| | | |[|[] rest]|]|];
    try contradiction; reflexivity.
Qed.

Lemma make_request_400_detail_witness :
  (0 < 3)%nat
  /\ rate_limited (always invalid_date) 0
  /\ make_request (Ok headers) (always invalid_date) 3
     = ([Send 0], Raise (BadRequest (JStr "Invalid date"))).
Proof.
  assert (L : (0 < 3)%nat) by lia.
  assert (R : rate_limited (always invalid_date) 0) by (intros j Hj; lia).
  split; [exact L|]. split; [exact R|].
  refine (make_request_400_detail (always invalid_date) headers 3 0 _ _
            L R eq_refl _).
  exact I.
Defined.

(** C7 as stated fails: a 400 answer whose ["errors"] array is empty makes
    [make_request] raise [IndexError], which is neither the structured
    detail nor the raw text. *)
Lemma make_request_400_empty_errors :
  make_request (Ok headers) (always empty_errors) default_retries
  = ([Send 0], Raise IndexError)
  /\ ~ (exists detail,
          snd (make_request (Ok headers) (always empty_errors) default_retries)
          = Raise (BadRequest detail)).
Proof.
  split; [reflexivity|]. intros [detail H]. discriminate H.
Qed.

(** A 400 answer whose body is not JSON raises the decoder's error. *)
Example make_request_400_not_json :
  make_request (Ok headers) (always (Response 400 "<html>" None)) default_retries
  = ([Send 0], Raise JSONDecodeError).
Proof. reflexivity. Qed.

End RequestDispatcher.

(* ===================================================================== *)
(** * Properties of the date range generator                             *)
(* ===================================================================== *)

Module CalendarFacts.

Lemma digit_range c x : digit c = Some x -> 0 <= x <= 9.
Proof.
  unfold digit.
  destruct (48 <=? Z.of_nat (nat_of_ascii c)) eqn:A;
    destruct (Z.of_nat (nat_of_ascii c) <=? 57) eqn:B; simpl; try discriminate.
  intros [= <-]. apply Z.leb_le in A, B. lia.
Qed.

Lemma digit_cases c x : digit c = Some x ->
  x = 0 \/ x = 1 \/ x = 2 \/ x = 3 \/ x = 4 \/ x = 5 \/ x = 6 \/ x = 7
  \/ x = 8 \/ x = 9.
Proof. intro H. apply digit_range in H. lia. Qed.

Lemma digit_at_range cs x : digit_at cs = Some x -> 0 <= x <= 9.
Proof. destruct cs; simpl; [discriminate | apply digit_range]. Qed.

Ltac by_digit H :=
  let D := fresh "D" in
  pose proof (digit_cases _ _ H) as D;
  repeat (destruct D as [D|D]); subst; cbv beta iota.

Ltac next_digit :=
  match goal with
  | |- context [digit_at ?r] =>
      let E := fresh "E" in
      let y := fresh "y" in
      destruct (digit_at r) as [y|] eqn:E;
      [apply digit_at_range in E|]
  end.

Ltac close_scan :=
  repeat match goal with
         | |- context [if ?b then _ else _] => destruct b eqn:?
         end;
  try discriminate;
  intros [= <- <-];
  repeat match goal with
         | H : (_ <=? _) = true |- _ => apply Z.leb_le in H
         | H : (_ <=? _) = false |- _ => apply Z.leb_gt in H
         end;
  lia.

#[local] Opaque Z.add Z.mul.

Lemma scan_month_range cs m rest : scan_month cs = Some (m, rest) -> 1 <= m <= 12.
Proof.
  destruct cs as [|c cs]; unfold scan_month; [discriminate|].
  destruct (digit c) as [x|] eqn:Dx; [|discriminate].
  by_digit Dx; try next_digit; close_scan.
Qed.

Lemma scan_day_range cs d rest : scan_day cs = Some (d, rest) -> 1 <= d <= 39.
Proof.
  destruct cs as [|c cs]; unfold scan_day; [discriminate|].
  destruct (is_space c).
  - next_digit; close_scan.
  - destruct (digit c) as [x|] eqn:Dx; [|discriminate].
    by_digit Dx; try next_digit; close_scan.
Qed.

#[local] Transparent Z.add Z.mul.

Lemma days_before_year_nonneg y : 1 <= y -> 0 <= days_before_year y.
Proof.
  intro H. unfold days_before_year. cbv zeta.
  assert (A : (y - 1) / 100 <= (y - 1) / 4).
  { apply Z.div_le_compat_l; lia. }
  assert (B : 0 <= (y - 1) / 400) by (apply Z.div_pos; lia).
  nia.
Qed.

Lemma days_before_month_nonneg y m : 1 <= m <= 12 -> 0 <= days_before_month y m.
Proof.
  intro H. unfold days_before_month.
  assert (C : m = 1 \/ m = 2 \/ m = 3 \/ m = 4 \/ m = 5 \/ m = 6 \/ m = 7
              \/ m = 8 \/ m = 9 \/ m = 10 \/ m = 11 \/ m = 12) by lia.
  repeat (destruct C as [C|C]); subst; simpl;
    destruct (is_leap y); simpl; lia.
Qed.

(** A parsed date is a day of the calendar, numbered from 1. *)
Lemma strptime_positive s o : strptime s = Ok o -> 1 <= o.
Proof.
  unfold strptime, scan.
  destruct (scan_year (list_ascii_of_string s)) as [[y r1]|]; [|discriminate].
  destruct (expect_dash r1) as [r2|]; [|discriminate].
  destruct (scan_month r2) as [[m r3]|] eqn:M; [|discriminate].
  destruct (expect_dash r3) as [r4|]; [|discriminate].
  destruct (scan_day r4) as [[d r5]|] eqn:D; [|discriminate].
  destruct r5; [|discriminate].
  destruct (y <? 1) eqn:Y; [discriminate|].
  destruct (d >? days_in_month y m); [discriminate|].
  intros [= <-]. apply Z.ltb_ge in Y.
  apply scan_month_range in M. apply scan_day_range in D.
  pose proof (days_before_year_nonneg y Y).
  pose proof (days_before_month_nonneg y m M).
  unfold ymd2ord. lia.
Qed.

Lemma weekday_range d : 0 <= weekday d < 7.
Proof. unfold weekday. apply Z.mod_pos_bound. lia. Qed.

Lemma add_one_day c : 1 <= c -> c < MAXORDINAL -> add_days c 1 = Ok (c + 1).
Proof.
  intros L U. unfold add_days. simpl.
  destruct (Z.ltb_spec 0 (c + 1)); [|lia].
  destruct (Z.leb_spec (c + 1) MAXORDINAL); [|lia]. reflexivity.
Qed.

Lemma add_one_day_overflow : add_days MAXORDINAL 1 = Raise OverflowError.
Proof. reflexivity. Qed.

End CalendarFacts.

Module DateRangeFacts.
Import CalendarFacts.

(** One turn of the [while] loop. *)
Lemma date_loop_step wk wd e c ds :
  date_loop wk wd e c ds
  = if c <=? e then
      match add_days c 1 with
      | Raise x => Raise x
      | Ok next =>
          date_loop wk wd e next
            (if keeps wk wd c then ds ++ [format_date c] else ds)%list
      end
    else Ok ds.
Proof.
  rewrite date_loop_equation_1.
  destruct (Z_le_gt_dec c e) as [L|G]; simpl.
  - destruct (Z.leb_spec c e); [|lia].
    destruct (add_days c 1); reflexivity.
  - destruct (Z.leb_spec c e); [lia|]. reflexivity.
Qed.

Lemma days_between_empty c e : e < c -> days_between c e = [].
Proof.
  intro H. unfold days_between.
  replace (Z.to_nat (e - c + 1)) with O by lia. reflexivity.
Qed.

Lemma days_between_cons c e :
  c <= e -> days_between c e = c :: days_between (c + 1) e.
Proof.
  intro H. unfold days_between.
  replace (Z.to_nat (e - c + 1)) with (S (Z.to_nat (e - (c + 1) + 1))) by lia.
  cbn [seq map]. f_equal; [lia|].
  rewrite <- seq_shift, map_map. apply map_ext. intro i. lia.
Qed.

Lemma days_between_In c e d : In d (days_between c e) <-> c <= d <= e.
Proof.
  unfold days_between. rewrite in_map_iff. split.
  - intros (i & <- & Hi). apply in_seq in Hi. lia.
  - intro H. exists (Z.to_nat (d - c)). split; [lia|]. apply in_seq. lia.
Qed.

Lemma days_between_sorted c e : StronglySorted Z.lt (days_between c e).
Proof.
  remember (Z.to_nat (e + 1 - c)) as n eqn:N.
  revert c N. induction n as [|n IH]; intros c N.
  - rewrite days_between_empty by lia. constructor.
  - rewrite days_between_cons by lia. constructor.
    + apply IH. lia.
    + apply Forall_forall. intros d Hd. apply days_between_In in Hd. lia.
Qed.

(** Below the last day of the calendar the loop returns the kept days of the
    range, appended to what was collected before. *)
Lemma date_loop_range wk wd e : forall n c ds,
  n = Z.to_nat (e + 1 - c) -> 1 <= c -> e < MAXORDINAL ->
  date_loop wk wd e c ds
  = Ok (ds ++ map format_date (filter (keeps wk wd) (days_between c e)))%list.
Proof.
  induction n as [|n IH]; intros c ds N L U; rewrite date_loop_step.
  - destruct (Z.leb_spec c e); [lia|].
    rewrite days_between_empty by lia. simpl. now rewrite app_nil_r.
  - destruct (Z.leb_spec c e); [|lia].
    rewrite add_one_day by lia.
    rewrite (IH (c + 1)) by lia.
    rewrite (days_between_cons c e) by lia. cbn [filter].
    destruct (keeps wk wd c); [|reflexivity].
    cbn [map]. now rewrite <- app_assoc.
Qed.

(** When the range reaches the last day of the calendar the loop ends in
    the overflow of [current += timedelta(days=1)]. *)
Lemma date_loop_overflow wk wd e : forall n c ds,
  n = Z.to_nat (MAXORDINAL - c) -> 1 <= c <= e -> MAXORDINAL <= e ->
  date_loop wk wd e c ds = Raise OverflowError.
Proof.
  induction n as [|n IH]; intros c ds N L U; rewrite date_loop_step;
    (destruct (Z.leb_spec c e); [|lia]).
  - unfold add_days. simpl.
    destruct (Z.leb_spec (c + 1) MAXORDINAL); [lia|].
    now rewrite andb_false_r.
  - rewrite add_one_day by lia. apply IH; lia.
Qed.

(** The loop depends on the two flags only through the test [keeps]. *)
Lemma date_loop_ext wk wd wk' wd' e :
  (forall d, keeps wk wd d = keeps wk' wd' d) ->
  forall n c ds, n = Z.to_nat (e + 1 - c) ->
  date_loop wk wd e c ds = date_loop wk' wd' e c ds.
Proof.
  intro K. induction n as [|n IH]; intros c ds N;
    rewrite (date_loop_step wk wd), (date_loop_step wk' wd').
  - destruct (Z.leb_spec c e); [lia | reflexivity].
  - destruct (Z.leb_spec c e); [|reflexivity].
    destruct (add_days c 1) as [next|x] eqn:A; [|reflexivity].
    assert (next = c + 1).
    { unfold add_days in A. simpl in A.
      destruct ((0 <? c + 1) && (c + 1 <=? MAXORDINAL)); congruence. }
    subst next. rewrite K. apply IH. lia.
Qed.

Lemma keeps_passes f d :
  keeps (weekends_flag f) (weekdays_flag f) d = passes f d.
Proof.
  pose proof (weekday_range d) as R.
  unfold keeps, passes, is_weekend. destruct f; simpl; try reflexivity.
  - destruct (Z.geb_spec (weekday d) 5) as [G|G]; simpl.
    + destruct (Z.eqb_spec (weekday d) 5); [reflexivity|].
      destruct (Z.eqb_spec (weekday d) 6); [reflexivity|]. lia.
    + destruct (Z.eqb_spec (weekday d) 5); [lia|].
      destruct (Z.eqb_spec (weekday d) 6); [lia|]. reflexivity.
  - destruct (Z.ltb_spec (weekday d) 5) as [G|G]; simpl.
    + destruct (Z.leb_spec 0 (weekday d)); [|lia].
      destruct (Z.leb_spec (weekday d) 4); [reflexivity|lia].
    + destruct (Z.leb_spec 0 (weekday d)); [|lia].
      destruct (Z.leb_spec (weekday d) 4); [lia|reflexivity].
Qed.

Lemma keeps_both d : keeps true true d = true.
Proof.
  unfold keeps. simpl.
  destruct (Z.geb_spec (weekday d) 5); [reflexivity|].
  destruct (Z.ltb_spec (weekday d) 5); [reflexivity|lia].
Qed.

Lemma keeps_none d : keeps false false d = true.
Proof. reflexivity. Qed.

Lemma filter_all {A} (p : A -> bool) l :
  (forall x, p x = true) -> filter p l = l.
Proof.
  intro H. induction l as [|x l IH]; simpl; [reflexivity|].
  now rewrite H, IH.
Qed.

End DateRangeFacts.

Module DateRangeGenerator.
Import CalendarFacts DateRangeFacts.

(** C5, as the code has it.  For every start date and every end date before
    9999-12-31, [generate_date_range] returns, in calendar order, exactly
    the days from start to end inclusive that pass the filter: every day
    without a filter, Saturdays and Sundays under weekends-only, Monday to
    Friday under weekdays-only.  For 2026-03-01 to 2026-03-07 under
    weekends-only these are 2026-03-01 and 2026-03-07, in that order. *)
Theorem generate_date_range_filtered :
  forall (start_date end_date : string) (first last : Z) (f : date_filter),
    parse_date start_date = Ok first ->
    parse_date end_date = Ok last ->
    last < MAXORDINAL ->
    generate_date_range start_date end_date (weekends_flag f) (weekdays_flag f)
    = Ok (map format_date (filter (passes f) (days_between first last)))
    /\ (forall d, In d (days_between first last) <-> first <= d <= last)
    /\ StronglySorted Z.lt (days_between first last)
    /\ generate_date_range "2026-03-01" "2026-03-07" true false
       = Ok ["2026-03-01"; "2026-03-07"].
Proof.
  intros start_date end_date first last f S E U.
  split; [|split; [|split]].
  - unfold generate_date_range. rewrite S, E. simpl.
    rewrite (date_loop_range _ _ last (Z.to_nat (last + 1 - first)))
      by (try reflexivity; try assumption;
          apply (strptime_positive start_date); exact S).
    simpl. do 2 f_equal. apply filter_ext. intro d. apply keeps_passes.
  - intro d. apply days_between_In.
  - apply days_between_sorted.
  - vm_compute. reflexivity.
Qed.

Lemma generate_date_range_filtered_witness :
  parse_date "2026-03-01" = Ok 739676
  /\ parse_date "2026-03-07" = Ok 739682
  /\ 739682 < MAXORDINAL
  /\ generate_date_range "2026-03-01" "2026-03-07" false true
     = Ok (map format_date
             (filter (passes WeekdaysOnly) (days_between 739676 739682))).
Proof.
  assert (S : parse_date "2026-03-01" = Ok 739676) by reflexivity.
  assert (E : parse_date "2026-03-07" = Ok 739682) by reflexivity.
  assert (U : 739682 < MAXORDINAL) by reflexivity.
  split; [exact S|]. split; [exact E|]. split; [exact U|].
  exact (proj1 (generate_date_range_filtered _ _ _ _ WeekdaysOnly S E U)).
Defined.

(** C5 as stated fails on the last day of the calendar: after appending
    9999-12-31 the loop adds one day to it, which raises [OverflowError], so
    no list is returned. *)
Lemma generate_date_range_last_day :
  parse_date "9999-12-31" = Ok MAXORDINAL
  /\ generate_date_range "9999-12-31" "9999-12-31" false false
     = Raise OverflowError.
Proof. split; vm_compute; reflexivity. Qed.

(** The overflow occurs for every non-empty range that ends on the last
    day of the calendar, whatever the flags. *)
Lemma generate_date_range_overflow start_date end_date first last wk wd :
  parse_date start_date = Ok first ->
  parse_date end_date = Ok last ->
  first <= last -> MAXORDINAL <= last ->
  generate_date_range start_date end_date wk wd = Raise OverflowError.
Proof.
  intros S E L U. unfold generate_date_range. rewrite S, E. simpl.
  apply (date_loop_overflow _ _ last (Z.to_nat (MAXORDINAL - first)));
    [reflexivity | | assumption].
  split; [apply (strptime_positive start_date); exact S | assumption].
Qed.

(** C10.  For a start date not after the end date, [generate_date_range]
    with both flags set has exactly the outcome it has with both flags
    cleared: the weekend test lets Saturdays and Sundays through, the weekday
    test the other days, so every day of the range passes and the
    combination is not rejected.  The list that is returned holds every day
    of the range (one is returned for every end date before 9999-12-31). *)
Theorem generate_date_range_both_flags :
  forall (start_date end_date : string) (first last : Z),
    parse_date start_date = Ok first ->
    parse_date end_date = Ok last ->
    first <= last ->
    generate_date_range start_date end_date true true
    = generate_date_range start_date end_date false false
    /\ (forall d, first <= d <= last -> keeps true true d = true)
    /\ (last < MAXORDINAL ->
        generate_date_range start_date end_date true true
        = Ok (map format_date (days_between first last)))
    /\ (forall dates,
          generate_date_range start_date end_date true true = Ok dates ->
          dates = map format_date (days_between first last)).
Proof.
  intros start_date end_date first last S E L.
  assert (P : 1 <= first) by (apply (strptime_positive start_date); exact S).
  assert (All : last < MAXORDINAL ->
                generate_date_range start_date end_date true true
                = Ok (map format_date (days_between first last))).
  { intro U. unfold generate_date_range. rewrite S, E. simpl.
    rewrite (date_loop_range _ _ last (Z.to_nat (last + 1 - first)))
      by (reflexivity || assumption).
    simpl. do 2 f_equal. apply filter_all. apply keeps_both. }
  split; [|split; [|split]].
  - unfold generate_date_range. rewrite S, E. simpl.
    apply (date_loop_ext _ _ _ _ last) with (n := Z.to_nat (last + 1 - first));
      [|reflexivity].
    intro d. now rewrite keeps_both, keeps_none.
  - intros d _. apply keeps_both.
  - exact All.
  - intros dates R. destruct (Z.lt_ge_cases last MAXORDINAL) as [U|U].
    + rewrite (All U) in R. now injection R as <-.
    + unfold generate_date_range in R. rewrite S, E in R. simpl in R.
      rewrite (date_loop_overflow _ _ last (Z.to_nat (MAXORDINAL - first)))
        in R by (reflexivity || lia).
      discriminate R.
Qed.

Lemma generate_date_range_both_flags_witness :
  parse_date "2026-03-06" = Ok 739681
  /\ parse_date "2026-03-09" = Ok 739684
  /\ 739681 <= 739684
  /\ generate_date_range "2026-03-06" "2026-03-09" true true
     = Ok ["2026-03-06"; "2026-03-07"; "2026-03-08"; "2026-03-09"].
Proof.
  assert (S : parse_date "2026-03-06" = Ok 739681) by reflexivity.
  assert (E : parse_date "2026-03-09" = Ok 739684) by reflexivity.
  assert (L : 739681 <= 739684) by (vm_compute; discriminate).
  split; [exact S|]. split; [exact E|]. split; [exact L|].
  destruct (generate_date_range_both_flags _ _ _ _ S E L) as (_ & _ & H & _).
  rewrite H by reflexivity. reflexivity.
Defined.

End DateRangeGenerator.

(* ===================================================================== *)
(** * Properties of the price comparator                                 *)
(* ===================================================================== *)

Module ComparatorFacts.

Lemma insert_perm x l : Permutation (insert x l) (x :: l).
Proof.
  induction l as [|y l IH]; simpl; [reflexivity|].
  destruct (key_lt (sort_key y) (sort_key x)); [|reflexivity].
  rewrite IH. apply perm_swap.
Qed.

Lemma sort_results_perm l : Permutation (sort_results l) l.
Proof.
  induction l as [|x l IH]; simpl; [reflexivity|].
  rewrite insert_perm. now constructor.
Qed.

Lemma sort_results_length l : List.length (sort_results l) = List.length l.
Proof. apply Permutation_length, sort_results_perm. Qed.

Lemma key_lt_by_price x y :
  plain_price x -> plain_price y ->
  key_lt (sort_key y) (sort_key x) = true -> by_price y x.
Proof.
  unfold plain_price, has_price, price_truthy, by_price, sort_key, key_lt.
  destruct (price x) as [p|], (price y) as [q|]; simpl; intros Hx Hy;
    try rewrite <- Hx; try rewrite <- Hy; simpl; try discriminate; auto.
  intro H. apply Qgtb_true in H. now apply Qlt_le_weak.
Qed.

Lemma key_ge_by_price x y :
  plain_price x -> plain_price y ->
  key_lt (sort_key y) (sort_key x) = false -> by_price x y.
Proof.
  unfold plain_price, has_price, price_truthy, by_price, sort_key, key_lt.
  destruct (price x) as [p|], (price y) as [q|]; simpl; intros Hx Hy;
    try rewrite <- Hx; try rewrite <- Hy; simpl; try discriminate; auto.
  intro H. now apply Qgtb_false in H.
Qed.

Lemma insert_hd x a l :
  plain_price x -> plain_price a ->
  by_price a x -> HdRel by_price a l -> HdRel by_price a (insert x l).
Proof.
  intros Px Pa Hax H. destruct l as [|y l]; simpl; [now constructor|].
  destruct (key_lt (sort_key y) (sort_key x)); constructor; auto.
  now inversion H.
Qed.

Lemma insert_sorted x l :
  plain_price x -> Forall plain_price l ->
  Sorted by_price l -> Sorted by_price (insert x l).
Proof.
  intros Px Pl S. induction S as [|y l S IH Hd]; simpl.
  - repeat constructor.
  - inversion Pl as [|? ? Py Pl']; subst.
    destruct (key_lt (sort_key y) (sort_key x)) eqn:K.
    + constructor; [now apply IH|].
      apply insert_hd; auto. now apply key_lt_by_price.
    + constructor; [now constructor|]. constructor.
      now apply key_ge_by_price.
Qed.

Lemma insert_plain x l :
  plain_price x -> Forall plain_price l -> Forall plain_price (insert x l).
Proof.
  intros Px Pl.
  eapply Permutation_Forall; [symmetry; apply insert_perm | now constructor].
Qed.

(** Away from a price of zero the sort is the ranking of the specification:
    ascending by price, absent prices last. *)
Lemma sort_results_sorted l :
  Forall plain_price l ->
  Sorted by_price (sort_results l) /\ Forall plain_price (sort_results l).
Proof.
  induction 1 as [|x l Px Pl [IH1 IH2]]; simpl.
  - split; constructor.
  - split; [now apply insert_sorted | now apply insert_plain].
Qed.

Lemma return_dates_one_way dates :
  return_dates None dates = Ok (map (fun _ => None) dates).
Proof.
  induction dates as [|d dates IH]; simpl; [reflexivity|].
  now rewrite IH.
Qed.

Lemma return_dates_length ra : forall dates rets,
  return_dates ra dates = Ok rets -> List.length rets = List.length dates.
Proof.
  induction dates as [|d dates IH]; simpl; intros rets H.
  - now injection H as <-.
  - destruct (return_date_for ra d); simpl in H; [|discriminate].
    destruct (return_dates ra dates) as [rs|]; simpl in H; [|discriminate].
    injection H as <-. simpl. f_equal. now apply IH.
Qed.

Section WithFloat.

Variable float_of_str : string -> result Q.
Variable search : searcher.
Variable return_after_days : option Z.
Variable currency : string.

Lemma per_date_length : forall dates rets i,
  List.length rets = List.length dates ->
  List.length (per_date float_of_str search currency i dates rets)
  = List.length dates.
Proof.
  induction dates as [|d dates IH]; intros [|r rets] i H; simpl in *;
    try reflexivity; try discriminate.
  f_equal. apply IH. now injection H.
Qed.

Lemma per_date_nth : forall dates rets i k departure ret,
  nth_error dates k = Some departure ->
  nth_error rets k = Some ret ->
  nth_error (per_date float_of_str search currency i dates rets) k
  = Some (check float_of_str (search (i + k)%nat departure ret)
            currency departure ret).
Proof.
  induction dates as [|d dates IH]; intros [|r rets] i [|k] departure ret;
    simpl; try discriminate.
  - intros [= <-] [= <-]. now rewrite Nat.add_0_r.
  - intros Hd Hr. rewrite (IH rets (S i) k departure ret Hd Hr).
    now rewrite Nat.add_succ_r.
Qed.

(** The loop appends one entry per date, in the order of the dates. *)
Lemma collect_per_date : forall dates rets i acc,
  return_dates return_after_days dates = Ok rets ->
  collect float_of_str search return_after_days currency i dates acc
  = Ok (acc ++ per_date float_of_str search currency i dates rets)%list.
Proof.
  induction dates as [|d dates IH]; simpl; intros rets i acc H.
  - injection H as <-. now rewrite app_nil_r.
  - destruct (return_date_for return_after_days d) as [r|]; simpl in *;
      [|discriminate].
    destruct (return_dates return_after_days dates) as [rs|]; simpl in H;
      [|discriminate].
    injection H as <-. rewrite (IH rs) by reflexivity.
    simpl. now rewrite <- app_assoc.
Qed.

(** The loop raises exactly when a return date cannot be computed. *)
Lemma collect_raises : forall dates i acc e,
  return_dates return_after_days dates = Raise e ->
  collect float_of_str search return_after_days currency i dates acc = Raise e.
Proof.
  induction dates as [|d dates IH]; simpl; intros i acc e H; [discriminate|].
  destruct (return_date_for return_after_days d) as [r|]; simpl in *;
    [|congruence].
  destruct (return_dates return_after_days dates) as [rs|x] eqn:R; simpl in H;
    [discriminate|].
  injection H as <-. now apply IH.
Qed.

End WithFloat.

End ComparatorFacts.

Module PriceComparator.
Import ComparatorFacts Samples.

(** C3, as the code has it.  When the return date of every date can be
    computed (which is always so for a one-way comparison), [compare_dates]
    does not raise and returns exactly one entry per date: the entries are
    made in the order of the dates, the [k]-th from the [k]-th search alone,
    and are returned sorted.  A search that raises, or that finds no offer,
    yields an entry without a price whose error is the failure, or
    "No flights found". *)
Theorem compare_dates_partial_failure :
  forall (float_of_str : string -> result Q) (search : searcher)
         (origin destination : string) (dates : list string)
         (return_after_days : option Z) (currency : string)
         (rets : list (option string)),
    return_dates return_after_days dates = Ok rets ->
    let made := per_date float_of_str search currency 0 dates rets in
    (exists out,
        compare_dates float_of_str search origin destination dates
          return_after_days currency = Ok out
        /\ results out = sort_results made
        /\ List.length (results out) = List.length dates
        /\ Permutation (results out) made)
    /\ (forall k departure ret,
          nth_error dates k = Some departure ->
          nth_error rets k = Some ret ->
          nth_error made k
          = Some (check float_of_str (search k departure ret)
                    currency departure ret))
    /\ (forall e departure ret,
          check float_of_str (Raise e) currency departure ret
          = failed currency departure ret (Failure e))
    /\ (forall data offers departure ret,
          get data "data" (JArr []) = Ok offers -> truthy offers = false ->
          check float_of_str (Ok data) currency departure ret
          = failed currency departure ret NoFlightsFound)
    /\ (forall departure ret why,
          price (failed currency departure ret why) = None
          /\ error (failed currency departure ret why) = Some why)
    /\ return_dates None dates = Ok (map (fun _ => None) dates).
Proof.
  intros float_of_str search origin destination dates return_after_days
         currency rets R made.
  split; [|split; [|split; [|split; [|split]]]].
  - unfold compare_dates.
    rewrite (collect_per_date _ _ _ _ dates rets 0%nat [] R). simpl.
    fold made. eexists. split; [reflexivity|]. simpl.
    split; [reflexivity|]. split.
    + rewrite sort_results_length. unfold made.
      apply per_date_length. now apply (return_dates_length return_after_days).
    + apply sort_results_perm.
  - intros k departure ret Hd Hr. unfold made.
    now rewrite (per_date_nth _ _ _ dates rets 0%nat k departure ret Hd Hr).
  - reflexivity.
  - intros data offers departure ret G T. unfold check, attempt. simpl.
    rewrite G. simpl. now rewrite T.
  - intros. split; reflexivity.
  - apply return_dates_one_way.
Qed.

Lemma compare_dates_partial_failure_witness :
  return_dates None five_dates = Ok [None; None; None; None; None]
  /\ exists out,
       compare_dates decimal ranking_search "LHR" "BCN" five_dates None "GBP"
       = Ok out
       /\ List.length (results out) = List.length five_dates.
Proof.
  assert (R : return_dates None five_dates = Ok [None; None; None; None; None])
    by reflexivity.
  split; [exact R|].
  destruct (compare_dates_partial_failure decimal ranking_search "LHR" "BCN"
              five_dates None "GBP" _ R) as [(out & E & _ & L & _) _].
  exists out. split; [exact E | exact L].
Defined.

(** C3 as stated fails for a round trip: the return date is computed before
    the [try], so a date whose return date cannot be computed makes the whole
    call raise, whatever the other dates are. *)
Lemma compare_dates_round_trip_raises :
  compare_dates decimal ranking_search "LHR" "BCN" ["9999-12-31"] (Some 1) "GBP"
  = Raise OverflowError
  /\ compare_dates decimal ranking_search "LHR" "BCN"
       ["2026-03-15"; "2026-02-30"; "2026-03-17"] (Some 7) "GBP"
     = Raise (ValueError "day is out of range for month").
Proof. split; vm_compute; reflexivity. Qed.

(** Whenever a return date cannot be computed the call raises. *)
Lemma compare_dates_raises float_of_str search origin destination dates
      return_after_days currency e :
  return_dates return_after_days dates = Raise e ->
  compare_dates float_of_str search origin destination dates
    return_after_days currency = Raise e.
Proof.
  intro R. unfold compare_dates.
  now rewrite (collect_raises _ _ _ _ dates 0%nat [] e R).
Qed.

(** The ranking of the specification, for entries whose present prices are
    not zero: the list is ascending by price with the absent prices last,
    and [cheapest] is the first entry exactly when that entry has a price. *)
Lemma compare_dates_ranking float_of_str search origin destination dates
      return_after_days currency out :
  compare_dates float_of_str search origin destination dates
    return_after_days currency = Ok out ->
  Forall plain_price (results out) ->
  Sorted by_price (results out)
  /\ cheapest out
     = match results out with
       | first :: _ => if has_price first then Some first else None
       | [] => None
       end.
Proof.
  unfold compare_dates.
  destruct (collect float_of_str search return_after_days currency 0 dates [])
    as [made|]; simpl; [|discriminate].
  intros [= <-]. simpl. intro P. split.
  - apply sort_results_sorted.
    eapply Permutation_Forall; [apply sort_results_perm | exact P].
  - destruct (sort_results made) as [|first rest]; [reflexivity|].
    inversion P as [|? ? Pf _]; subst. unfold plain_price in Pf.
    unfold price_truthy. now rewrite <- Pf.
Qed.

(** The ranking example: prices 120, none, 95, none, 200. *)
Example compare_dates_ranking_example :
  prices_of (compare_dates decimal ranking_search "LHR" "BCN" five_dates None "GBP")
  = Ok [Some 95%Q; Some 120%Q; Some 200%Q; None; None]
  /\ cheapest_price_of
       (compare_dates decimal ranking_search "LHR" "BCN" five_dates None "GBP")
     = Ok (Some (Some 95%Q)).
Proof. split; vm_compute; reflexivity. Qed.

(** C4.  A price of 0 counts as false in the sort key and in the test for
    [cheapest]: an entry priced 0 is ranked after an entry with a positive
    price, and is never the [cheapest].  An offer without a price is given
    the price 0, so this happens: such an entry is returned after the entry
    priced 120, and a batch whose only entry it is has no [cheapest] although
    its first entry has a price. *)
Theorem compare_dates_zero_price :
  forall (x y : entry) (q p : Q),
    price x = Some q -> (q == 0)%Q ->
    price y = Some p -> (0 < p)%Q ->
    (sort_results [x; y] = [y; x]
     /\ ~ by_price y x
     /\ price_truthy x = false)
    /\ prices_of (compare_dates decimal unpriced_search "LHR" "BCN"
                    ["2026-03-15"; "2026-03-16"] None "GBP")
       = Ok [Some 120%Q; Some 0%Q]
    /\ prices_of (compare_dates decimal unpriced_search "LHR" "BCN"
                    ["2026-03-15"] None "GBP")
       = Ok [Some 0%Q]
    /\ cheapest_price_of (compare_dates decimal unpriced_search "LHR" "BCN"
                            ["2026-03-15"] None "GBP")
       = Ok None.
Proof.
  intros x y q p Hx Hq Hy Hp.
  assert (Zq : Qnonzero q = false).
  { unfold Qnonzero. apply negb_false_iff. now apply Qeq_bool_iff. }
  assert (Zp : Qnonzero p = true).
  { unfold Qnonzero. apply negb_true_iff.
    destruct (Qeq_bool p 0) eqn:E; [|reflexivity].
    apply Qeq_bool_iff in E. rewrite E in Hp. now apply Qlt_irrefl in Hp. }
  split; [split; [|split]|].
  - unfold sort_results. simpl. unfold sort_key, key_lt.
    rewrite Hx, Hy, Zq, Zp. reflexivity.
  - unfold by_price. rewrite Hx, Hy. simpl. intro L.
    rewrite Hq in L. exact (Qlt_not_le _ _ Hp L).
  - unfold price_truthy. now rewrite Hx.
  - repeat split; vm_compute; reflexivity.
Qed.

Lemma compare_dates_zero_price_witness :
  price free_entry = Some 0%Q
  /\ (0 == 0)%Q
  /\ price paid_entry = Some 120%Q
  /\ (0 < 120)%Q
  /\ sort_results [free_entry; paid_entry] = [paid_entry; free_entry].
Proof.
  assert (Hx : price free_entry = Some 0%Q) by reflexivity.
  assert (Hq : (0 == 0)%Q) by reflexivity.
  assert (Hy : price paid_entry = Some 120%Q) by reflexivity.
  assert (Hp : (0 < 120)%Q) by reflexivity.
  repeat (split; [assumption|]).
  exact (proj1 (proj1 (compare_dates_zero_price _ _ _ _ Hx Hq Hy Hp))).
Defined.

End PriceComparator.

(* ===================================================================== *)
(** * Further properties of the token manager                            *)
(* ===================================================================== *)

Module TokenManagerFacts.
Import Auth AuthFacts.

Lemma missing_credentials e :
  nonempty (api_key e) && nonempty (api_secret e) = false ->
  get_credentials e
  = Raise (EnvironmentError
             "Missing credentials. Set AMADEUS_API_KEY and AMADEUS_API_SECRET.").
Proof.
  unfold get_credentials. intro H.
  destruct (api_key e), (api_secret e); try reflexivity.
  now rewrite H.
Qed.

(** A failed [fetch_new_token] does not write the cache file. *)
Lemma fetch_failure_keeps_file now e w x w' :
  fetch_new_token now e w = (Raise x, w') -> token_file w' = token_file w.
Proof.
  unfold fetch_new_token.
  destruct (get_credentials e); [|now intros [= _ <-]].
  destruct (oauth_reply e) as [status text decoded|]; [|now intros [= _ <-]].
  destruct (status =? 401); [now intros [= _ <-]|].
  match goal with |- context [match ?b with Ok _ => _ | Raise _ => _ end] =>
    destruct b end; [discriminate | now intros [= _ <-]].
Qed.

(** The shape of the record a successful [fetch_new_token] builds. *)
Lemma fetch_success_record now e w t w' :
  fetch_new_token now e w = (Ok t, w') ->
  exists status text data access token_type expires_in dt,
    oauth_reply e = Response status text (Some data)
    /\ get data "expires_in" (JNum 1799) = Ok expires_in
    /\ subscript data "access_token" = Ok access
    /\ get data "token_type" (JStr "Bearer") = Ok token_type
    /\ as_number expires_in = Ok dt
    /\ t = JObj [("access_token", access); ("token_type", token_type);
                 ("expires_in", expires_in); ("expires_at", JNum (now + dt))]
    /\ token_file w' = Json t.
Proof.
  unfold fetch_new_token.
  destruct (get_credentials e); [|discriminate].
  destruct (oauth_reply e) as [status text decoded|]; [|discriminate].
  destruct (status =? 401); [discriminate|].
  destruct (raise_for_status status text); simpl; [|discriminate].
  destruct decoded as [data|]; simpl; [|discriminate].
  destruct (get data "expires_in" (JNum 1799)) as [ein|] eqn:E1; simpl;
    [|discriminate].
  destruct (subscript data "access_token") as [acc|] eqn:E2; simpl;
    [|discriminate].
  destruct (get data "token_type" (JStr "Bearer")) as [tt|] eqn:E3; simpl;
    [|discriminate].
  destruct (as_number ein) as [dt|] eqn:E4; simpl; [|discriminate].
  intros [= <- <-].
  exists status, text, data, acc, tt, ein, dt. repeat split; auto.
Qed.

End TokenManagerFacts.

Module TokenManagerMore.
Import Auth AuthFacts TokenManagerFacts Samples.

(** With nothing to serve from the cache and a missing or empty API key or
    secret, [get_token] raises the "Missing credentials" error before any
    request is made; the cache file is left as it was. *)
Theorem get_token_missing_credentials :
  forall (now : Q) (e : env) (w : world),
    load_cached_token now (token_file w) = Ok None ->
    nonempty (api_key e) && nonempty (api_secret e) = false ->
    get_token now e w
    = (Raise (EnvironmentError
                "Missing credentials. Set AMADEUS_API_KEY and AMADEUS_API_SECRET."),
       emit FetchNewToken w)
    /\ exchanges (performed w (snd (get_token now e w))) = 0%nat
    /\ token_file (snd (get_token now e w)) = token_file w.
Proof.
  intros now e w L C.
  assert (G : get_token now e w
              = (Raise (EnvironmentError
                   "Missing credentials. Set AMADEUS_API_KEY and AMADEUS_API_SECRET."),
                 emit FetchNewToken w)).
  { unfold get_token, fetch_new_token. rewrite L, (missing_credentials e C).
    reflexivity. }
  rewrite G. simpl. split; [reflexivity|]. split; [|reflexivity].
  rewrite (performed_app w _ [FetchNewToken]) by reflexivity. reflexivity.
Qed.

Lemma get_token_missing_credentials_witness :
  load_cached_token 1000 (token_file no_cache_world) = Ok None
  /\ nonempty (api_key keyless_env) && nonempty (api_secret keyless_env) = false
  /\ exchanges (performed no_cache_world
                  (snd (get_token 1000 keyless_env no_cache_world))) = 0%nat.
Proof.
  assert (L : load_cached_token 1000 (token_file no_cache_world) = Ok None)
    by reflexivity.
  assert (C : nonempty (api_key keyless_env) && nonempty (api_secret keyless_env)
              = false) by reflexivity.
  split; [exact L|]. split; [exact C|].
  exact (proj1 (proj2 (get_token_missing_credentials 1000 keyless_env
                         no_cache_world L C))).
Defined.

(** A call of [get_token] that raises, for whatever reason, leaves the cache
    file as it was: a token is written only by a call that returns it. *)
Theorem get_token_failure_keeps_cache :
  forall (now : Q) (e : env) (w w' : world) (x : exn),
    get_token now e w = (Raise x, w') ->
    token_file w' = token_file w.
Proof.
  intros now e w w' x. unfold get_token.
  destruct (load_cached_token now (token_file w)) as [[data|]|y];
    [| |now intros [= _ <-]].
  - destruct (truthy data); [now intros [= _ <-]|].
    destruct (fetch_new_token now e w) as [[t|y] w1] eqn:F; simpl.
    + destruct (fetch_success_record _ _ _ _ _ F)
        as (? & ? & ? & acc & ? & ? & ? & _ & _ & _ & _ & _ & -> & _).
      discriminate.
    + intros [= _ <-]. exact (fetch_failure_keeps_file _ _ _ _ _ F).
  - destruct (fetch_new_token now e w) as [[t|y] w1] eqn:F; simpl.
    + destruct (fetch_success_record _ _ _ _ _ F)
        as (? & ? & ? & acc & ? & ? & ? & _ & _ & _ & _ & _ & -> & _).
      discriminate.
    + intros [= _ <-]. exact (fetch_failure_keeps_file _ _ _ _ _ F).
Qed.

Lemma get_token_failure_keeps_cache_witness :
  get_token 1950 rejecting_env cached_world
  = (Raise (EnvironmentError
       "Authentication failed. Check AMADEUS_API_KEY and AMADEUS_API_SECRET."),
     {| token_file := token_file cached_world;
        log := [FetchNewToken; PostToken] |})
  /\ token_file (snd (get_token 1950 rejecting_env cached_world))
     = token_file cached_world.
Proof.
  assert (G : get_token 1950 rejecting_env cached_world
              = (Raise (EnvironmentError
                   "Authentication failed. Check AMADEUS_API_KEY and AMADEUS_API_SECRET."),
                 {| token_file := token_file cached_world;
                    log := [FetchNewToken; PostToken] |})) by reflexivity.
  split; [exact G|].
  rewrite G. exact (get_token_failure_keeps_cache _ _ _ _ _ G).
Defined.

(** Save and load.  The record a successful [fetch_new_token] at time [now]
    writes has the members [access_token], [token_type], [expires_in] and
    [expires_at = now + expires_in]; it is the whole new content of the cache
    file, and [load_cached_token] at time [now2] returns exactly this record
    when [now + expires_in > now2 + 60] and nothing otherwise.  A token that
    lives 60 seconds or less is therefore never served from the cache. *)
Theorem fetch_new_token_round_trip :
  forall (now now2 : Q) (e : env) (w w' : world) (t : json),
    fetch_new_token now e w = (Ok t, w') ->
    exists access token_type expires_in dt,
      t = JObj [("access_token", access); ("token_type", token_type);
                ("expires_in", expires_in); ("expires_at", JNum (now + dt))]
      /\ as_number expires_in = Ok dt
      /\ token_file w' = Json t
      /\ load_cached_token now2 (token_file w')
         = Ok (if Qgtb (now + dt) (now2 + 60) then Some t else None)
      /\ ((dt <= 60)%Q -> (now <= now2)%Q ->
          load_cached_token now2 (token_file w') = Ok None).
Proof.
  intros now now2 e w w' t F.
  destruct (fetch_success_record _ _ _ _ _ F)
    as (status & text & data & acc & tt & ein & dt
        & _ & _ & _ & _ & N & -> & W).
  exists acc, tt, ein, dt.
  assert (L : load_cached_token now2 (token_file w')
              = Ok (if Qgtb (now + dt) (now2 + 60)
                    then Some (JObj [("access_token", acc); ("token_type", tt);
                                     ("expires_in", ein);
                                     ("expires_at", JNum (now + dt))])
                    else None)).
  { rewrite W. simpl. unfold read_valid. simpl.
    destruct (Qgtb (now + dt) (now2 + 60)); reflexivity. }
  repeat split; auto.
  intros Hdt Hnow. rewrite L.
  destruct (Qgtb (now + dt) (now2 + 60)) eqn:G; [|reflexivity].
  apply Qgtb_true in G. exfalso.
  apply (Qlt_not_le _ _ G). lra.
Qed.

Lemma fetch_new_token_round_trip_witness :
  fetch_new_token 1000 some_env no_cache_world = (Ok fresh_record, fresh_world)
  /\ load_cached_token 2000 (token_file fresh_world) = Ok (Some fresh_record).
Proof.
  assert (F : fetch_new_token 1000 some_env no_cache_world
              = (Ok fresh_record, fresh_world)) by reflexivity.
  split; [exact F|].
  destruct (fetch_new_token_round_trip 1000 2000 _ _ _ _ F)
    as (a & b & c & d & Ht & Hn & _ & L & _).
  injection Ht as _ _ <- _. injection Hn as <-.
  rewrite L. reflexivity.
Defined.

(** A cache file that holds JSON which is not an object makes every call of
    the flights [get_token] raise [AttributeError] without any request and
    without touching the file, so the failure repeats until the file is
    removed; the copy of amadeus-experiences goes on to fetch a new token. *)
Theorem get_token_non_object_cache :
  forall (now : Q) (e : env) (w : world) (v : json),
    token_file w = Json v ->
    is_object v = false ->
    get_token now e w = (Raise AttributeError, w)
    /\ Experiences.get_token now e w
       = (token_data <- fst (Experiences.fetch_new_token now e w) ;;
          subscript token_data "access_token",
          snd (Experiences.fetch_new_token now e w)).
Proof.
  intros now e w v F O.
  assert (R : read_valid now (Json v) = Raise AttributeError).
  { unfold read_valid. simpl. destruct v; try reflexivity. discriminate O. }
  split.
  - unfold get_token, load_cached_token. rewrite F, R. reflexivity.
  - unfold Experiences.get_token, AuthExperiences.load_cached_token.
    rewrite F, R. simpl.
    now destruct (Experiences.fetch_new_token now e w).
Qed.

Lemma get_token_non_object_cache_witness :
  token_file array_world = Json (JArr [])
  /\ is_object (JArr []) = false
  /\ get_token 1000 some_env array_world = (Raise AttributeError, array_world)
  /\ fst (Experiences.get_token 1000 some_env array_world) = Ok (JStr "fresh").
Proof.
  assert (F : token_file array_world = Json (JArr [])) by reflexivity.
  assert (O : is_object (JArr []) = false) by reflexivity.
  split; [exact F|]. split; [exact O|].
  destruct (get_token_non_object_cache 1000 some_env array_world _ F O)
    as [H1 H2].
  split; [exact H1|]. rewrite H2. reflexivity.
Defined.

(** A cached object whose [expires_at] is still valid but which has no
    [access_token] is served all the same: both copies of [get_token] raise
    [KeyError] on it, without any request. *)
Theorem get_token_missing_access_token :
  forall (now : Q) (e : env) (w : world) (m : dict) (exp : Q),
    token_file w = Json (JObj m) ->
    lookup "expires_at" m = Some (JNum exp) ->
    (now + 60 < exp)%Q ->
    lookup "access_token" m = None ->
    get_token now e w = (Raise (KeyError "access_token"), w)
    /\ Experiences.get_token now e w = (Raise (KeyError "access_token"), w).
Proof.
  intros now e w m exp F E V A.
  assert (R : read_valid now (Json (JObj m)) = Ok (Some (JObj m))).
  { unfold read_valid. simpl. rewrite E. simpl.
    apply Qgtb_true in V. now rewrite V. }
  assert (T : truthy (JObj m) = true).
  { destruct m; [discriminate E | reflexivity]. }
  split.
  - unfold get_token, load_cached_token. rewrite F, R. simpl try_except.
    cbv iota. rewrite T. simpl. now rewrite A.
  - unfold Experiences.get_token, AuthExperiences.load_cached_token.
    rewrite F, R. simpl try_except. cbv iota. rewrite T. simpl. now rewrite A.
Qed.

Lemma get_token_missing_access_token_witness :
  token_file tokenless_world = Json (JObj [("expires_at", JNum 2000)])
  /\ lookup "expires_at" [("expires_at", JNum 2000)] = Some (JNum 2000)
  /\ (1000 + 60 < 2000)%Q
  /\ lookup "access_token" [("expires_at", JNum 2000)] = None
  /\ get_token 1000 some_env tokenless_world
     = (Raise (KeyError "access_token"), tokenless_world).
Proof.
  assert (F : token_file tokenless_world = Json (JObj [("expires_at", JNum 2000)]))
    by reflexivity.
  assert (E : lookup "expires_at" [("expires_at", JNum 2000)] = Some (JNum 2000))
    by reflexivity.
  assert (V : (1000 + 60 < 2000)%Q) by reflexivity.
  assert (A : lookup "access_token" [("expires_at", JNum 2000)] = None)
    by reflexivity.
  repeat (split; [assumption|]).
  exact (proj1 (get_token_missing_access_token 1000 some_env tokenless_world
                  _ _ F E V A)).
Defined.

End TokenManagerMore.

Module HostFacts.
Import Hosts.

(** The token is exchanged with the host that [get_base_url] names, and
    presented to the host that the status-returning scripts name.  The first
    reads AMADEUS_ENV without regard to case, the second compares it as it is:
    for a value such as "Production" the token comes from the production host
    and is presented to the test host.  For every other value, and when the
    variable is unset, the two hosts are the same. *)
Theorem base_url_case_sensitivity :
  forall (amadeus_env : option string),
    (forall v, amadeus_env = Some v ->
               lower v = "production" -> v <> "production" ->
               get_base_url amadeus_env = production_host
               /\ lookup_base_url amadeus_env = test_host)
    /\ ((forall v, amadeus_env = Some v ->
                   lower v = "production" -> v = "production") ->
        get_base_url amadeus_env = lookup_base_url amadeus_env).
Proof.
  intro amadeus_env. split.
  - intros v -> L N. unfold get_base_url, lookup_base_url. simpl.
    rewrite L. simpl. destruct (String.eqb_spec v "production"); [contradiction|].
    split; reflexivity.
  - intro H. destruct amadeus_env as [v|]; [|reflexivity].
    unfold get_base_url, lookup_base_url. simpl.
    destruct (String.eqb_spec (lower v) "production") as [L|L].
    + rewrite (H v eq_refl L). reflexivity.
    + destruct (String.eqb_spec v "production") as [->|]; [|reflexivity].
      exfalso. apply L. reflexivity.
Qed.

Lemma base_url_case_sensitivity_witness :
  lower "Production" = "production"
  /\ "Production" <> "production"
  /\ get_base_url (Some "Production") = production_host
  /\ lookup_base_url (Some "Production") = test_host.
Proof.
  assert (L : lower "Production" = "production") by reflexivity.
  assert (N : "Production" <> "production") by discriminate.
  split; [exact L|]. split; [exact N|].
  exact (proj1 (base_url_case_sensitivity (Some "Production")) _ eq_refl L N).
Defined.

End HostFacts.

(* ===================================================================== *)
(** * Further properties of the dispatchers                              *)
(* ===================================================================== *)

Module TraceFacts.
Import Dispatcher Traces.

Lemma pow2_succ (n : nat) : 2 ^ Z.of_nat (S n) = 2 * 2 ^ Z.of_nat n.
Proof. rewrite Nat2Z.inj_succ. apply Z.pow_succ_r. lia. Qed.

Lemma pow2_pos (n : nat) : 0 < 2 ^ Z.of_nat n.
Proof. apply Z.pow_pos_nonneg; lia. Qed.

Lemma total_sleep_attempts srv : forall n from,
  0 <= total_sleep (fst (attempts srv from n))
    <= 2 ^ Z.of_nat (from + n) - 2 ^ Z.of_nat from.
Proof.
  induction n as [|n IH]; intro from.
  - simpl. rewrite Nat.add_0_r. unfold total_sleep. simpl. lia.
  - assert (M : 2 ^ Z.of_nat from <= 2 ^ Z.of_nat (from + S n)).
    { apply Z.pow_le_mono_r; lia. }
    cbn [attempts].
    destruct (srv from) as [status text decoded|];
      [|unfold total_sleep; simpl; lia].
    destruct (status =? 429).
    + specialize (IH (S from)).
      destruct (attempts srv (S from) n) as [tr r]. cbn [fst] in *.
      unfold total_sleep, sleeps in *. cbn [flat_map app fold_right] in *.
      replace (from + S n)%nat with (S from + n)%nat by lia.
      rewrite pow2_succ in IH. pose proof (pow2_pos from). lia.
    + destruct (status =? 401); [unfold total_sleep; simpl; lia|].
      destruct (status =? 400); unfold total_sleep; simpl; lia.
Qed.

Lemma well_formed_attempts srv : forall n from,
  well_formed from (fst (attempts srv from n)).
Proof.
  induction n as [|n IH]; intro from; [exact I|].
  cbn [attempts].
  destruct (srv from) as [status text decoded|]; [|reflexivity].
  destruct (status =? 429).
  - specialize (IH (S from)).
    destruct (attempts srv (S from) n) as [tr r]. cbn [fst] in *.
    cbn [well_formed]. auto.
  - destruct (status =? 401); [reflexivity|].
    destruct (status =? 400); reflexivity.
Qed.

(** The exceptions of the 400 branch are not the ones price.py words
    differently. *)
Lemma as_price_bad_request text decoded :
  as_price (bad_request text decoded) = bad_request text decoded.
Proof.
  unfold bad_request.
  destruct decoded as [body|]; simpl; [|reflexivity].
  destruct (get body "errors" (JArr [JObj []])) as [errors|x] eqn:G; simpl.
  2:{ destruct body; simpl in G; try discriminate; now injection G as <-. }
  destruct (index0 errors) as [error|x] eqn:I; simpl.
  2:{ destruct errors as [| | |[]|[]|]; simpl in I; try discriminate;
        now injection I as <-. }
  destruct (get error "detail" (JStr text)) as [d|x] eqn:D; simpl;
    [reflexivity|].
  destruct error; simpl in D; try discriminate; now injection D as <-.
Qed.

Lemma as_price_other status text decoded :
  as_price (_ <- raise_for_status status text ;; response_json decoded)
  = (_ <- raise_for_status status text ;; response_json decoded).
Proof.
  unfold raise_for_status.
  destruct ((400 <=? status) && (status <? 600)); simpl; [reflexivity|].
  now destruct decoded.
Qed.

End TraceFacts.

Module Dispatchers.
Import Dispatcher Traces TraceFacts Samples.

(** Whatever the server answers, the trace of [make_request] is a run of
    request-and-sleep pairs for attempts 0, 1, 2, ..., the sleep after
    attempt [a] lasting [2^a] seconds, ended by nothing or by one more
    request; it holds at most [retries] requests, and the call sleeps at
    most [2^retries - 1] seconds in all (7 seconds by default). *)
Theorem make_request_trace_shape :
  forall (headers : result json) (srv : server) (retries : nat),
    let tr := fst (make_request headers srv retries) in
    well_formed 0 tr
    /\ (sends tr <= retries)%nat
    /\ 0 <= total_sleep tr <= 2 ^ Z.of_nat retries - 1
    /\ 2 ^ Z.of_nat default_retries - 1 = 7.
Proof.
  intros headers srv retries tr. subst tr. unfold make_request.
  destruct headers as [h|e].
  - split; [apply well_formed_attempts|].
    split; [apply DispatcherFacts.attempts_sends|].
    split; [|reflexivity].
    pose proof (total_sleep_attempts srv retries 0) as T.
    simpl Nat.add in T. change (2 ^ Z.of_nat 0) with 1 in T. exact T.
  - simpl. split; [exact I|]. split; [unfold sends; simpl; lia|].
    split; [|reflexivity].
    unfold total_sleep. simpl. pose proof (pow2_pos retries). lia.
Qed.

(** price.py's dispatcher makes the same requests and sleeps as search.py's
    against the same server and ends the same way; only the wording of the
    authentication failure and of the exhausted retries differs. *)
Theorem price_make_request_agrees :
  forall (headers : result json) (srv : server) (retries : nat),
    (forall msg, headers <> Raise (EnvironmentError msg)) ->
    (forall msg, headers <> Raise (Exception_ msg)) ->
    Price.make_request headers srv retries
    = (fst (make_request headers srv retries),
       as_price (snd (make_request headers srv retries))).
Proof.
  intros headers srv retries H1 H2. unfold Price.make_request, make_request.
  destruct headers as [h|e].
  - clear H1 H2. generalize 0%nat as from.
    induction retries as [|n IH]; intro from; [reflexivity|].
    cbn [Price.attempts attempts].
    destruct (srv from) as [status text decoded|]; [|reflexivity].
    destruct (status =? 429).
    + rewrite IH. now destruct (attempts srv (S from) n).
    + destruct (status =? 401); [reflexivity|].
      destruct (status =? 400); simpl.
      * now rewrite as_price_bad_request.
      * now rewrite as_price_other.
  - simpl. destruct e; try reflexivity.
    + now destruct (H1 msg).
    + now destruct (H2 msg).
Qed.

Lemma price_make_request_agrees_witness :
  (forall msg, Ok headers <> Raise (EnvironmentError msg))
  /\ (forall msg, Ok headers <> Raise (Exception_ msg))
  /\ Price.make_request (Ok headers) (always too_many_requests) 3
     = ([Send 0; Sleep 1; Send 1; Sleep 2; Send 2; Sleep 4],
        Raise Price.max_retries).
Proof.
  assert (H1 : forall msg, Ok headers <> Raise (EnvironmentError msg))
    by (intros msg H; discriminate H).
  assert (H2 : forall msg, Ok headers <> Raise (Exception_ msg))
    by (intros msg H; discriminate H).
  split; [exact H1|]. split; [exact H2|].
  rewrite (price_make_request_agrees (Ok headers) (always too_many_requests) 3
             H1 H2).
  reflexivity.
Defined.

(** airports.py's dispatcher behaves as price.py's as long as no attempt is
    answered with HTTP 400; it has no branch for that status, so a 400
    answer leaves it as the [HTTPError] of [raise_for_status] instead of the
    "Bad request" error with the detail of the response. *)
Theorem airports_make_request_agrees :
  forall (headers : result json) (srv : server) (retries : nat),
    (forall a, (a < retries)%nat -> status_of (srv a) <> Some 400) ->
    Airports.make_request headers srv retries
    = Price.make_request headers srv retries.
Proof.
  intros headers srv retries H.
  unfold Airports.make_request, Price.make_request.
  destruct headers as [h|e]; [|reflexivity].
  assert (G : forall n from, (from + n <= retries)%nat ->
                Airports.attempts srv from n = Price.attempts srv from n).
  { induction n as [|n IH]; intros from B; [reflexivity|].
    cbn [Airports.attempts Price.attempts].
    assert (N : status_of (srv from) <> Some 400) by (apply H; lia).
    destruct (srv from) as [status text decoded|]; [|reflexivity].
    destruct (status =? 429).
    - rewrite IH by lia. reflexivity.
    - destruct (status =? 401); [reflexivity|].
      destruct (Z.eqb_spec status 400) as [->|]; [|reflexivity].
      exfalso. apply N. reflexivity. }
  apply G. lia.
Qed.

Lemma airports_make_request_agrees_witness :
  (forall a, (a < 3)%nat -> status_of (always unauthorized a) <> Some 400)
  /\ Airports.make_request (Ok headers) (always unauthorized) 3
     = ([Send 0], Raise Price.auth_failed).
Proof.
  assert (H : forall a, (a < 3)%nat ->
                        status_of (always unauthorized a) <> Some 400)
    by (intros a _ E; discriminate E).
  split; [exact H|].
  rewrite (airports_make_request_agrees (Ok headers) (always unauthorized) 3 H).
  reflexivity.
Defined.

(** On a 400 answer airports.py raises the [HTTPError] with the raw text,
    whatever the body says. *)
Theorem airports_make_request_400 :
  forall (srv : server) (hdr : json) (retries i : nat) text decoded,
    (i < retries)%nat ->
    rate_limited srv i ->
    srv i = Response 400 text decoded ->
    Airports.make_request (Ok hdr) srv retries
    = ((backoff 0 i ++ [Send i])%list, Raise (HTTPError 400 text)).
Proof.
  intros srv hdr retries i text decoded Hi H R. unfold Airports.make_request.
  assert (G : forall n from k,
             (forall j, (from <= j < from + n)%nat ->
                        status_of (srv j) = Some 429) ->
             Airports.attempts srv from (n + k)
             = ((backoff from n
                 ++ fst (Airports.attempts srv (from + n) k))%list,
                snd (Airports.attempts srv (from + n) k))).
  { induction n as [|n IH]; intros from k A.
    - simpl. rewrite Nat.add_0_r. now destruct (Airports.attempts srv from k).
    - assert (A0 : status_of (srv from) = Some 429) by (apply A; lia).
      change (S n + k)%nat with (S (n + k)). cbn [Airports.attempts].
      destruct (srv from) as [status t d|]; [|discriminate].
      injection A0 as ->. cbn [Z.eqb Pos.eqb].
      rewrite (IH (S from) k) by (intros j Hj; apply A; lia).
      rewrite DispatcherFacts.backoff_S.
      replace (S from + n)%nat with (from + S n)%nat by lia. reflexivity. }
  replace retries with (i + (retries - i))%nat by lia.
  rewrite G by (intros j Hj; apply H; lia). simpl Nat.add.
  destruct (retries - i)%nat as [|k] eqn:K; [lia|].
  cbn [Airports.attempts]. rewrite R. reflexivity.
Qed.

Lemma airports_make_request_400_witness :
  (0 < 3)%nat
  /\ rate_limited (always invalid_date) 0
  /\ Airports.make_request (Ok headers) (always invalid_date) 3
     = ([Send 0], Raise (HTTPError 400 "{...}")).
Proof.
  assert (L : (0 < 3)%nat) by lia.
  assert (R : rate_limited (always invalid_date) 0) by (intros j Hj; lia).
  split; [exact L|]. split; [exact R|].
  exact (airports_make_request_400 (always invalid_date) headers 3 0 _ _
           L R eq_refl).
Defined.

End Dispatchers.

(* ===================================================================== *)
(** * The calendar: ordinals, dates and their text                       *)
(* ===================================================================== *)

Module CalendarRoundTrip.
Import CalendarFacts.

Lemma all_from_spec f : forall count n,
  all_from f n count = true ->
  forall i, n <= i < n + Z.of_nat count -> f i = true.
Proof.
  induction count as [|k IH]; intros n H i Hi; [lia|].
  simpl in H. apply andb_true_iff in H as [H0 H1].
  destruct (Z.eq_dec i n) as [->|N]; [exact H0|].
  apply (IH (n + 1) H1). lia.
Qed.

Lemma month_day_table (leapyear : bool) n :
  0 <= n < 365 + (if leapyear then 1 else 0) ->
  month_day_ok leapyear n = true.
Proof.
  intro H.
  assert (T : all_from (month_day_ok true) 0 366 = true) by (vm_compute; reflexivity).
  assert (F : all_from (month_day_ok false) 0 365 = true) by (vm_compute; reflexivity).
  destruct leapyear.
  - apply (all_from_spec _ _ _ T). lia.
  - apply (all_from_spec _ _ _ F). lia.
Qed.

Lemma month_length_leap y m : days_in_month y m = month_length (is_leap y) m.
Proof. reflexivity. Qed.

Lemma month_offset_leap y m : days_before_month y m = month_offset (is_leap y) m.
Proof. reflexivity. Qed.

(** The year count of [days_before_year], by the place of the year in the
    cycles of 400, 100 and 4 years. *)
Lemma days_before_year_cycles a b c e :
  0 <= a -> 0 <= b <= 3 -> 0 <= c <= 24 -> 0 <= e <= 3 ->
  days_before_year (400 * a + 100 * b + 4 * c + e + 1)
  = 146097 * a + 36524 * b + 1461 * c + 365 * e.
Proof.
  intros Ha Hb Hc He. unfold days_before_year. cbv zeta.
  replace (400 * a + 100 * b + 4 * c + e + 1 - 1)
    with (400 * a + 100 * b + 4 * c + e) by lia.
  assert (Q4 : (400 * a + 100 * b + 4 * c + e) / 4 = 100 * a + 25 * b + c).
  { symmetry. apply (Z.div_unique _ 4 _ e); lia. }
  assert (Q100 : (400 * a + 100 * b + 4 * c + e) / 100 = 4 * a + b).
  { symmetry. apply (Z.div_unique _ 100 _ (4 * c + e)); lia. }
  assert (Q400 : (400 * a + 100 * b + 4 * c + e) / 400 = a).
  { symmetry. apply (Z.div_unique _ 400 _ (100 * b + 4 * c + e)); lia. }
  rewrite Q4, Q100, Q400. lia.
Qed.

Lemma is_leap_cycles a b c e :
  0 <= a -> 0 <= b <= 3 -> 0 <= c <= 24 -> 0 <= e <= 3 ->
  is_leap (400 * a + 100 * b + 4 * c + e + 1)
  = (e =? 3) && (negb (c =? 24) || (b =? 3)).
Proof.
  intros Ha Hb Hc He. unfold is_leap.
  set (Y := 400 * a + 100 * b + 4 * c + e + 1).
  assert (A : (Y mod 4 =? 0) = (e =? 3)).
  { destruct (Z.eqb_spec (Y mod 4) 0), (Z.eqb_spec e 3); try reflexivity;
      exfalso; subst Y; Z.div_mod_to_equations; lia. }
  assert (B : (Y mod 100 =? 0) = (e =? 3) && (c =? 24)).
  { destruct (Z.eqb_spec (Y mod 100) 0), (Z.eqb_spec e 3), (Z.eqb_spec c 24);
      try reflexivity; exfalso; subst Y; Z.div_mod_to_equations; lia. }
  assert (C : (Y mod 400 =? 0) = (e =? 3) && (c =? 24) && (b =? 3)).
  { destruct (Z.eqb_spec (Y mod 400) 0), (Z.eqb_spec e 3), (Z.eqb_spec c 24),
      (Z.eqb_spec b 3);
      try reflexivity; exfalso; subst Y; Z.div_mod_to_equations; lia. }
  rewrite A, B, C.
  destruct (e =? 3), (c =? 24), (b =? 3); reflexivity.
Qed.

(** [ord2ymd] in two steps: the year from the cycles, then [month_day]. *)
Lemma ord2ymd_steps o :
  ord2ymd o
  = let a := (o - 1) / 146097 in
    let r := (o - 1) mod 146097 in
    let b := r / 36524 in
    let c := (r mod 36524) / 1461 in
    let e := ((r mod 36524) mod 1461) / 365 in
    let n := ((r mod 36524) mod 1461) mod 365 in
    let year := a * 400 + 1 + b * 100 + c * 4 + e in
    if (e =? 4) || (b =? 4) then (year - 1, 12, 31)
    else
      let '(m, d) := month_day ((e =? 3) && (negb (c =? 24) || (b =? 3))) n in
      (year, m, d).
Proof.
  unfold ord2ymd, month_day. cbv zeta.
  destruct ((((o - 1) mod 146097) mod 36524) mod 1461 / 365 =? 4);
    [reflexivity|].
  destruct ((o - 1) mod 146097 / 36524 =? 4); [reflexivity|].
  cbn [orb].
  match goal with |- (if ?t then _ else _) = _ => destruct t end; reflexivity.
Qed.

(** [ord2ymd] gives a date of the calendar, and [ymd2ord] takes it back to
    the ordinal. *)
Lemma ord2ymd_inverse o :
  1 <= o ->
  let '(y, m, d) := ord2ymd o in
  ymd2ord y m d = o
  /\ 1 <= y /\ 1 <= m <= 12 /\ 1 <= d <= days_in_month y m.
Proof.
  intro Ho. rewrite ord2ymd_steps. cbv zeta.
  pose proof (Z.div_mod (o - 1) 146097 ltac:(lia)) as E0.
  pose proof (Z.mod_pos_bound (o - 1) 146097 ltac:(lia)) as B0.
  assert (A0 : 0 <= (o - 1) / 146097) by (apply Z.div_pos; lia).
  set (a := (o - 1) / 146097) in *.
  set (r := (o - 1) mod 146097) in *.
  pose proof (Z.div_mod r 36524 ltac:(lia)) as E1.
  pose proof (Z.mod_pos_bound r 36524 ltac:(lia)) as B1.
  assert (A1 : 0 <= r / 36524) by (apply Z.div_pos; lia).
  set (b := r / 36524) in *.
  set (r1 := r mod 36524) in *.
  pose proof (Z.div_mod r1 1461 ltac:(lia)) as E2.
  pose proof (Z.mod_pos_bound r1 1461 ltac:(lia)) as B2.
  assert (A2 : 0 <= r1 / 1461) by (apply Z.div_pos; lia).
  set (c := r1 / 1461) in *.
  set (r2 := r1 mod 1461) in *.
  pose proof (Z.div_mod r2 365 ltac:(lia)) as E3.
  pose proof (Z.mod_pos_bound r2 365 ltac:(lia)) as B3.
  assert (A3 : 0 <= r2 / 365) by (apply Z.div_pos; lia).
  set (e := r2 / 365) in *.
  set (n := r2 mod 365) in *.
  assert (Hb : b <= 4) by lia.
  assert (Hc : c <= 24) by lia.
  assert (He : e <= 4) by lia.
  destruct (Z.eqb_spec e 4) as [E4|E4]; cbn [orb].
  - (* last day of a leap year that closes a cycle of four years *)
    assert (C23 : c <= 23) by lia.
    assert (B3' : b <= 3) by lia.
    replace (a * 400 + 1 + b * 100 + c * 4 + e - 1)
      with (400 * a + 100 * b + 4 * c + 3 + 1) by lia.
    unfold ymd2ord. rewrite month_length_leap, month_offset_leap.
    rewrite days_before_year_cycles, is_leap_cycles by lia.
    destruct (Z.eqb_spec c 24); [lia|].
    change (Z.eqb 3 3) with true. cbn [andb negb orb].
    change (month_offset true 12) with 335.
    change (month_length true 12) with 31. lia.
  - destruct (Z.eqb_spec b 4) as [B4|B4].
    + (* last day of a cycle of four hundred years *)
      assert (c = 0 /\ e = 0) as [-> ->] by lia.
      replace (a * 400 + 1 + b * 100 + 0 * 4 + 0 - 1)
        with (400 * a + 100 * 3 + 4 * 24 + 3 + 1) by lia.
      unfold ymd2ord. rewrite month_length_leap, month_offset_leap.
      rewrite days_before_year_cycles, is_leap_cycles by lia.
      change ((3 =? 3) && (negb (24 =? 24) || (3 =? 3))) with true.
      change (month_offset true 12) with 335.
      change (month_length true 12) with 31. lia.
    + replace (a * 400 + 1 + b * 100 + c * 4 + e)
        with (400 * a + 100 * b + 4 * c + e + 1) by lia.
      pose proof (is_leap_cycles a b c e ltac:(lia) ltac:(lia) ltac:(lia)
                    ltac:(lia)) as L.
      rewrite <- L.
      set (Y := 400 * a + 100 * b + 4 * c + e + 1) in *.
      pose proof (month_day_table (is_leap Y) n) as T.
      unfold month_day_ok in T.
      destruct (month_day (is_leap Y) n) as [m d].
      assert (Hn : 0 <= n < 365 + (if is_leap Y then 1 else 0))
        by (destruct (is_leap Y); lia).
      specialize (T Hn).
      repeat (apply andb_true_iff in T as [T ?]).
      unfold ymd2ord. rewrite month_length_leap, month_offset_leap.
      unfold Y at 1. rewrite days_before_year_cycles by lia.
      repeat match goal with
             | H : (_ <=? _) = true |- _ => apply Z.leb_le in H
             | H : (_ =? _) = true |- _ => apply Z.eqb_eq in H
             end.
      subst Y. lia.
Qed.

Lemma days_before_year_late y : 10000 <= y -> MAXORDINAL <= days_before_year y.
Proof.
  intro H. unfold days_before_year, MAXORDINAL. cbv zeta.
  Z.div_mod_to_equations. lia.
Qed.

Lemma ord2ymd_year_bound o :
  1 <= o <= MAXORDINAL ->
  let '(y, m, d) := ord2ymd o in y <= 9999.
Proof.
  intro H. pose proof (ord2ymd_inverse o ltac:(lia)) as I.
  destruct (ord2ymd o) as [[y m] d]. destruct I as (E & Y & M & D).
  destruct (Z.le_gt_cases y 9999) as [|G]; [assumption|]. exfalso.
  pose proof (days_before_year_late y ltac:(lia)).
  pose proof (days_before_month_nonneg y m M).
  unfold ymd2ord in E. lia.
Qed.

Lemma days_in_month_bound y m : 1 <= m <= 12 -> days_in_month y m <= 31.
Proof.
  intro H. unfold days_in_month.
  assert (C : m = 1 \/ m = 2 \/ m = 3 \/ m = 4 \/ m = 5 \/ m = 6 \/ m = 7
              \/ m = 8 \/ m = 9 \/ m = 10 \/ m = 11 \/ m = 12) by lia.
  repeat (destruct C as [C|C]); subst; simpl;
    destruct (is_leap y); simpl; lia.
Qed.

(** ** The text of a date reads back *)

Lemma digit_of_digit_char k : digit (digit_char k) = Some (k mod 10).
Proof.
  pose proof (Z.mod_pos_bound k 10 ltac:(lia)) as B.
  unfold digit, digit_char.
  rewrite nat_ascii_embedding by lia.
  rewrite Z2Nat.id by lia.
  destruct (Z.leb_spec 48 (48 + k mod 10)); [|lia].
  destruct (Z.leb_spec (48 + k mod 10) 57); [|lia].
  cbn [andb]. f_equal. lia.
Qed.

Lemma list_ascii_app a b :
  list_ascii_of_string (a ++ b)
  = (list_ascii_of_string a ++ list_ascii_of_string b)%list.
Proof. induction a as [|c a IH]; simpl; [reflexivity | now rewrite IH]. Qed.

Lemma scan_year_pad4 y rest :
  0 <= y <= 9999 ->
  scan_year (list_ascii_of_string (pad4 y) ++ rest) = Some (y, rest).
Proof.
  intro H. unfold pad4. cbn [list_ascii_of_string app scan_year].
  rewrite !digit_of_digit_char. do 2 f_equal.
  Z.div_mod_to_equations. lia.
Qed.

Lemma scan_month_pad2 m rest :
  1 <= m <= 12 ->
  scan_month (list_ascii_of_string (pad2 m) ++ "-"%char :: rest)
  = Some (m, "-"%char :: rest).
Proof.
  intro H.
  assert (C : m = 1 \/ m = 2 \/ m = 3 \/ m = 4 \/ m = 5 \/ m = 6 \/ m = 7
              \/ m = 8 \/ m = 9 \/ m = 10 \/ m = 11 \/ m = 12) by lia.
  repeat (destruct C as [C|C]); subst; reflexivity.
Qed.

Lemma scan_day_pad2 d :
  1 <= d <= 31 ->
  scan_day (list_ascii_of_string (pad2 d)) = Some (d, []).
Proof.
  intro H.
  assert (C : d = 1 \/ d = 2 \/ d = 3 \/ d = 4 \/ d = 5 \/ d = 6 \/ d = 7
              \/ d = 8 \/ d = 9 \/ d = 10 \/ d = 11 \/ d = 12 \/ d = 13
              \/ d = 14 \/ d = 15 \/ d = 16 \/ d = 17 \/ d = 18 \/ d = 19
              \/ d = 20 \/ d = 21 \/ d = 22 \/ d = 23 \/ d = 24 \/ d = 25
              \/ d = 26 \/ d = 27 \/ d = 28 \/ d = 29 \/ d = 30 \/ d = 31)
    by lia.
  repeat (destruct C as [C|C]); subst; reflexivity.
Qed.

Lemma scan_date_text y m d :
  0 <= y <= 9999 -> 1 <= m <= 12 -> 1 <= d <= 31 ->
  scan (pad4 y ++ "-" ++ pad2 m ++ "-" ++ pad2 d) = Some (y, m, d, []).
Proof.
  intros Hy Hm Hd. unfold scan.
  rewrite list_ascii_app, scan_year_pad4 by assumption.
  rewrite list_ascii_app. cbn [list_ascii_of_string app expect_dash].
  change (is_dash "-") with true. cbv iota.
  rewrite list_ascii_app, list_ascii_app.
  cbn [list_ascii_of_string app].
  rewrite scan_month_pad2 by assumption.
  cbn [expect_dash]. change (is_dash "-") with true. cbv iota.
  now rewrite scan_day_pad2.
Qed.

(** The text [strftime] writes for a day reads back as the day. *)
Lemma strptime_strftime day :
  1 <= day <= MAXORDINAL -> strptime (strftime day) = Ok day.
Proof.
  intro H. unfold strptime, strftime.
  pose proof (ord2ymd_inverse day ltac:(lia)) as I.
  pose proof (ord2ymd_year_bound day ltac:(lia)) as Y.
  destruct (ord2ymd day) as [[y m] d]. destruct I as (E & Y1 & M & D).
  pose proof (days_in_month_bound y m M).
  rewrite scan_date_text by lia.
  destruct (Z.ltb_spec y 1); [lia|].
  destruct (Z.gtb_spec d (days_in_month y m)); [lia|].
  now rewrite E.
Qed.

End CalendarRoundTrip.

Module DateText.
Import CalendarFacts CalendarRoundTrip.

(** Round trip of a date through its text.  For every day from 1000-01-01
    to 9999-12-31 (the days whose year [strftime] writes with four digits on
    every platform), parsing the text that [format_date] writes gives the
    day back. *)
Theorem parse_format_round_trip :
  forall (day : Z),
    FIRST_PORTABLE <= day <= MAXORDINAL ->
    parse_date (format_date day) = Ok day.
Proof.
  intros day H. unfold FIRST_PORTABLE in H.
  unfold parse_date, format_date. apply strptime_strftime. lia.
Qed.

Lemma parse_format_round_trip_witness :
  FIRST_PORTABLE <= 739676 <= MAXORDINAL
  /\ format_date 739676 = "2026-03-01"
  /\ parse_date (format_date 739676) = Ok 739676.
Proof.
  assert (H : FIRST_PORTABLE <= 739676 <= MAXORDINAL)
    by (split; vm_compute; discriminate).
  split; [exact H|]. split; [reflexivity|].
  exact (parse_format_round_trip 739676 H).
Defined.

End DateText.

(* ===================================================================== *)
(** * Further properties of the date range generator                     *)
(* ===================================================================== *)

Module DateRangeMore.
Import CalendarFacts DateRangeFacts CalendarRoundTrip DateText.

(** Whatever list the generator returns is the list of the kept days. *)
Lemma generate_date_range_returns start_date end_date first last wk wd dates :
  parse_date start_date = Ok first ->
  parse_date end_date = Ok last ->
  generate_date_range start_date end_date wk wd = Ok dates ->
  dates = map format_date (filter (keeps wk wd) (days_between first last))
  /\ (first <= last -> last < MAXORDINAL).
Proof.
  intros S E R. unfold generate_date_range in R. rewrite S, E in R.
  simpl in R.
  assert (P : 1 <= first) by (apply (strptime_positive start_date); exact S).
  destruct (Z.lt_ge_cases last first) as [Lt|Ge].
  - rewrite date_loop_step in R. destruct (Z.leb_spec first last); [lia|].
    injection R as <-. rewrite days_between_empty by lia.
    split; [reflexivity | lia].
  - destruct (Z.lt_ge_cases last MAXORDINAL) as [U|U].
    + rewrite (date_loop_range _ _ last (Z.to_nat (last + 1 - first)))
        in R by (reflexivity || assumption).
      injection R as <-. split; [reflexivity | auto].
    + rewrite (date_loop_overflow _ _ last (Z.to_nat (MAXORDINAL - first)))
        in R by (reflexivity || lia).
      discriminate R.
Qed.

Lemma filter_complement {A} (p : A -> bool) l :
  Permutation (filter p l ++ filter (fun x => negb (p x)) l) l.
Proof.
  induction l as [|x l IH]; simpl; [constructor|].
  destruct (p x); simpl.
  - now constructor.
  - rewrite <- Permutation_middle. now constructor.
Qed.

Lemma sorted_filter {A} (R : A -> A -> Prop) (p : A -> bool) l :
  StronglySorted R l -> StronglySorted R (filter p l).
Proof.
  induction 1 as [|x l S IH F]; simpl; [constructor|].
  destruct (p x); [|exact IH]. constructor; [exact IH|].
  apply Forall_forall. intros y Hy. apply filter_In in Hy as [Hy _].
  revert y Hy. now apply Forall_forall.
Qed.

Lemma keeps_weekdays d : keeps false true d = negb (keeps true false d).
Proof.
  unfold keeps. simpl.
  destruct (Z.geb_spec (weekday d) 5), (Z.ltb_spec (weekday d) 5);
    simpl; try reflexivity; lia.
Qed.

Lemma weekday_shift d i : weekday (d + i) = (weekday d + i) mod 7.
Proof.
  unfold weekday. rewrite Z.add_mod_idemp_l by lia. f_equal. lia.
Qed.

(** Every date the generator returns reads back, in order, as the day it
    was made from: a day of the range that passes the test of the flags.
    (The range starts on 1000-01-01 or later.) *)
Theorem generated_dates_parse_back :
  forall (start_date end_date : string) (first last : Z) (wk wd : bool)
         (dates : list string),
    parse_date start_date = Ok first ->
    parse_date end_date = Ok last ->
    FIRST_PORTABLE <= first ->
    generate_date_range start_date end_date wk wd = Ok dates ->
    exists days,
      map parse_date dates = map Ok days
      /\ days = filter (keeps wk wd) (days_between first last)
      /\ Forall (fun d => first <= d <= last /\ keeps wk wd d = true) days
      /\ StronglySorted Z.lt days.
Proof.
  intros start_date end_date first last wk wd dates S E P R.
  destruct (generate_date_range_returns _ _ _ _ _ _ _ S E R) as [-> U].
  exists (filter (keeps wk wd) (days_between first last)).
  split; [|split; [reflexivity|split]].
  - rewrite map_map. apply map_ext_in. intros d Hd.
    apply filter_In in Hd as [Hd _]. apply days_between_In in Hd.
    apply strptime_strftime. unfold FIRST_PORTABLE in *. lia.
  - apply Forall_forall. intros d Hd. apply filter_In in Hd as [Hd K].
    apply days_between_In in Hd. auto.
  - apply sorted_filter, days_between_sorted.
Qed.

Lemma generated_dates_parse_back_witness :
  parse_date "2026-03-06" = Ok 739681
  /\ parse_date "2026-03-09" = Ok 739684
  /\ FIRST_PORTABLE <= 739681
  /\ generate_date_range "2026-03-06" "2026-03-09" true false
     = Ok ["2026-03-07"; "2026-03-08"]
  /\ map parse_date ["2026-03-07"; "2026-03-08"] = map Ok [739682; 739683].
Proof.
  assert (S : parse_date "2026-03-06" = Ok 739681) by reflexivity.
  assert (E : parse_date "2026-03-09" = Ok 739684) by reflexivity.
  assert (P : FIRST_PORTABLE <= 739681) by (vm_compute; discriminate).
  assert (R : generate_date_range "2026-03-06" "2026-03-09" true false
              = Ok ["2026-03-07"; "2026-03-08"]) by reflexivity.
  repeat (split; [assumption|]).
  destruct (generated_dates_parse_back _ _ _ _ _ _ _ S E P R)
    as (days & M & -> & _).
  exact M.
Defined.

(** A range whose start is after its end gives the empty list, whatever the
    flags; it is not an error. *)
Theorem generate_date_range_reversed :
  forall (start_date end_date : string) (first last : Z) (wk wd : bool),
    parse_date start_date = Ok first ->
    parse_date end_date = Ok last ->
    last < first ->
    generate_date_range start_date end_date wk wd = Ok [].
Proof.
  intros start_date end_date first last wk wd S E L.
  unfold generate_date_range. rewrite S, E. simpl.
  rewrite date_loop_step. now destruct (Z.leb_spec first last); [lia|].
Qed.

Lemma generate_date_range_reversed_witness :
  parse_date "2026-03-07" = Ok 739682
  /\ parse_date "2026-03-01" = Ok 739676
  /\ 739676 < 739682
  /\ generate_date_range "2026-03-07" "2026-03-01" true true = Ok [].
Proof.
  assert (S : parse_date "2026-03-07" = Ok 739682) by reflexivity.
  assert (E : parse_date "2026-03-01" = Ok 739676) by reflexivity.
  assert (L : 739676 < 739682) by reflexivity.
  repeat (split; [assumption|]).
  exact (generate_date_range_reversed _ _ _ _ true true S E L).
Defined.

(** The weekend dates and the weekday dates of a range are, together, the
    dates of the range: the two filtered calls return lists that partition
    the list of the unfiltered call, no date being in both.  (The range
    starts on 1000-01-01 or later and ends before 9999-12-31.) *)
Theorem weekends_weekdays_partition :
  forall (start_date end_date : string) (first last : Z),
    parse_date start_date = Ok first ->
    parse_date end_date = Ok last ->
    FIRST_PORTABLE <= first ->
    last < MAXORDINAL ->
    exists weekends weekdays every,
      generate_date_range start_date end_date true false = Ok weekends
      /\ generate_date_range start_date end_date false true = Ok weekdays
      /\ generate_date_range start_date end_date false false = Ok every
      /\ Permutation (weekends ++ weekdays) every
      /\ (List.length weekends + List.length weekdays)%nat = List.length every
      /\ (forall date, In date weekends -> ~ In date weekdays).
Proof.
  intros start_date end_date first last S E P U.
  assert (P1 : 1 <= first) by (apply (strptime_positive start_date); exact S).
  assert (G : forall wk wd,
             generate_date_range start_date end_date wk wd
             = Ok (map format_date
                     (filter (keeps wk wd) (days_between first last)))).
  { intros wk wd. unfold generate_date_range. rewrite S, E. simpl.
    now rewrite (date_loop_range _ _ last (Z.to_nat (last + 1 - first)))
      by (reflexivity || assumption). }
  set (days := days_between first last) in *.
  assert (D : filter (keeps false true) days
              = filter (fun d => negb (keeps true false d)) days).
  { apply filter_ext. intro d. apply keeps_weekdays. }
  assert (A : filter (keeps false false) days = days).
  { apply filter_all. intro d. reflexivity. }
  assert (Perm : Permutation
                   (map format_date (filter (keeps true false) days)
                    ++ map format_date (filter (keeps false true) days))
                   (map format_date days)).
  { rewrite <- map_app, D. apply Permutation_map, filter_complement. }
  exists (map format_date (filter (keeps true false) days)),
         (map format_date (filter (keeps false true) days)),
         (map format_date days).
  split; [apply G|]. split; [apply G|].
  split; [rewrite G, A; reflexivity|].
  split; [exact Perm|]. split.
  - rewrite <- length_app. now apply Permutation_length.
  - intros date Hw Hd.
    apply in_map_iff in Hw as (d1 & F1 & I1).
    apply in_map_iff in Hd as (d2 & F2 & I2).
    apply filter_In in I1 as [R1 K1]. apply filter_In in I2 as [R2 K2].
    apply days_between_In in R1, R2.
    assert (d1 = d2).
    { pose proof (strptime_strftime d1) as T1.
      pose proof (strptime_strftime d2) as T2.
      unfold FIRST_PORTABLE in P. fold (format_date d1) in T1.
      fold (format_date d2) in T2. rewrite F1 in T1. rewrite F2 in T2.
      specialize (T1 ltac:(lia)). specialize (T2 ltac:(lia)). congruence. }
    subst d2. rewrite keeps_weekdays, K1 in K2. discriminate K2.
Qed.

Lemma weekends_weekdays_partition_witness :
  parse_date "2026-03-06" = Ok 739681
  /\ parse_date "2026-03-09" = Ok 739684
  /\ FIRST_PORTABLE <= 739681
  /\ 739684 < MAXORDINAL
  /\ exists weekends weekdays every,
       generate_date_range "2026-03-06" "2026-03-09" true false = Ok weekends
       /\ generate_date_range "2026-03-06" "2026-03-09" false true = Ok weekdays
       /\ generate_date_range "2026-03-06" "2026-03-09" false false = Ok every
       /\ Permutation (weekends ++ weekdays) every.
Proof.
  assert (S : parse_date "2026-03-06" = Ok 739681) by reflexivity.
  assert (E : parse_date "2026-03-09" = Ok 739684) by reflexivity.
  assert (P : FIRST_PORTABLE <= 739681) by (vm_compute; discriminate).
  assert (U : 739684 < MAXORDINAL) by reflexivity.
  repeat (split; [assumption|]).
  destruct (weekends_weekdays_partition _ _ _ _ S E P U)
    as (we & wd & ev & H1 & H2 & H3 & H4 & _).
  exists we, wd, ev. auto.
Defined.

(** Any seven consecutive days hold exactly two weekend days: over a range
    of one week the weekends-only call returns two dates and the
    weekdays-only call five, whatever the day the range starts on. *)
Theorem one_week_has_two_weekend_days :
  forall (start_date end_date : string) (first last : Z),
    parse_date start_date = Ok first ->
    parse_date end_date = Ok last ->
    last = first + 6 ->
    last < MAXORDINAL ->
    exists weekends weekdays,
      generate_date_range start_date end_date true false = Ok weekends
      /\ generate_date_range start_date end_date false true = Ok weekdays
      /\ List.length weekends = 2%nat
      /\ List.length weekdays = 5%nat.
Proof.
  intros start_date end_date first last S E L U.
  assert (P1 : 1 <= first) by (apply (strptime_positive start_date); exact S).
  assert (G : forall wk wd,
             generate_date_range start_date end_date wk wd
             = Ok (map format_date
                     (filter (keeps wk wd) (days_between first last)))).
  { intros wk wd. unfold generate_date_range. rewrite S, E. simpl.
    now rewrite (date_loop_range _ _ last (Z.to_nat (last + 1 - first)))
      by (reflexivity || assumption). }
  exists (map format_date (filter (keeps true false) (days_between first last))),
         (map format_date (filter (keeps false true) (days_between first last))).
  split; [apply G|]. split; [apply G|].
  rewrite !length_map. subst last. unfold days_between.
  replace (first + 6 - first + 1) with 7 by lia.
  change (Z.to_nat 7) with 7%nat. cbn [seq map Z.of_nat Pos.of_succ_nat
                                        Pos.succ].
  cbn [filter]. unfold keeps. cbn [andb negb].
  rewrite !weekday_shift.
  pose proof (weekday_range first) as R.
  assert (C : weekday first = 0 \/ weekday first = 1 \/ weekday first = 2
              \/ weekday first = 3 \/ weekday first = 4 \/ weekday first = 5
              \/ weekday first = 6) by lia.
  repeat (destruct C as [C|C]); rewrite C; split; reflexivity.
Qed.

Lemma one_week_has_two_weekend_days_witness :
  parse_date "2026-03-01" = Ok 739676
  /\ parse_date "2026-03-07" = Ok 739682
  /\ 739682 = 739676 + 6
  /\ 739682 < MAXORDINAL
  /\ exists weekends weekdays,
       generate_date_range "2026-03-01" "2026-03-07" true false = Ok weekends
       /\ generate_date_range "2026-03-01" "2026-03-07" false true = Ok weekdays
       /\ List.length weekends = 2%nat
       /\ List.length weekdays = 5%nat.
Proof.
  assert (S : parse_date "2026-03-01" = Ok 739676) by reflexivity.
  assert (E : parse_date "2026-03-07" = Ok 739682) by reflexivity.
  assert (L : 739682 = 739676 + 6) by reflexivity.
  assert (U : 739682 < MAXORDINAL) by reflexivity.
  repeat (split; [assumption|]).
  exact (one_week_has_two_weekend_days _ _ _ _ S E L U).
Defined.

End DateRangeMore.

(* ===================================================================== *)
(** * Further properties of the price comparator                         *)
(* ===================================================================== *)

Module RankingFacts.
Import ComparatorFacts.

Lemma ext_lt_irrefl a : ext_lt a a = false.
Proof.
  destruct a as [p|]; simpl; [|reflexivity].
  apply Qgtb_false. apply Qle_refl.
Qed.

(** "Not smaller" is transitive on the second components... *)
Lemma ext_ge_trans a b c :
  ext_lt b a = false -> ext_lt c b = false -> ext_lt c a = false.
Proof.
  destruct a as [pa|], b as [pb|], c as [pc|]; simpl;
    try discriminate; try reflexivity.
  intros H1 H2. apply Qgtb_false in H1, H2. apply Qgtb_false.
  now apply (Qle_trans _ pb).
Qed.

(** ... and on the keys. *)
Lemma key_ge_trans a b c :
  key_lt b a = false -> key_lt c b = false -> key_lt c a = false.
Proof.
  destruct a as [ba ea], b as [bb eb], c as [bc ec]. unfold key_lt. simpl.
  destruct ba, bb, bc; simpl; try discriminate; try reflexivity;
    apply ext_ge_trans.
Qed.

Lemma key_lt_irrefl a : key_lt a a = false.
Proof.
  destruct a as [b e]. unfold key_lt. simpl.
  rewrite Bool.eqb_reflx. apply ext_lt_irrefl.
Qed.

Lemma ext_lt_asym a b : ext_lt a b = true -> ext_lt b a = false.
Proof.
  destruct a as [p|], b as [q|]; simpl; try discriminate; try reflexivity.
  intro H. apply Qgtb_true in H. apply Qgtb_false. now apply Qlt_le_weak.
Qed.

Lemma key_lt_asym a b : key_lt a b = true -> key_lt b a = false.
Proof.
  destruct a as [ba ea], b as [bb eb]. unfold key_lt. simpl.
  destruct ba, bb; simpl; try discriminate; try reflexivity; apply ext_lt_asym.
Qed.

(** The first entry of the sorted list has a key no entry is below. *)
Lemma sorted_head_least : forall l h t,
  sort_results l = h :: t ->
  forall x, In x l -> key_lt (sort_key x) (sort_key h) = false.
Proof.
  induction l as [|y l IH]; intros h t H x Hx; [contradiction|].
  simpl in H. destruct (sort_results l) as [|h' t'] eqn:S.
  - simpl in H. injection H as <- <-.
    assert (l = []).
    { apply Permutation_nil. rewrite <- S. apply sort_results_perm. }
    subst l. destruct Hx as [<-|[]]. apply key_lt_irrefl.
  - simpl in H. destruct (key_lt (sort_key h') (sort_key y)) eqn:K;
      injection H as <- <-.
    + destruct Hx as [<-|Hx]; [now apply key_lt_asym|].
      now apply (IH h' t').
    + destruct Hx as [<-|Hx]; [apply key_lt_irrefl|].
      apply (key_ge_trans _ (sort_key h')); [exact K|].
      now apply (IH h' t').
Qed.

Lemma priced_first_insert x l :
  StronglySorted priced_first l -> StronglySorted priced_first (insert x l).
Proof.
  induction 1 as [|y l S IH F]; simpl; [repeat constructor|].
  destruct (key_lt (sort_key y) (sort_key x)) eqn:K.
  - constructor; [exact IH|].
    eapply Permutation_Forall; [symmetry; apply insert_perm|].
    constructor; [|exact F].
    unfold priced_first, has_price, key_lt, sort_key in *. simpl in K.
    destruct (price y), (price x); simpl in *; auto; discriminate.
  - assert (R : priced_first x y).
    { unfold priced_first, has_price, key_lt, sort_key in *. simpl in K.
      destruct (price y), (price x); simpl in *; auto; discriminate. }
    constructor; [now constructor|]. constructor; [exact R|].
    eapply Forall_impl; [|exact F]. intros z Hz Pz. apply R, Hz, Pz.
Qed.

Lemma ranked_with_insert k x l :
  ranked_with k (insert x l) = ranked_with k (x :: l).
Proof.
  unfold ranked_with. induction l as [|y l IH]; [reflexivity|].
  cbn [insert]. destruct (key_lt (sort_key y) (sort_key x)) eqn:K;
    [|reflexivity].
  cbn [filter] in *. rewrite IH.
  destruct (same_key k (sort_key x)) eqn:Sx; [|reflexivity].
  destruct (same_key k (sort_key y)) eqn:Sy; [|reflexivity].
  exfalso. unfold same_key in Sx, Sy.
  apply andb_true_iff in Sx as [X1 X2]. apply andb_true_iff in Sy as [Y1 Y2].
  apply negb_true_iff in X1, X2, Y1, Y2.
  rewrite (key_ge_trans (sort_key x) k (sort_key y) X1 Y2) in K.
  discriminate K.
Qed.

Lemma ranked_with_sort k l :
  ranked_with k (sort_results l) = ranked_with k l.
Proof.
  induction l as [|x l IH]; [reflexivity|].
  simpl sort_results. rewrite ranked_with_insert.
  unfold ranked_with in *. cbn [filter]. now rewrite IH.
Qed.

End RankingFacts.

Module ComparatorMore.
Import CalendarFacts DateRangeFacts ComparatorFacts RankingFacts.
Import CalendarRoundTrip DateRangeMore Samples.

Lemma Qnonzero_true p : Qnonzero p = true <-> ~ (p == 0)%Q.
Proof.
  unfold Qnonzero. rewrite negb_true_iff. split.
  - intros H E. apply Qeq_bool_iff in E. congruence.
  - intro H. destruct (Qeq_bool p 0) eqn:E; [|reflexivity].
    apply Qeq_bool_iff in E. contradiction.
Qed.

Lemma Qnonzero_false p : Qnonzero p = false <-> (p == 0)%Q.
Proof.
  unfold Qnonzero. rewrite negb_false_iff. apply Qeq_bool_iff.
Qed.

Lemma compare_dates_results float_of_str search origin destination dates
      return_after_days currency out :
  compare_dates float_of_str search origin destination dates
    return_after_days currency = Ok out ->
  exists made,
    collect float_of_str search return_after_days currency 0 dates [] = Ok made
    /\ results out = sort_results made
    /\ cheapest out = match sort_results made with
                      | first :: _ =>
                          if price_truthy first then Some first else None
                      | [] => None
                      end.
Proof.
  unfold compare_dates.
  destruct (collect float_of_str search return_after_days currency 0 dates [])
    as [made|]; simpl; [|discriminate].
  intros [= <-]. exists made. auto.
Qed.

(** The return date of a round trip is the text of the day
    [return_after_days] days after the departure, and reads back as that
    day.  (That day is between 1000-01-01 and 9999-12-31.) *)
Theorem return_date_round_trip :
  forall (departure : string) (day n : Z),
    parse_date departure = Ok day ->
    n <> 0 ->
    Z.abs n <= 999999999 ->
    FIRST_PORTABLE <= day + n <= MAXORDINAL ->
    return_date_for (Some n) departure = Ok (Some (format_date (day + n)))
    /\ parse_date (format_date (day + n)) = Ok (day + n).
Proof.
  intros departure day n P N A R. split.
  - unfold return_date_for. destruct (Z.eqb_spec n 0); [contradiction|].
    rewrite P. simpl. unfold add_days.
    destruct (Z.gtb_spec (Z.abs n) 999999999); [lia|].
    unfold FIRST_PORTABLE in R.
    destruct (Z.ltb_spec 0 (day + n)); [|lia].
    destruct (Z.leb_spec (day + n) MAXORDINAL); [|lia].
    reflexivity.
  - unfold FIRST_PORTABLE in R. apply strptime_strftime. lia.
Qed.

Lemma return_date_round_trip_witness :
  parse_date "2026-03-15" = Ok 739690
  /\ 7 <> 0
  /\ Z.abs 7 <= 999999999
  /\ FIRST_PORTABLE <= 739690 + 7 <= MAXORDINAL
  /\ return_date_for (Some 7) "2026-03-15" = Ok (Some "2026-03-22").
Proof.
  assert (P : parse_date "2026-03-15" = Ok 739690) by reflexivity.
  assert (N : 7 <> 0) by discriminate.
  assert (A : Z.abs 7 <= 999999999) by (vm_compute; discriminate).
  assert (R : FIRST_PORTABLE <= 739690 + 7 <= MAXORDINAL)
    by (split; vm_compute; discriminate).
  repeat (split; [assumption|]).
  exact (proj1 (return_date_round_trip "2026-03-15" 739690 7 P N A R)).
Defined.

(** In the list [compare_dates] returns, no entry without a price comes
    before an entry with one; this holds for every batch, prices of zero
    included. *)
Theorem absent_prices_last :
  forall (float_of_str : string -> result Q) (search : searcher)
         (origin destination : string) (dates : list string)
         (return_after_days : option Z) (currency : string) (out : comparison),
    compare_dates float_of_str search origin destination dates
      return_after_days currency = Ok out ->
    StronglySorted priced_first (results out).
Proof.
  intros fos search origin destination dates ra currency out H.
  destruct (compare_dates_results _ _ _ _ _ _ _ _ H) as (made & _ & -> & _).
  clear. induction made as [|x l IH]; simpl; [constructor|].
  now apply priced_first_insert.
Qed.

Lemma absent_prices_last_witness :
  exists out,
    compare_dates decimal ranking_search "LHR" "BCN" five_dates None "GBP"
    = Ok out
    /\ StronglySorted priced_first (results out).
Proof.
  destruct (compare_dates decimal ranking_search "LHR" "BCN" five_dates None
              "GBP") as [out|] eqn:E; [|discriminate E].
  exists out. split; [reflexivity|].
  exact (absent_prices_last _ _ _ _ _ _ _ _ E).
Defined.

(** The [cheapest] entry, when there is one, is an entry of the returned
    list with a price that is not zero, and no entry of the list has a lower
    price that is not zero.  There is none exactly when every price in the
    list is absent or zero. *)
Theorem cheapest_is_least :
  forall (float_of_str : string -> result Q) (search : searcher)
         (origin destination : string) (dates : list string)
         (return_after_days : option Z) (currency : string) (out : comparison),
    compare_dates float_of_str search origin destination dates
      return_after_days currency = Ok out ->
    match cheapest out with
    | Some best =>
        In best (results out)
        /\ exists p,
             price best = Some p /\ ~ (p == 0)%Q
             /\ forall x q, In x (results out) -> price x = Some q ->
                            ~ (q == 0)%Q -> (p <= q)%Q
    | None =>
        forall x q, In x (results out) -> price x = Some q -> (q == 0)%Q
    end.
Proof.
  intros fos search origin destination dates ra currency out H.
  destruct (compare_dates_results _ _ _ _ _ _ _ _ H) as (made & _ & -> & ->).
  destruct (sort_results made) as [|h t] eqn:S; [intros x q []|].
  assert (Least : forall x, In x (h :: t) ->
                            key_lt (sort_key x) (sort_key h) = false).
  { intros x Hx. apply (sorted_head_least made h t S).
    apply (Permutation_in x (sort_results_perm made)). now rewrite S. }
  unfold price_truthy. destruct (price h) as [p|] eqn:Ph.
  - destruct (Qnonzero p) eqn:Np.
    + split; [now left|]. exists p. split; [exact Ph|].
      split; [now apply Qnonzero_true|].
      intros x q Hx Px Nq. specialize (Least x Hx).
      unfold key_lt, sort_key in Least. rewrite Px, Ph, Np in Least.
      apply Qnonzero_true in Nq. rewrite Nq in Least. simpl in Least.
      now apply Qgtb_false in Least.
    + intros x q Hx Px. specialize (Least x Hx).
      unfold key_lt, sort_key in Least. rewrite Px, Ph, Np in Least.
      destruct (Qnonzero q) eqn:Nq; [discriminate Least|].
      now apply Qnonzero_false.
  - intros x q Hx Px. specialize (Least x Hx).
    unfold key_lt, sort_key in Least. rewrite Px, Ph in Least.
    simpl in Least. discriminate Least.
Qed.

Lemma cheapest_is_least_witness :
  exists out best,
    compare_dates decimal ranking_search "LHR" "BCN" five_dates None "GBP"
    = Ok out
    /\ cheapest out = Some best
    /\ price best = Some 95%Q
    /\ In best (results out).
Proof.
  destruct (compare_dates decimal ranking_search "LHR" "BCN" five_dates None
              "GBP") as [out|] eqn:E; [|discriminate E].
  pose proof (cheapest_is_least _ _ _ _ _ _ _ _ E) as C.
  vm_compute in E. injection E as <-.
  cbn [cheapest] in C. destruct C as [I _].
  eexists _, _. split; [reflexivity|]. split; [reflexivity|].
  split; [reflexivity | exact I].
Defined.

(** The sort is stable: the entries that rank the same (the same price, or
    no usable price) come in the returned list in the order of their dates. *)
Theorem ties_keep_date_order :
  forall (float_of_str : string -> result Q) (search : searcher)
         (origin destination : string) (dates : list string)
         (return_after_days : option Z) (currency : string)
         (rets : list (option string)) (out : comparison),
    return_dates return_after_days dates = Ok rets ->
    compare_dates float_of_str search origin destination dates
      return_after_days currency = Ok out ->
    forall k,
      ranked_with k (results out)
      = ranked_with k (per_date float_of_str search currency 0 dates rets).
Proof.
  intros fos search origin destination dates ra currency rets out R H k.
  destruct (compare_dates_results _ _ _ _ _ _ _ _ H) as (made & C & -> & _).
  rewrite (collect_per_date _ _ _ _ dates rets 0%nat [] R) in C.
  injection C as <-. simpl. apply ranked_with_sort.
Qed.

Lemma ties_keep_date_order_witness :
  return_dates None five_dates = Ok [None; None; None; None; None]
  /\ exists out,
       compare_dates decimal ranking_search "LHR" "BCN" five_dates None "GBP"
       = Ok out
       /\ map departure_date (ranked_with (true, Inf) (results out))
          = ["2026-03-16"; "2026-03-18"].
Proof.
  assert (R : return_dates None five_dates = Ok [None; None; None; None; None])
    by reflexivity.
  split; [exact R|].
  destruct (compare_dates decimal ranking_search "LHR" "BCN" five_dates None
              "GBP") as [out|] eqn:E; [|discriminate E].
  exists out. split; [reflexivity|].
  rewrite (ties_keep_date_order _ _ _ _ _ _ _ _ _ R E (true, Inf)).
  reflexivity.
Defined.

(** The entry made from a search that found offers: the price is the
    [grandTotal] of the first offer, else its [total], else 0; the number of
    stops is the number of segments of the first itinerary less one; the
    carrier is the name the dictionary has for the first segment's carrier
    code, else the code itself; [offers_found] counts the offers. *)
Theorem first_offer_entry :
  forall (float_of_str : string -> result Q) (currency departure : string)
         (ret : option string) (dm om pm im sm dd cm : dict)
         (others itineraries segments : list json) (code : string) (total : Q),
    lookup "data" dm = Some (JArr (JObj om :: others)) ->
    lookup "price" om = Some (JObj pm) ->
    float float_of_str
      match lookup "grandTotal" pm with
      | Some g => g
      | None => match lookup "total" pm with Some t => t | None => JNum 0 end
      end = Ok total ->
    lookup "itineraries" om = Some (JArr (JObj im :: itineraries)) ->
    lookup "segments" im = Some (JArr (JObj sm :: segments)) ->
    lookup "carrierCode" sm = Some (JStr code) ->
    lookup "dictionaries" dm = Some (JObj dd) ->
    lookup "carriers" dd = Some (JObj cm) ->
    check float_of_str (Ok (JObj dm)) currency departure ret
    = {| departure_date := departure;
         return_date := ret;
         price := Some total;
         Comparator.currency :=
           match lookup "currency" pm with Some c => c | None => JStr currency end;
         stops := Some (Z.of_nat (List.length (JObj sm :: segments)) - 1);
         carrier :=
           Some match lookup code cm with Some name => name | None => JStr code end;
         carrier_code := Some (JStr code);
         offers_found := Z.of_nat (List.length (JObj om :: others));
         error := None |}.
Proof.
  intros fos currency departure ret dm om pm im sm dd cm others itineraries
         segments code total D P F I S C Di Ca.
  unfold check, attempt, priced. cbn [bind get index0 truthy len].
  rewrite D. cbn [bind get index0 truthy len]. rewrite P.
  cbn [bind get]. rewrite F. cbn [bind].
  rewrite I. cbn [bind get index0 truthy]. rewrite S.
  cbn [bind get index0 truthy len]. rewrite Di. cbn [bind get]. rewrite Ca.
  cbn [bind get]. rewrite C. cbn [bind get_by]. reflexivity.
Qed.

Lemma first_offer_entry_witness :
  check decimal (found "120.00") "GBP" "2026-03-16" None = paid_entry.
Proof.
  exact (first_offer_entry decimal "GBP" "2026-03-16" None
           [("data", JArr [offer "120.00"]);
            ("dictionaries",
             JObj [("carriers", JObj [("BA", JStr "BRITISH AIRWAYS")])])]
           [("price", JObj [("currency", JStr "GBP"); ("total", JStr "120.00")]);
            ("itineraries", JArr [itinerary])]
           [("currency", JStr "GBP"); ("total", JStr "120.00")]
           [("segments", JArr [JObj [("carrierCode", JStr "BA")]])]
           [("carrierCode", JStr "BA")]
           [("carriers", JObj [("BA", JStr "BRITISH AIRWAYS")])]
           [("BA", JStr "BRITISH AIRWAYS")]
           [] [] [] "BA" 120
           eq_refl eq_refl eq_refl eq_refl eq_refl eq_refl eq_refl eq_refl).
Defined.

(** An offer that has no itineraries is still priced: its entry has -1
    stops and the empty carrier code and name. *)
Theorem offer_without_itineraries :
  forall (float_of_str : string -> result Q) (currency departure : string)
         (ret : option string) (dm om pm : dict) (others : list json)
         (total : Q),
    lookup "data" dm = Some (JArr (JObj om :: others)) ->
    lookup "price" om = Some (JObj pm) ->
    float float_of_str
      match lookup "grandTotal" pm with
      | Some g => g
      | None => match lookup "total" pm with Some t => t | None => JNum 0 end
      end = Ok total ->
    lookup "itineraries" om = None ->
    lookup "dictionaries" dm = None ->
    let made := check float_of_str (Ok (JObj dm)) currency departure ret in
    price made = Some total
    /\ stops made = Some (-1)
    /\ carrier_code made = Some (JStr EmptyString)
    /\ carrier made = Some (JStr EmptyString)
    /\ error made = None.
Proof.
  intros fos currency departure ret dm om pm others total D P F I Di.
  unfold check, attempt, priced. cbn [bind get index0 truthy len].
  rewrite D. cbn [bind get index0 truthy len]. rewrite P.
  cbn [bind get]. rewrite F. cbn [bind].
  rewrite I. cbn [bind get index0 truthy len]. rewrite Di.
  cbn [bind get get_by lookup]. cbv zeta. repeat split.
Qed.

Lemma offer_without_itineraries_witness :
  stops (check decimal (Ok bare_payload) "GBP" "2026-03-16" None) = Some (-1).
Proof.
  destruct (offer_without_itineraries decimal "GBP" "2026-03-16" None
              [("data", JArr [bare_offer])]
              [("price", JObj [("total", JStr "80.00")])]
              [("total", JStr "80.00")] [] 80
              eq_refl eq_refl eq_refl eq_refl eq_refl)
    as (_ & H & _).
  exact H.
Defined.

Lemma return_dates_of_days return_after_days last : forall days,
  match return_after_days with
  | None => True
  | Some n => 0 <= n <= 999999999 /\ last + n <= MAXORDINAL
  end ->
  Forall (fun d => FIRST_PORTABLE <= d <= last /\ d <= MAXORDINAL) days ->
  exists rets, return_dates return_after_days (map format_date days) = Ok rets.
Proof.
  intros days A F. induction F as [|d days [[L U] M] F IH]; simpl.
  - eexists. reflexivity.
  - destruct IH as [rets IH]. rewrite IH.
    assert (R : exists r, return_date_for return_after_days (format_date d)
                          = Ok r).
    { destruct return_after_days as [n|]; [|eexists; reflexivity].
      destruct A as [[A0 A1] A2]. unfold return_date_for.
      destruct (Z.eqb_spec n 0); [eexists; reflexivity|].
      unfold parse_date, format_date.
      rewrite strptime_strftime by (unfold FIRST_PORTABLE in *; lia). simpl.
      unfold add_days, FIRST_PORTABLE in *.
      destruct (Z.gtb_spec (Z.abs n) 999999999); [lia|].
      destruct (Z.ltb_spec 0 (d + n)); [|lia].
      destruct (Z.leb_spec (d + n) MAXORDINAL); [|lia].
      eexists. reflexivity. }
    destruct R as [r R]. rewrite R. simpl. eexists. reflexivity.
Qed.

(** The range mode of the script: the dates that [generate_date_range]
    returns can always be compared.  Whatever the searches do, and also for
    a round trip whose return dates stay within the calendar,
    [compare_dates] on the generated dates does not raise and returns one
    entry per generated date. *)
Theorem range_comparison_never_raises :
  forall (float_of_str : string -> result Q) (search : searcher)
         (origin destination start_date end_date : string) (first last : Z)
         (wk wd : bool) (dates : list string)
         (return_after_days : option Z) (currency : string),
    parse_date start_date = Ok first ->
    parse_date end_date = Ok last ->
    FIRST_PORTABLE <= first ->
    generate_date_range start_date end_date wk wd = Ok dates ->
    match return_after_days with
    | None => True
    | Some n => 0 <= n <= 999999999 /\ last + n <= MAXORDINAL
    end ->
    exists out,
      compare_dates float_of_str search origin destination dates
        return_after_days currency = Ok out
      /\ List.length (results out) = List.length dates.
Proof.
  intros fos search origin destination start_date end_date first last wk wd
         dates ra currency S E P G A.
  destruct (generate_date_range_returns _ _ _ _ _ _ _ S E G) as [-> U].
  destruct (return_dates_of_days ra last
              (filter (keeps wk wd) (days_between first last)) A) as [rets R].
  { apply Forall_forall. intros d Hd. apply filter_In in Hd as [Hd _].
    apply days_between_In in Hd. lia. }
  unfold compare_dates.
  rewrite (collect_per_date _ _ _ _ _ rets 0%nat [] R). simpl.
  eexists. split; [reflexivity|]. simpl.
  rewrite sort_results_length. apply per_date_length.
  now apply (return_dates_length ra).
Qed.

Lemma range_comparison_never_raises_witness :
  parse_date "2026-03-15" = Ok 739690
  /\ parse_date "2026-03-19" = Ok 739694
  /\ FIRST_PORTABLE <= 739690
  /\ generate_date_range "2026-03-15" "2026-03-19" false false = Ok five_dates
  /\ (0 <= 7 <= 999999999 /\ 739694 + 7 <= MAXORDINAL)
  /\ exists out,
       compare_dates decimal ranking_search "LHR" "BCN" five_dates (Some 7) "GBP"
       = Ok out
       /\ List.length (results out) = List.length five_dates.
Proof.
  assert (S : parse_date "2026-03-15" = Ok 739690) by reflexivity.
  assert (E : parse_date "2026-03-19" = Ok 739694) by reflexivity.
  assert (P : FIRST_PORTABLE <= 739690) by (vm_compute; discriminate).
  assert (G : generate_date_range "2026-03-15" "2026-03-19" false false
              = Ok five_dates) by reflexivity.
  assert (A : 0 <= 7 <= 999999999 /\ 739694 + 7 <= MAXORDINAL)
    by (repeat split; vm_compute; discriminate).
  repeat (split; [assumption|]).
  exact (range_comparison_never_raises decimal ranking_search "LHR" "BCN"
           _ _ _ _ _ _ _ (Some 7) "GBP" S E P G A).
Defined.

End ComparatorMore.

(* ===================================================================== *)
(** * Properties of the duration formatter                               *)
(* ===================================================================== *)

Module PyStrFacts.
Import PyStr.

Lemma contains_single a s : contains [a] s = existsb (Ascii.eqb a) s.
Proof.
  induction s as [|c s IH]; [reflexivity|].
  cbn [contains prefix existsb]. rewrite IH.
  now rewrite andb_true_r.
Qed.

Lemma absent_filter a s :
  filter (Ascii.eqb a) s = [] -> existsb (Ascii.eqb a) s = false.
Proof.
  induction s as [|c s IH]; [reflexivity|]. simpl.
  destruct (Ascii.eqb a c); [discriminate | exact IH].
Qed.

(** Replacing by nothing only removes characters. *)
Lemma replace_from_subset old c : forall s skip,
  In c (replace_from old [] skip s) -> In c s.
Proof.
  induction s as [|d s IH]; intros skip H; [contradiction|].
  cbn [replace_from] in H. destruct skip as [|k].
  - destruct (prefix old (d :: s)).
    + right. exact (IH _ H).
    + destruct H as [<-|H]; [now left | right; exact (IH _ H)].
  - right. exact (IH _ H).
Qed.

Lemma replace_two_absent a b s :
  existsb (Ascii.eqb a) s = false -> replace_from [a; b] [] 0 s = s.
Proof.
  induction s as [|c s IH]; [reflexivity|]. simpl existsb.
  intro H. apply orb_false_iff in H as [H1 H2].
  cbn [replace_from prefix]. rewrite H1. cbn [andb]. now rewrite IH.
Qed.

Lemma replace_single a s :
  replace_from [a] [] 0 s = filter (fun c => negb (Ascii.eqb a c)) s.
Proof.
  induction s as [|c s IH]; [reflexivity|].
  cbn [replace_from prefix filter List.length Nat.sub app].
  rewrite andb_true_r. destruct (Ascii.eqb a c); cbn [negb]; now rewrite IH.
Qed.

Lemma split_single_none a : forall s cur,
  existsb (Ascii.eqb a) s = false -> split_from [a] 0 cur s = [(cur ++ s)%list].
Proof.
  induction s as [|c s IH]; intros cur H.
  - now rewrite app_nil_r.
  - simpl existsb in H. apply orb_false_iff in H as [H1 H2].
    cbn [split_from prefix]. rewrite H1. cbn [andb].
    rewrite IH by assumption. now rewrite <- app_assoc.
Qed.

Lemma split_single_at a tail : forall h cur,
  existsb (Ascii.eqb a) h = false ->
  split_from [a] 0 cur (h ++ a :: tail)
  = (cur ++ h)%list :: split_from [a] 0 [] tail.
Proof.
  induction h as [|c h IH]; intros cur H.
  - cbn [app split_from prefix List.length Nat.sub].
    rewrite Ascii.eqb_refl. cbn [andb]. now rewrite app_nil_r.
  - simpl existsb in H. apply orb_false_iff in H as [H1 H2].
    cbn [app split_from prefix]. rewrite H1. cbn [andb].
    rewrite IH by assumption. now rewrite <- app_assoc.
Qed.

(** Each occurrence of the separator adds a piece. *)
Lemma split_single_length a : forall s cur,
  List.length (split_from [a] 0 cur s)
  = S (List.length (filter (Ascii.eqb a) s)).
Proof.
  induction s as [|c s IH]; intro cur; [reflexivity|].
  cbn [split_from prefix filter List.length Nat.sub].
  rewrite andb_true_r. destruct (Ascii.eqb a c); cbn [List.length];
    now rewrite IH.
Qed.

Lemma strip_plain_ends c s z :
  is_space c = false -> is_space z = false ->
  strip (c :: s ++ [z]) = c :: s ++ [z].
Proof.
  intros Hc Hz. unfold strip. cbn [lstrip]. rewrite Hc.
  change (c :: s ++ [z])%list with ((c :: s) ++ [z])%list.
  rewrite rev_app_distr. change (rev [z]) with [z].
  cbn [app lstrip]. rewrite Hz.
  change (z :: rev (c :: s)) with ([z] ++ rev (c :: s))%list.
  rewrite rev_app_distr, rev_involutive. reflexivity.
Qed.

Lemma strip_trailing_space c s z :
  is_space c = false -> is_space z = false ->
  strip (c :: s ++ [z; " "%char]) = c :: s ++ [z].
Proof.
  intros Hc Hz. unfold strip. cbn [lstrip]. rewrite Hc.
  change (c :: s ++ [z; " "%char])%list
    with ((c :: s) ++ [z; " "%char])%list.
  rewrite rev_app_distr. change (rev [z; " "%char]) with [" "%char; z].
  cbn [app lstrip]. change (is_space " ") with true. cbv iota. rewrite Hz.
  change (z :: rev (c :: s)) with ([z] ++ rev (c :: s))%list.
  rewrite rev_app_distr, rev_involutive. reflexivity.
Qed.

End PyStrFacts.

Module DurationFacts.
Import PyStr Durations PyStrFacts.

Lemma chars_app a b : chars (a ++ b) = (chars a ++ chars b)%list.
Proof. apply CalendarRoundTrip.list_ascii_app. Qed.

Lemma text_app a b :
  string_of_list_ascii (a ++ b)
  = (string_of_list_ascii a ++ string_of_list_ascii b)%string.
Proof. induction a as [|c a IH]; simpl; [reflexivity | now rewrite IH]. Qed.

Lemma text_assoc (a b c : string) :
  ((a ++ b) ++ c = a ++ b ++ c)%string.
Proof. induction a as [|x a IH]; simpl; [reflexivity | now rewrite IH]. Qed.

Lemma text_chars s : string_of_list_ascii (chars s) = s.
Proof. apply string_of_list_ascii_of_string. Qed.

(** What being plain gives. *)
Lemma plain_absent s :
  plain s ->
  existsb (Ascii.eqb "P") (chars s) = false
  /\ existsb (Ascii.eqb "H") (chars s) = false
  /\ existsb (Ascii.eqb "M") (chars s) = false
  /\ forallb (fun c => negb (is_space c)) (chars s) = true.
Proof.
  unfold plain. induction (chars s) as [|c l IH]; simpl; [auto|].
  intro H. apply andb_true_iff in H as [Hc Hl].
  destruct (IH Hl) as (I1 & I2 & I3 & I4). rewrite I1, I2, I3, I4.
  unfold plain_char in Hc.
  repeat (apply andb_true_iff in Hc as [Hc ?]).
  repeat match goal with
         | H : negb _ = true |- _ => apply negb_true_iff in H
         end.
  repeat split; simpl; try (rewrite orb_false_r; assumption).
  rewrite andb_true_r. now apply negb_true_iff.
Qed.

(** The duration after ["PT"] is removed from the front. *)
Lemma duration_without_prefix body :
  existsb (Ascii.eqb "P") body = false ->
  replace (chars "PT") [] ("P"%char :: "T"%char :: body) = body.
Proof.
  intro H. cbn. now apply replace_two_absent.
Qed.

Lemma filter_out_absent a l :
  existsb (Ascii.eqb a) l = false ->
  filter (fun c => negb (Ascii.eqb a c)) l = l.
Proof.
  induction l as [|c l IH]; [reflexivity|]. simpl. intro H.
  apply orb_false_iff in H as [H1 H2]. rewrite H1. simpl. now rewrite IH.
Qed.

Lemma strip_framed front z :
  match front with
  | c :: _ => is_space c = false
  | [] => False
  end ->
  is_space z = false ->
  strip (front ++ [z]) = (front ++ [z])%list
  /\ strip (front ++ [z; " "%char]) = (front ++ [z])%list.
Proof.
  destruct front as [|c front]; [contradiction|]. intros Hc Hz.
  split; [now apply strip_plain_ends | now apply strip_trailing_space].
Qed.

End DurationFacts.

Module DurationFormatter.
Import PyStr Durations PyStrFacts DurationFacts.

(** A duration with hours and minutes, [PT<h>H<m>M] followed by any plain
    text, is rendered as [<h>h <m>...m]: the text after the minutes (a
    seconds part, say) is kept between the minutes and the letter m.
    Without the hours part the result is [<m>...m]; and with the hours part
    alone, whatever plain text follows the H is dropped: [<h>h]. *)
Theorem format_duration_parts :
  forall (h m t : string),
    plain h -> plain m -> plain t ->
    format_duration ("PT" ++ h ++ "H" ++ m ++ "M" ++ t)
    = Ok (h ++ "h " ++ m ++ t ++ "m")%string
    /\ format_duration ("PT" ++ m ++ "M" ++ t) = Ok (m ++ t ++ "m")%string
    /\ format_duration ("PT" ++ h ++ "H" ++ t) = Ok (h ++ "h")%string.
Proof.
  intros h m t Ph Pm Pt.
  destruct (plain_absent h Ph) as (hP & hH & hM & hS).
  destruct (plain_absent m Pm) as (mP & mH & mM & mS).
  destruct (plain_absent t Pt) as (tP & tH & tM & tS).
  assert (First : forall (s : string) rest,
             forallb (fun c => negb (is_space c)) (chars s) = true ->
             forall c, is_space c = false ->
             match (chars s ++ c :: rest)%list with
             | x :: _ => is_space x = false
             | [] => False
             end).
  { intros s rest F c Hc. destruct (chars s) as [|x l]; simpl; [exact Hc|].
    simpl in F. apply andb_true_iff in F as [F _].
    now apply negb_true_iff in F. }
  split; [|split].
  - unfold format_duration.
    rewrite !chars_app. change (chars "PT") with ["P"; "T"]%char.
    change (chars "H") with ["H"%char]. change (chars "M") with ["M"%char].
    change (chars "h ") with ["h"; " "]%char.
    change (chars "m") with ["m"%char].
    cbn [app]. change ["P"; "T"]%char with (chars "PT").
    rewrite duration_without_prefix
      by (repeat first [rewrite existsb_app | progress cbn [existsb]];
          rewrite hP, mP, tP; reflexivity).
    rewrite contains_single, existsb_app. cbn [existsb].
    rewrite Ascii.eqb_refl, orb_true_r. cbn [orb].
    unfold split. rewrite split_single_at by assumption.
    rewrite split_single_none
      by (rewrite existsb_app; cbn [existsb]; rewrite mH, tH; reflexivity).
    cbn [app bind unpack2 fst snd].
    rewrite contains_single, existsb_app. cbn [existsb].
    rewrite Ascii.eqb_refl. cbn [orb]. rewrite orb_true_r.
    unfold replace. rewrite replace_single, filter_app. cbn [filter].
    rewrite Ascii.eqb_refl. cbn [negb].
    rewrite !filter_out_absent by assumption.
    f_equal. repeat rewrite <- app_assoc. cbn [app].
    replace (chars h ++ "h" :: " " :: chars m ++ chars t ++ ["m"])%list%char
      with ((chars h ++ "h"%char :: " "%char :: chars m ++ chars t)
            ++ ["m"%char])%list
      by (repeat rewrite <- app_assoc; cbn [app];
          repeat rewrite <- app_assoc; reflexivity).
    rewrite (proj1 (strip_framed _ "m"%char
                      (First h _ hS "h"%char eq_refl) eq_refl)).
    rewrite <- !app_assoc. cbn [app].
    rewrite !text_app. cbn [string_of_list_ascii].
    rewrite !text_app, !text_chars.
    cbn [string_of_list_ascii]. now rewrite text_assoc.
  - unfold format_duration.
    rewrite !chars_app. change (chars "PT") with ["P"; "T"]%char.
    change (chars "H") with ["H"%char]. change (chars "M") with ["M"%char].
    change (chars "m") with ["m"%char].
    cbn [app]. change ["P"; "T"]%char with (chars "PT").
    rewrite duration_without_prefix
      by (repeat first [rewrite existsb_app | progress cbn [existsb]];
          rewrite mP, tP; reflexivity).
    rewrite contains_single, existsb_app. cbn [existsb].
    rewrite mH, tH. change (Ascii.eqb "H" "M") with false. cbn [orb bind].
    rewrite contains_single, existsb_app. cbn [existsb].
    rewrite Ascii.eqb_refl. cbn [orb]. rewrite orb_true_r.
    unfold replace. rewrite replace_single, filter_app. cbn [filter app].
    rewrite Ascii.eqb_refl. cbn [negb].
    rewrite !filter_out_absent by assumption.
    f_equal.
    destruct (chars m ++ chars t)%list as [|x l] eqn:Em.
    + apply app_eq_nil in Em as [Em Et].
      rewrite <- (text_chars m), <- (text_chars t), Em, Et. reflexivity.
    + assert (Hx : is_space x = false).
      { destruct (chars m) as [|y l']; simpl in Em.
        - rewrite Em in tS. simpl in tS. apply andb_true_iff in tS as [F _].
          now apply negb_true_iff in F.
        - injection Em as -> _. simpl in mS.
          apply andb_true_iff in mS as [F _]. now apply negb_true_iff in F. }
      rewrite (proj1 (strip_framed (x :: l) "m"%char Hx eq_refl)).
      rewrite <- Em. rewrite !text_app, !text_chars.
      cbn [string_of_list_ascii]. now rewrite text_assoc.
  - unfold format_duration.
    rewrite !chars_app. change (chars "PT") with ["P"; "T"]%char.
    change (chars "H") with ["H"%char]. change (chars "M") with ["M"%char].
    change (chars "h ") with ["h"; " "]%char.
    cbn [app]. change ["P"; "T"]%char with (chars "PT").
    rewrite duration_without_prefix
      by (repeat first [rewrite existsb_app | progress cbn [existsb]];
          rewrite hP, tP; reflexivity).
    rewrite contains_single, existsb_app. cbn [existsb].
    rewrite Ascii.eqb_refl, orb_true_r. cbn [orb].
    unfold split. rewrite split_single_at by assumption.
    rewrite split_single_none by assumption.
    cbn [app bind unpack2 fst snd].
    rewrite contains_single, tM.
    f_equal.
    destruct (chars h) as [|x l] eqn:Eh.
    + rewrite <- (text_chars h), Eh. reflexivity.
    + assert (Hx : is_space x = false).
      { simpl in hS. apply andb_true_iff in hS as [F _].
        now apply negb_true_iff in F. }
      change ((x :: l) ++ ["h"; " "])%list%char
        with ((x :: l) ++ ["h"%char; " "%char])%list.
      rewrite (proj2 (strip_framed (x :: l) "h"%char Hx eq_refl)).
      rewrite <- Eh. rewrite text_app, text_chars. reflexivity.
Qed.

Lemma format_duration_parts_witness :
  plain "2" /\ plain "30" /\ plain "15S"
  /\ format_duration "PT2H30M15S" = Ok "2h 3015Sm"
  /\ format_duration "PT30M15S" = Ok "3015Sm"
  /\ format_duration "PT2H15S" = Ok "2h".
Proof.
  assert (Ph : plain "2") by reflexivity.
  assert (Pm : plain "30") by reflexivity.
  assert (Pt : plain "15S") by reflexivity.
  repeat (split; [assumption|]).
  exact (format_duration_parts "2" "30" "15S" Ph Pm Pt).
Defined.

(** A duration text without the letter H and without the letter M, such as
    a duration of days or of seconds only, is rendered as the empty
    string. *)
Theorem format_duration_without_parts :
  forall (iso_duration : string),
    occurrences "H" iso_duration = 0%nat ->
    occurrences "M" iso_duration = 0%nat ->
    format_duration iso_duration = Ok EmptyString.
Proof.
  intros s H M. unfold occurrences in H, M.
  apply length_zero_iff_nil in H, M.
  apply absent_filter in H, M.
  assert (A : forall a, existsb (Ascii.eqb a) (chars s) = false ->
              existsb (Ascii.eqb a)
                (replace (chars "PT") [] (chars s)) = false).
  { intros a E. destruct (existsb (Ascii.eqb a) (replace _ _ _)) eqn:X;
      [|reflexivity].
    apply existsb_exists in X as (c & I & Ec).
    apply (replace_from_subset (chars "PT") c (chars s) 0) in I.
    assert (existsb (Ascii.eqb a) (chars s) = true)
      by (apply existsb_exists; eauto).
    congruence. }
  unfold format_duration.
  change (chars "H") with ["H"%char]. change (chars "M") with ["M"%char].
  rewrite contains_single, (A _ H). cbn [bind].
  rewrite contains_single, (A _ M). reflexivity.
Qed.

Lemma format_duration_without_parts_witness :
  occurrences "H" "P3DT45S" = 0%nat
  /\ occurrences "M" "P3DT45S" = 0%nat
  /\ format_duration "P3DT45S" = Ok EmptyString.
Proof.
  assert (H : occurrences "H" "P3DT45S" = 0%nat) by reflexivity.
  assert (M : occurrences "M" "P3DT45S" = 0%nat) by reflexivity.
  repeat (split; [assumption|]).
  exact (format_duration_without_parts "P3DT45S" H M).
Defined.

(** A duration in which the letter H occurs twice or more cannot be
    unpacked into hours and the rest: [format_duration] raises
    [ValueError]. *)
Theorem format_duration_two_hours :
  forall (body : string),
    occurrences "P" body = 0%nat ->
    (2 <= occurrences "H" body)%nat ->
    format_duration ("PT" ++ body)
    = Raise (ValueError "too many values to unpack (expected 2)").
Proof.
  intros body P H. unfold occurrences in P, H.
  apply length_zero_iff_nil in P. apply absent_filter in P.
  unfold format_duration. rewrite chars_app.
  change (chars "PT" ++ chars body)%list
    with ("P"%char :: "T"%char :: chars body).
  rewrite duration_without_prefix by assumption.
  change (chars "H") with ["H"%char].
  rewrite contains_single.
  assert (E : existsb (Ascii.eqb "H") (chars body) = true).
  { destruct (filter (Ascii.eqb "H") (chars body)) as [|c l] eqn:F;
      [simpl in H; lia|].
    assert (I : In c (filter (Ascii.eqb "H") (chars body)))
      by (rewrite F; now left).
    apply filter_In in I as [I Ec]. apply existsb_exists. eauto. }
  rewrite E. unfold split.
  pose proof (split_single_length "H" (chars body) []) as L.
  destruct (split_from ["H"%char] 0 [] (chars body)) as [|a [|b [|c l]]];
    simpl in L; try lia.
  reflexivity.
Qed.

Lemma format_duration_two_hours_witness :
  occurrences "P" "1H30MH" = 0%nat
  /\ (2 <= occurrences "H" "1H30MH")%nat
  /\ format_duration "PT1H30MH"
     = Raise (ValueError "too many values to unpack (expected 2)").
Proof.
  assert (P : occurrences "P" "1H30MH" = 0%nat) by reflexivity.
  assert (H : (2 <= occurrences "H" "1H30MH")%nat) by (vm_compute; lia).
  repeat (split; [assumption|]).
  exact (format_duration_two_hours "1H30MH" P H).
Defined.

End DurationFormatter.

(* ===================================================================== *)
(** * Properties of a comparison run over the dispatcher                 *)
(* ===================================================================== *)

Module BatchFacts.
Import Dispatcher Traces ComparatorFacts.

Lemma sort_unpriced l :
  Forall (fun x => price x = None) l -> sort_results l = l.
Proof.
  induction 1 as [|x l Hx F IH]; [reflexivity|]. simpl. rewrite IH.
  destruct l as [|y l]; [reflexivity|]. cbn [insert].
  inversion F as [|? ? Hy _]; subst.
  unfold key_lt, sort_key. now rewrite Hx, Hy.
Qed.

Lemma total_sleep_app a b :
  total_sleep (a ++ b) = total_sleep a + total_sleep b.
Proof.
  unfold total_sleep, sleeps. rewrite flat_map_app.
  induction (flat_map _ a) as [|x l IH]; simpl; [reflexivity | lia].
Qed.

(** The traced loop returns what the loop over the searcher returns. *)
Lemma collect_agrees float_of_str headers srvs ra currency :
  forall dates i acc tr,
    fst (Batch.collect float_of_str headers srvs ra currency i dates acc tr)
    = Comparator.collect float_of_str (Batch.searcher_of headers srvs) ra
        currency i dates acc.
Proof.
  induction dates as [|d dates IH]; intros i acc tr; [reflexivity|].
  simpl. destruct (return_date_for ra d) as [ret|e]; simpl; [|reflexivity].
  unfold Batch.searcher_of.
  destruct (Batch.search_flights headers (srvs i)) as [t found].
  apply IH.
Qed.

(** When every search ends the same way [e] after the same trace [t], a
    one-way run makes one failed entry per date and repeats [t] for each. *)
Lemma collect_uniform float_of_str headers srvs currency t e :
  (forall i, Batch.search_flights headers (srvs i) = (t, Raise e)) ->
  forall dates i acc tr,
    Batch.collect float_of_str headers srvs None currency i dates acc tr
    = (Ok (acc ++ map (fun d => failed currency d None (Failure e)) dates)%list,
       (tr ++ List.concat (map (fun _ => t) dates))%list).
Proof.
  intro H. induction dates as [|d dates IH]; intros i acc tr.
  - simpl. now rewrite !app_nil_r.
  - cbn [Batch.collect return_date_for]. rewrite H, IH.
    cbn [map List.concat]. now rewrite <- !app_assoc.
Qed.

Lemma concat_repeat_sends {A} (t : list event) (l : list A) :
  sends (List.concat (map (fun _ => t) l)) = (List.length l * sends t)%nat.
Proof.
  induction l as [|x l IH]; [reflexivity|].
  cbn [map List.concat List.length]. rewrite DispatcherFacts.sends_app, IH. lia.
Qed.

Lemma concat_repeat_sleep {A} (t : list event) (l : list A) :
  total_sleep (List.concat (map (fun _ => t) l))
  = Z.of_nat (List.length l) * total_sleep t.
Proof.
  induction l as [|x l IH]; [reflexivity|].
  cbn [map List.concat List.length]. rewrite total_sleep_app, IH. lia.
Qed.

Lemma uniform_run float_of_str headers srvs origin destination dates
      currency t e :
  (forall i, Batch.search_flights headers (srvs i) = (t, Raise e)) ->
  Batch.compare_dates float_of_str headers srvs origin destination dates
    None currency
  = (Ok {| origin := origin; destination := destination;
           results := map (fun d => failed currency d None (Failure e)) dates;
           cheapest := None |},
     List.concat (map (fun _ => t) dates)).
Proof.
  intro H. unfold Batch.compare_dates.
  rewrite (collect_uniform float_of_str headers srvs currency t e H).
  cbn [app bind]. rewrite sort_unpriced.
  - destruct dates; reflexivity.
  - apply Forall_forall. intros x Hx. apply in_map_iff in Hx as (d & <- & _).
    reflexivity.
Qed.

End BatchFacts.

Module BatchRuns.
Import Dispatcher Traces BatchFacts Samples.

(** Exhausted retries are not fatal to a comparison.  When every request of
    a one-way run is answered with HTTP 429, [compare_dates] still returns:
    each date, in the order given, has an entry without a price whose error
    is "Max retries exceeded due to rate limiting", there is no [cheapest],
    and the run has made three requests and slept seven seconds per date. *)
Theorem comparison_under_rate_limit :
  forall (float_of_str : string -> result Q) (hdr : json)
         (srvs : nat -> server) (origin destination : string)
         (dates : list string) (currency : string),
    (forall i a, status_of (srvs i a) = Some 429) ->
    let run := Batch.compare_dates float_of_str (Ok hdr) srvs origin
                 destination dates None currency in
    fst run
    = Ok {| origin := origin; destination := destination;
            results :=
              map (fun d => failed currency d None (Failure max_retries)) dates;
            cheapest := None |}
    /\ sends (snd run) = (3 * List.length dates)%nat
    /\ total_sleep (snd run) = 7 * Z.of_nat (List.length dates).
Proof.
  intros fos hdr srvs origin destination dates currency H run.
  assert (U : forall i, Batch.search_flights (Ok hdr) (srvs i)
                        = (backoff 0 3, Raise max_retries)).
  { intro i. unfold Batch.search_flights, default_retries.
    rewrite (DispatcherFacts.make_request_after_backoff (srvs i) hdr 3 3)
      by (try lia; intros j _; apply H).
    simpl. reflexivity. }
  subst run. rewrite (uniform_run fos _ _ _ _ _ _ _ _ U). cbn [fst snd].
  split; [reflexivity|]. split.
  - rewrite concat_repeat_sends. change (sends (backoff 0 3)) with 3%nat. lia.
  - rewrite concat_repeat_sleep. change (total_sleep (backoff 0 3)) with 7. lia.
Qed.

Lemma comparison_under_rate_limit_witness :
  (forall i a : nat, status_of (always too_many_requests a) = Some 429)
  /\ total_sleep
       (snd (Batch.compare_dates decimal (Ok headers)
               (fun _ => always too_many_requests) "LHR" "BCN" five_dates
               None "GBP")) = 35.
Proof.
  assert (H : forall (i a : nat),
                status_of (always too_many_requests a) = Some 429)
    by (intros; reflexivity).
  split; [exact H|].
  destruct (comparison_under_rate_limit decimal headers
              (fun _ => always too_many_requests) "LHR" "BCN" five_dates "GBP"
              (fun i a => H i a)) as (_ & _ & T).
  rewrite T. reflexivity.
Defined.

(** An authentication failure is not fatal to a comparison either.  When
    every request of a one-way run is answered with HTTP 401,
    [compare_dates] returns an entry per date whose error is the
    authentication failure; every date is still tried, with one request and
    no sleep. *)
Theorem comparison_under_auth_failure :
  forall (float_of_str : string -> result Q) (hdr : json)
         (srvs : nat -> server) (origin destination : string)
         (dates : list string) (currency : string),
    (forall i, status_of (srvs i 0%nat) = Some 401) ->
    let run := Batch.compare_dates float_of_str (Ok hdr) srvs origin
                 destination dates None currency in
    fst run
    = Ok {| origin := origin; destination := destination;
            results :=
              map (fun d => failed currency d None (Failure auth_failed)) dates;
            cheapest := None |}
    /\ sends (snd run) = List.length dates
    /\ total_sleep (snd run) = 0.
Proof.
  intros fos hdr srvs origin destination dates currency H run.
  assert (U : forall i, Batch.search_flights (Ok hdr) (srvs i)
                        = ([Send 0], Raise auth_failed)).
  { intro i. unfold Batch.search_flights, make_request, default_retries.
    cbn [attempts]. specialize (H i).
    destruct (srvs i 0%nat) as [status text decoded|]; [|discriminate].
    injection H as ->. reflexivity. }
  subst run. rewrite (uniform_run fos _ _ _ _ _ _ _ _ U). cbn [fst snd].
  split; [reflexivity|]. split.
  - rewrite concat_repeat_sends. change (sends [Send 0]) with 1%nat. lia.
  - rewrite concat_repeat_sleep. change (total_sleep [Send 0]) with 0. lia.
Qed.

Lemma comparison_under_auth_failure_witness :
  (forall i : nat, status_of (always unauthorized 0%nat) = Some 401)
  /\ sends
       (snd (Batch.compare_dates decimal (Ok headers)
               (fun _ => always unauthorized) "LHR" "BCN" five_dates
               None "GBP")) = 5%nat.
Proof.
  assert (H : forall i : nat, status_of (always unauthorized 0%nat) = Some 401)
    by (intros; reflexivity).
  split; [exact H|].
  destruct (comparison_under_auth_failure decimal headers
              (fun _ => always unauthorized) "LHR" "BCN" five_dates "GBP" H)
    as (_ & S & _).
  rewrite S. reflexivity.
Defined.

(** The run with its searches spelled out returns what [compare_dates]
    returns for the searcher the servers amount to. *)
Theorem traced_comparison_agrees :
  forall (float_of_str : string -> result Q) (headers : result json)
         (srvs : nat -> server) (origin destination : string)
         (dates : list string) (return_after_days : option Z)
         (currency : string),
    fst (Batch.compare_dates float_of_str headers srvs origin destination
           dates return_after_days currency)
    = Comparator.compare_dates float_of_str (Batch.searcher_of headers srvs)
        origin destination dates return_after_days currency.
Proof.
  intros fos headers srvs origin destination dates ra currency.
  unfold Batch.compare_dates, Comparator.compare_dates.
  pose proof (collect_agrees fos headers srvs ra currency dates 0%nat [] [])
    as A.
  destruct (Batch.collect fos headers srvs ra currency 0 dates [] [])
    as [collected tr].
  cbn [fst] in *. now rewrite A.
Qed.

(** In the mode with a list of dates, every item between commas becomes a
    date, blank items too: the list has one date more than the argument has
    commas and is never empty. *)
Theorem dates_of_argument_count :
  forall (argument : string),
    exists dates,
      Batch.dates_of_argument argument = Ok dates
      /\ List.length dates = S (Durations.occurrences "," argument)
      /\ dates <> [].
Proof.
  intro argument. unfold Batch.dates_of_argument, PyStr.split.
  change (Durations.chars ",") with [","%char]. cbn [bind].
  eexists. split; [reflexivity|].
  assert (L : List.length
                (map (fun d => string_of_list_ascii (PyStr.strip d))
                   (PyStr.split_from [","%char] 0 []
                      (Durations.chars argument)))
              = S (Durations.occurrences "," argument)).
  { rewrite length_map. apply PyStrFacts.split_single_length. }
  split; [exact L|]. intro E. rewrite E in L. discriminate L.
Qed.

End BatchRuns.
